(** * Verification of the scraping job's data-processing core

    A shallow embedding of [utils/dataProcessor.js], the retry loops of the
    transport strategies, the per-strategy [getRecentPosts] error paths, the
    numeric normalizer [extractNumber] and [ScrapingJob], followed by the
    properties proved about them.

    JavaScript values are restricted to primitives.  Numbers are rationals
    extended with NaN and the two infinities.  The arithmetic of the data
    processor and of the normalizer and the reading of numeric literals
    round to binary64 ([b64]: to the nearest value, ties to the even
    significand, overflow to an infinity); the sign of zero is outside the
    model.  Strings are byte strings; case mapping and white space are the
    ASCII ones. *)

From Stdlib Require Import ZArith QArith Qabs Qround Qpower String Ascii List Lia Lqa
  Permutation Sorted.
From stdpp Require Import base strings gmap list pretty.

Local Open Scope Z_scope.

(** ** JavaScript primitives *)

Module Js.

(** Number values. *)
Inductive jsnum : Type :=
| NaN
| PInf
| NInf
| Fin (q : Q).

Definition of_Z (z : Z) : jsnum := Fin (inject_Z z).

Definition isNaN (n : jsnum) : bool :=
  match n with NaN => true | _ => false end.

(** [n >= 0] *)
Definition ge0 (n : jsnum) : bool :=
  match n with
  | NaN | NInf => false
  | PInf => true
  | Fin q => Qle_bool 0 q
  end.

Definition sgn (q : Q) : Z := Z.sgn (Qnum q).

(** The exact sum, difference, product and quotient.  [ScrapingJob.run]
    applies them to array lengths, and the average of the specification is
    worded with them; the operators of the data processor and of the
    normalizer are the rounding ones below. *)
Definition add (a b : jsnum) : jsnum :=
  match a, b with
  | NaN, _ | _, NaN => NaN
  | PInf, NInf | NInf, PInf => NaN
  | PInf, _ | _, PInf => PInf
  | NInf, _ | _, NInf => NInf
  | Fin x, Fin y => Fin (Qred (x + y))
  end.

Definition neg (a : jsnum) : jsnum :=
  match a with
  | NaN => NaN
  | PInf => NInf
  | NInf => PInf
  | Fin x => Fin (Qred (- x))
  end.

Definition sub (a b : jsnum) : jsnum := add a (neg b).

Definition signed_inf (s : Z) : jsnum :=
  match s with
  | Z0 => NaN
  | Zpos _ => PInf
  | Zneg _ => NInf
  end.

Definition sign_of (a : jsnum) : Z :=
  match a with
  | NaN => 0
  | PInf => 1
  | NInf => -1
  | Fin x => sgn x
  end.

Definition mul (a b : jsnum) : jsnum :=
  match a, b with
  | NaN, _ | _, NaN => NaN
  | Fin x, Fin y => Fin (Qred (x * y))
  | _, _ => signed_inf (sign_of a * sign_of b)
  end.

Definition div (a b : jsnum) : jsnum :=
  match a, b with
  | NaN, _ | _, NaN => NaN
  | Fin x, Fin y =>
      if Qeq_bool y 0 then signed_inf (sgn x) else Fin (Qred (x / y))
  | Fin _, _ => Fin 0
  | _, Fin y => signed_inf (sign_of a * (if Qeq_bool y 0 then 1 else sgn y))
  | _, _ => NaN
  end.

(** *** binary64 *)

Definition pow2 (e : Z) : Q := (2 ^ e)%Q.

(** [floor (log2 q)] for a positive [q] *)
Definition ilog2 (q : Q) : Z :=
  let e := Z.log2 (Qnum q) - Z.log2 (Zpos (Qden q)) in
  if Qle_bool (pow2 e) q then e else e - 1.

(** The nearest integer, ties to the even one. *)
Definition rne (x : Q) : Z :=
  let f := Qfloor x in
  match Qcompare (x - inject_Z f) (1 # 2) with
  | Lt => f
  | Gt => f + 1
  | Eq => if Z.even f then f else f + 1
  end.

(** The multiple of the unit in the last place nearest to a positive [q]:
    the significand has 53 bits, and the exponent does not go below that
    of the subnormal numbers. *)
Definition nearest (q : Q) : Q :=
  let p := Z.max (ilog2 q) (-1022) - 52 in
  (inject_Z (rne (q / pow2 p)) * pow2 p)%Q.

Definition round_pos (q : Q) : jsnum :=
  let r := nearest q in
  if Qle_bool (pow2 1024) r then PInf else Fin (Qred r).

(** The Number value for a real number: round to nearest, ties to even. *)
Definition b64 (q : Q) : jsnum :=
  match Qcompare q 0 with
  | Eq => Fin 0
  | Gt => round_pos q
  | Lt => neg (round_pos (- q))
  end.

(** [a + b], [a * b] and [a / b] on Number values. *)
Definition add64 (a b : jsnum) : jsnum :=
  match a, b with
  | Fin x, Fin y => b64 (x + y)
  | _, _ => add a b
  end.

Definition mul64 (a b : jsnum) : jsnum :=
  match a, b with
  | Fin x, Fin y => b64 (x * y)
  | _, _ => mul a b
  end.

Definition div64 (a b : jsnum) : jsnum :=
  match a, b with
  | Fin x, Fin y => if Qeq_bool y 0 then signed_inf (sgn x) else b64 (x / y)
  | _, _ => div a b
  end.

(** [Math.round]: the nearest integer, ties towards positive infinity. *)
Definition Math_round (a : jsnum) : jsnum :=
  match a with
  | Fin x => of_Z (Qfloor (x + (1 # 2)))
  | _ => a
  end.

(** Values: the primitives a post field can hold. *)
Inductive jsval : Type :=
| VUndef
| VNull
| VBool (b : bool)
| VNum (n : jsnum)
| VStr (s : string).

(** ToBoolean *)
Definition truthy (v : jsval) : bool :=
  match v with
  | VUndef | VNull => false
  | VBool b => b
  | VNum NaN => false
  | VNum (Fin q) => negb (Qeq_bool q 0)
  | VNum _ => true
  | VStr s => negb (String.eqb s "")
  end.

(** [a || b] *)
Definition or (a b : jsval) : jsval := if truthy a then a else b.

(** *** Strings as character lists *)

Definition chars (s : string) : list ascii := list_ascii_of_string s.
Definition str (cs : list ascii) : string := string_of_list_ascii cs.

Definition is_ws (c : ascii) : bool :=
  let n := nat_of_ascii c in
  ((9 <=? n) && (n <=? 13) || (n =? 32))%nat.

Definition is_upper (c : ascii) : bool :=
  let n := nat_of_ascii c in ((65 <=? n) && (n <=? 90))%nat.

Definition lower_char (c : ascii) : ascii :=
  if is_upper c then ascii_of_nat (nat_of_ascii c + 32) else c.

(** [String.prototype.toLowerCase] *)
Definition toLowerCase (s : string) : string := str (List.map lower_char (chars s)).

Fixpoint trim_start (cs : list ascii) : list ascii :=
  match cs with
  | c :: cs' => if is_ws c then trim_start cs' else cs
  | [] => []
  end.

Definition trim_chars (cs : list ascii) : list ascii :=
  rev (trim_start (rev (trim_start cs))).

(** [String.prototype.trim] *)
Definition trim (s : string) : string := str (trim_chars (chars s)).

(** [String.prototype.endsWith] for a one-character needle. *)
Definition endsWith (s : string) (c : ascii) : bool :=
  match rev (chars s) with
  | d :: _ => Ascii.eqb d c
  | [] => false
  end.

(** [s.replace(/,/g, '')] *)
Definition remove_commas (s : string) : string :=
  str (List.filter (fun c => negb (Ascii.eqb c ","%char)) (chars s)).

(** *** Numeric literals *)

Definition digit_of (base : Z) (c : ascii) : option Z :=
  let n := Z.of_nat (nat_of_ascii c) in
  let d :=
    if (48 <=? n) && (n <=? 57) then n - 48
    else if (97 <=? n) && (n <=? 102) then n - 87
    else if (65 <=? n) && (n <=? 70) then n - 55
    else 99 in
  if d <? base then Some d else None.

(** The longest run of digits at the front: its value, its length and what
    follows it. *)
Fixpoint take_digits (base : Z) (cs : list ascii) (acc : Z) (cnt : nat)
  : Z * nat * list ascii :=
  match cs with
  | c :: cs' =>
      match digit_of base c with
      | Some d => take_digits base cs' (base * acc + d) (S cnt)
      | None => (acc, cnt, cs)
      end
  | [] => (acc, cnt, [])
  end.

Definition pow10 (e : Z) : Q :=
  if 0 <=? e then inject_Z (10 ^ e) else (1 / inject_Z (10 ^ (- e)))%Q.

Definition is_exp_mark (c : ascii) : bool :=
  Ascii.eqb c "e"%char || Ascii.eqb c "E"%char.

Definition take_sign (cs : list ascii) : Z * list ascii :=
  match cs with
  | c :: r =>
      if Ascii.eqb c "+"%char then (1, r)
      else if Ascii.eqb c "-"%char then (-1, r)
      else (1, cs)
  | [] => (1, [])
  end.

(** ExponentPart, when one is present. *)
Definition parse_exponent (cs : list ascii) : Z * list ascii :=
  match cs with
  | c :: cs1 =>
      if is_exp_mark c then
        let '(sg, cs2) := take_sign cs1 in
        let '(v, n, rest) := take_digits 10 cs2 0 0 in
        match n with
        | O => (0, cs)
        | S _ => (sg * v, rest)
        end
      else (0, cs)
  | [] => (0, [])
  end.

(** The longest StrUnsignedDecimalLiteral (without [Infinity]) at the front
    of [cs], with the rest of the input. *)
Definition parse_unsigned_decimal (cs : list ascii) : option (Q * list ascii) :=
  let '(i, ni, r1) := take_digits 10 cs 0 0 in
  let '(f, nf, r2) :=
    match r1 with
    | c :: r =>
        if Ascii.eqb c "."%char then
          let '(f, nf, r') := take_digits 10 r 0 0 in
          match ni, nf with
          | O, O => (0, O, r1)
          | _, _ => (f, nf, r')
          end
        else (0, O, r1)
    | [] => (0, O, r1)
    end in
  match ni, nf with
  | O, O => None
  | _, _ =>
      let m := ((inject_Z (i * 10 ^ Z.of_nat nf + f)) / inject_Z (10 ^ Z.of_nat nf))%Q in
      let '(e, r3) := parse_exponent r2 in
      Some ((m * pow10 e)%Q, r3)
  end.

Fixpoint starts_with (p cs : list ascii) : option (list ascii) :=
  match p, cs with
  | [], _ => Some cs
  | a :: p', c :: cs' => if Ascii.eqb a c then starts_with p' cs' else None
  | _ :: _, [] => None
  end.

(** The Number value of a signed literal. *)
Definition signed (sg : Z) (q : Q) : jsnum := b64 (inject_Z sg * q).

(** [parseFloat] of a string. *)
Definition parseFloat (s : string) : jsnum :=
  let '(sg, cs) := take_sign (trim_start (chars s)) in
  match starts_with (chars "Infinity") cs with
  | Some _ => signed_inf sg
  | None =>
      match parse_unsigned_decimal cs with
      | Some (q, _) => signed sg q
      | None => NaN
      end
  end.

Definition radix_of (c : ascii) : option Z :=
  if Ascii.eqb c "x"%char || Ascii.eqb c "X"%char then Some 16
  else if Ascii.eqb c "o"%char || Ascii.eqb c "O"%char then Some 8
  else if Ascii.eqb c "b"%char || Ascii.eqb c "B"%char then Some 2
  else None.

Definition decimal_string_value (cs : list ascii) : jsnum :=
  let '(sg, cs1) := take_sign cs in
  match starts_with (chars "Infinity") cs1 with
  | Some [] => signed_inf sg
  | Some (_ :: _) => NaN
  | None =>
      match parse_unsigned_decimal cs1 with
      | Some (q, []) => signed sg q
      | _ => NaN
      end
  end.

(** StringToNumber: the whole trimmed string has to be a numeric literal;
    the empty string is 0. *)
Definition string_to_number (s : string) : jsnum :=
  match trim_chars (chars s) with
  | [] => Fin 0
  | c0 :: c1 :: r =>
      match (if Ascii.eqb c0 "0"%char then radix_of c1 else None) with
      | Some base =>
          match take_digits base r 0 0 with
          | (v, S _, []) => b64 (inject_Z v)
          | _ => NaN
          end
      | None => decimal_string_value (c0 :: c1 :: r)
      end
  | cs => decimal_string_value cs
  end.

(** [Number(v)] *)
Definition Number (v : jsval) : jsnum :=
  match v with
  | VUndef => NaN
  | VNull => Fin 0
  | VBool b => if b then Fin 1 else Fin 0
  | VNum n => n
  | VStr s => string_to_number s
  end.

(** What the model takes from the engine: the decimal rendering of numbers
    and the date-string parser, whose accepted formats beyond ISO 8601 are
    implementation-defined.  [Date_parse] yields the time value in
    milliseconds, or [None] for an invalid date. *)
Class Engine : Type := {
  Number_toString : jsnum -> string;
  Date_parse : string -> option Z;
}.

(** [v.toString()] for a value that is neither [undefined] nor [null]. *)
Definition toString `{Engine} (v : jsval) : string :=
  match v with
  | VUndef => "undefined"
  | VNull => "null"
  | VBool b => if b then "true" else "false"
  | VNum n => Number_toString n
  | VStr s => s
  end.

(** Time value of [new Date(v)]: [None] is the invalid date. *)
Definition Date_new `{Engine} (v : jsval) : option Z :=
  match v with
  | VUndef => None
  | VStr s => Date_parse s
  | _ =>
      match Number v with
      | Fin q =>
          if Qle_bool (Qabs q) (inject_Z 8640000000000000)
          then Some (Z.quot (Qnum q) (Z.pos (Qden q)))
          else None
      | _ => None
      end
  end.

Definition gt0 (n : jsnum) : bool :=
  match n with
  | PInf => true
  | Fin q => negb (Qle_bool q 0)
  | _ => false
  end.

(** [Array.prototype.sort] with a comparator, as a stable insertion sort:
    [x] moves behind [y] exactly when [cmp x y > 0]; a NaN result counts as
    0.  For a consistent comparator every conforming engine returns this
    list (the sort is required to be stable); for an inconsistent one the
    order is implementation-defined and this is one admissible outcome. *)
Fixpoint sort_insert {A} (cmp : A -> A -> jsnum) (x : A) (l : list A) : list A :=
  match l with
  | [] => [x]
  | y :: l' => if gt0 (cmp x y) then y :: sort_insert cmp x l' else x :: l
  end.

Fixpoint Array_sort {A} (cmp : A -> A -> jsnum) (l : list A) : list A :=
  match l with
  | [] => []
  | x :: l' => sort_insert cmp x (Array_sort cmp l')
  end.

(** [l.slice(0, count)] *)
Definition slice0 {A} (l : list A) (count : Z) : list A :=
  let len := Z.of_nat (length l) in
  let fin := if count <? 0 then Z.max (len + count) 0 else Z.min count len in
  firstn (Z.to_nat fin) l.

(** Objects are finite maps from property names to values; reading an
    absent property gives [undefined]. *)
Abbreviation obj := (gmap string jsval).

Definition get (o : obj) (k : string) : jsval := default VUndef (o !! k).

(** [dateB - dateA] on two [Date] objects. *)
Definition Date_sub (b a : option Z) : jsnum :=
  match b, a with
  | Some x, Some y => of_Z (x - y)
  | _, _ => NaN
  end.

End Js.

Import Js.

(** ** utils/dataProcessor.js *)

Module DataProcessor.

(** [calculateAverageViews(posts)]; [None] is [null].  A [null] or
    [undefined] argument takes the branch of the empty array. *)
Definition calculateAverageViews (posts : list obj) : option jsnum :=
  match posts with
  | [] => None
  | _ =>
      let validPosts :=
        List.filter (fun post =>
                       let views := Number (get post "views") in
                       negb (isNaN views) && ge0 views) posts in
      match validPosts with
      | [] => None
      | _ =>
          let totalViews :=
            fold_left (fun sum post => add64 sum (Number (get post "views")))
                      validPosts (Fin 0) in
          let average :=
            Math_round (div64 totalViews (of_Z (Z.of_nat (length validPosts)))) in
          Some average
      end
  end.

Section WithEngine.
Context `{Engine}.

(** The comparator of [filterLast10Posts]. *)
Definition byDateDesc (a b : obj) : jsnum :=
  let dateA := Date_new (get a "postedDate") in
  let dateB := Date_new (get b "postedDate") in
  Date_sub dateB dateA.

(** [filterLast10Posts(posts, count = 10)]; [count = None] is the omitted
    argument. *)
Definition filterLast10Posts (posts : list obj) (count : option Z) : list obj :=
  match posts with
  | [] => []
  | _ =>
      let sortedPosts := Array_sort byDateDesc posts in
      slice0 sortedPosts (default 10 count)
  end.

(** [post.postLink?.toString().trim()]; [None] is [undefined]. *)
Definition postLinkOf (post : obj) : option string :=
  match get post "postLink" with
  | VUndef | VNull => None
  | v => Some (trim (toString v))
  end.

(** [!postLink] *)
Definition noLink (postLink : option string) : bool :=
  match postLink with
  | None => true
  | Some s => String.eqb s ""
  end.

Record dedup : Type := { toAppend : list obj; toUpdate : list obj }.

(** The body of the [forEach] callback of [deduplicatePosts], on the two
    accumulators.  The warning logged for a skipped post is not modelled. *)
Definition dedupStep (existingPostLinks : gset (option string))
           (acc : dedup) (post : obj) : dedup :=
  let postLink := postLinkOf post in
  if noLink postLink then acc
  else if bool_decide (postLink ∈ existingPostLinks)
       then {| toAppend := toAppend acc; toUpdate := toUpdate acc ++ [post] |}
       else {| toAppend := toAppend acc ++ [post]; toUpdate := toUpdate acc |}.

(** [deduplicatePosts(existingPosts, newPosts)] *)
Definition deduplicatePosts (existingPosts newPosts : list obj) : dedup :=
  let start := {| toAppend := []; toUpdate := [] |} in
  match newPosts with
  | [] => start
  | _ =>
      let existingPostLinks : gset (option string) :=
        list_to_set (List.map postLinkOf existingPosts) in
      fold_left (dedupStep existingPostLinks) newPosts start
  end.

End WithEngine.

(** [x !== undefined ? Number(x) : otherwise] *)
Definition numberOr (x : jsval) (otherwise : jsval) : jsval :=
  match x with
  | VUndef => otherwise
  | _ => VNum (Number x)
  end.

(** [normalizePost(post, username, platform)]; [now] is the value of
    [new Date().toISOString()] at the call. *)
Definition normalizePost (now : string) (post : obj) (username platform : jsval) : obj :=
  <[ "username" := username ]>
  (<[ "platform" := or (or platform (get post "platform")) (VStr "") ]>
  (<[ "postLink" := or (or (get post "postLink") (get post "url")) (VStr "") ]>
  (<[ "postedDate" := or (or (get post "postedDate") (get post "date")) (VStr now) ]>
  (<[ "comments" := numberOr (get post "comments")
                             (numberOr (get post "share") (VNum (Fin 0))) ]>
  (<[ "likes" := numberOr (get post "likes") (VNum (Fin 0)) ]> ∅))))).

End DataProcessor.

(** ** Exceptions, logging and waiting *)

Module Eff.

(** An [Error] object.  [status] is [error.response?.status], [code] is
    [error.code], [apiCode] and [apiMessage] are
    [error.response?.data?.error?.code] and [...error?.message], and
    [dataMessage] is [error.response?.data?.message]. *)
Record JsError : Type := {
  message : string;
  status : option Z;
  code : option string;
  apiCode : option Z;
  apiMessage : option string;
  dataMessage : option string;
}.

(** [new Error(msg)] *)
Definition mkError (msg : string) : JsError :=
  {| message := msg; status := None; code := None; apiCode := None;
     apiMessage := None; dataMessage := None |}.

Inductive result (A : Type) : Type :=
| Ok (a : A)
| Throw (e : JsError).
Arguments Ok {A} a.
Arguments Throw {A} e.

Inductive level : Type := LDebug | LInfo | LWarn | LError.

(** What a call leaves behind besides its result: log lines, outbound
    requests (with their attempt number) and waits (in milliseconds). *)
Inductive event : Type :=
| Log (l : level) (msg : string)
| Request (attempt : Z)
| Sleep (ms : Z).

(** A computation: the events it produced and how it ended. *)
Definition M (A : Type) : Type := list event * result A.

Definition ret {A} (a : A) : M A := ([], Ok a).
Definition throw {A} (e : JsError) : M A := ([], Throw e).
Definition emit (ev : event) : M unit := ([ev], Ok tt).
Definition log (l : level) (msg : string) : M unit := emit (Log l msg).

Definition bind {A B} (c : M A) (k : A -> M B) : M B :=
  match c with
  | (t, Ok a) => let '(t', r) := k a in (t ++ t', r)
  | (t, Throw e) => (t, Throw e)
  end.

(** [try { c } catch (error) { h error }] *)
Definition try_catch {A} (c : M A) (h : JsError -> M A) : M A :=
  match c with
  | (t, Ok a) => (t, Ok a)
  | (t, Throw e) => let '(t', r) := h e in (t ++ t', r)
  end.

(** [try { c } finally { f }]: [f] runs on both paths, and an exception
    raised by [f] replaces the outcome of [c]. *)
Definition finally {A} (c : M A) (f : M unit) : M A :=
  match c, f with
  | (t, r), (t', Ok _) => (t ++ t', r)
  | (t, _), (t', Throw e) => (t ++ t', Throw e)
  end.

Definition lift {A} (r : result A) : M A := ([], r).

Definition trace {A} (c : M A) : list event := fst c.
Definition outcome {A} (c : M A) : result A := snd c.

Definition sleeps (t : list event) : list Z :=
  omap (fun ev => match ev with Sleep ms => Some ms | _ => None end) t.

Definition requests (t : list event) : list Z :=
  omap (fun ev => match ev with Request a => Some a | _ => None end) t.

Definition logged (l : level) (t : list event) : list string :=
  omap (fun ev => match ev with
                  | Log l' msg => match l, l' with
                                  | LDebug, LDebug | LInfo, LInfo
                                  | LWarn, LWarn | LError, LError => Some msg
                                  | _, _ => None
                                  end
                  | _ => None
                  end) t.

End Eff.

Import Eff.

Notation "x <- c ;; k" := (Eff.bind c (fun x => k))
  (at level 100, c at next level, right associativity).
Notation "c ;;; k" := (Eff.bind c (fun _ => k))
  (at level 100, right associativity).

(** ** services/scrapers/strategies *)

(** The double-quote character, for log messages. *)
Definition dq : string := String (ascii_of_nat 34) EmptyString.

(** [`${n}`] for an integer. *)
Definition showZ (n : Z) : string := pretty n.

(** [s.includes(sub)] *)
Fixpoint includes_chars (sub cs : list ascii) : bool :=
  match starts_with sub cs with
  | Some _ => true
  | None =>
      match cs with
      | [] => false
      | _ :: r => includes_chars sub r
      end
  end.

Definition includes (s sub : string) : bool := includes_chars (chars sub) (chars s).

(** [s.replace('@', '')]: drops the first [@]. *)
Fixpoint drop_first_at (cs : list ascii) : list ascii :=
  match cs with
  | [] => []
  | c :: r => if Ascii.eqb c "@"%char then r else c :: drop_first_at r
  end.

Definition removeAt (s : string) : string := str (drop_first_at (chars s)).

Module ScrapingStrategy.

(** [extractNumber(value)] *)
Definition extractNumber (value : jsval) : jsnum :=
  match value with
  | VNum n => n
  | VStr s =>
      let lowerValue := trim (toLowerCase s) in
      if endsWith lowerValue "k" then
        Math_round (mul64 (parseFloat lowerValue) (of_Z 1000))
      else if endsWith lowerValue "m" then
        Math_round (mul64 (parseFloat lowerValue) (of_Z 1000000))
      else if endsWith lowerValue "b" then
        Math_round (mul64 (parseFloat lowerValue) (of_Z 1000000000))
      else
        let parsed := parseFloat (remove_commas lowerValue) in
        if isNaN parsed then Fin 0 else parsed
  | _ => Fin 0
  end.

(** The object [handleError] returns. *)
Record errorInfo : Type := { error : string; info : string }.

(** [handleError(error, username)] *)
Definition handleError (platformName : string) (err : JsError) (username : string)
  : M errorInfo :=
  let statusCode := status err in
  let errorMessage :=
    match dataMessage err with
    | Some m => if String.eqb m "" then message err else m
    | None => message err
    end in
  if bool_decide (statusCode = Some 404) then
    log LError (platformName ++ ": User " ++ dq ++ username ++ dq ++ " not found") ;;;
    ret {| error := "user_not_found"; info := "User not found" |}
  else if bool_decide (statusCode = Some 403) then
    log LError (platformName ++ ": User " ++ dq ++ username ++ dq ++ " has private account") ;;;
    ret {| error := "private_account"; info := "Private account" |}
  else if bool_decide (statusCode = Some 429) then
    log LError (platformName ++ ": Rate limit exceeded") ;;;
    ret {| error := "rate_limit"; info := "Rate limit exceeded" |}
  else
    log LError (platformName ++ ": Error for user " ++ dq ++ username ++ dq ++ ": "
                ++ errorMessage) ;;;
    ret {| error := "unknown"; info := errorMessage |}.

End ScrapingStrategy.

Module RapidApiStrategy.

Section Request.
Context {A : Type}.
(** [config.scraping.retryAttempts] *)
Variable retryAttempts : Z.
Variable platformName : string.
(** The outcome of the [axios] call made at each attempt. *)
Variable net : Z -> result A.

(** [makeRequest(options, attempt)].  [fuel] bounds the depth of the
    recursion; [makeRequest] below supplies [retryAttempts - attempt],
    which the last branch never exhausts (lemma [rapid_run]). *)
Fixpoint makeRequest_fuel (fuel : nat) (attempt : Z) : M A :=
  emit (Request attempt) ;;;
  match net attempt with
  | Ok data => ret data
  | Throw err =>
      let isLastAttempt := retryAttempts <=? attempt in
      if isLastAttempt then
        log LError (platformName ++ " API request failed after " ++ showZ attempt
                    ++ " attempts: " ++ message err) ;;;
        throw err
      else
        let delay := 2 ^ (attempt - 1) * 1000 in
        log LWarn (platformName ++ " API request failed (attempt " ++ showZ attempt
                   ++ "/" ++ showZ retryAttempts ++ "), retrying in " ++ showZ delay
                   ++ "ms...") ;;;
        emit (Sleep delay) ;;;
        match fuel with
        | S fuel' => makeRequest_fuel fuel' (attempt + 1)
        | O => throw err
        end
  end.

Definition makeRequest (attempt : Z) : M A :=
  makeRequest_fuel (Z.to_nat (retryAttempts - attempt)) attempt.

End Request.

End RapidApiStrategy.

Module MetaApiStrategy.

Definition maxRetries : Z := 3.
Definition baseDelay : Z := 1000.

Definition isRateLimited (err : JsError) : bool :=
  bool_decide (apiCode err = Some 4) || bool_decide (apiCode err = Some 17).
Definition isTokenExpired (err : JsError) : bool := bool_decide (apiCode err = Some 190).
Definition isInvalidParam (err : JsError) : bool := bool_decide (apiCode err = Some 100).
Definition isPermissionError (err : JsError) : bool := bool_decide (apiCode err = Some 10).
Definition isTimeout (err : JsError) : bool := bool_decide (code err = Some "ECONNABORTED").

Section Request.
Context {A : Type}.
Variable platformName : string.
Variable net : Z -> result A.

(** [handleError(error, options, attempt)]; [retry] stands for the
    recursive call [this.makeRequest(options, attempt + 1)]. *)
Definition handleError (retry : Z -> M A) (err : JsError) (attempt : Z) : M A :=
  let errorMessage :=
    match apiMessage err with
    | Some m => if String.eqb m "" then message err else m
    | None => message err
    end in
  log LError (platformName ++ " Meta API error (attempt " ++ showZ attempt ++ "):") ;;;
  if isTokenExpired err then
    throw (mkError (platformName ++ " Meta API: Access token has expired. "
                    ++ "Please generate a new long-lived access token."))
  else if isInvalidParam err then
    throw (mkError (platformName ++ " Meta API: Invalid parameter. "
                    ++ "Message: " ++ errorMessage))
  else if isPermissionError err then
    throw (mkError (platformName ++ " Meta API: Permission error. "
                    ++ "Please ensure your app has the required permissions and capabilities. "
                    ++ "Message: " ++ errorMessage))
  else if (attempt <? maxRetries) && (isRateLimited err || isTimeout err) then
    let delay := baseDelay * 2 ^ (attempt - 1) in
    log LWarn (platformName ++ " Meta API: Retrying after " ++ showZ delay ++ "ms... "
               ++ "(attempt " ++ showZ (attempt + 1) ++ "/" ++ showZ maxRetries ++ ")") ;;;
    emit (Sleep delay) ;;;
    retry (attempt + 1)
  else
    throw (mkError (platformName ++ " Meta API request failed after " ++ showZ attempt
                    ++ " attempts. " ++ "Error: " ++ errorMessage)).

(** [makeRequest(options, attempt)], with the depth of the recursion
    bounded by [fuel]; [makeRequest] supplies [maxRetries - attempt],
    which is never exhausted (lemma [meta_run]). *)
Fixpoint makeRequest_fuel (fuel : nat) (attempt : Z) : M A :=
  log LInfo (platformName ++ " Meta API request (attempt " ++ showZ attempt ++ "/"
             ++ showZ maxRetries ++ ")") ;;;
  emit (Request attempt) ;;;
  match net attempt with
  | Ok data => ret data
  | Throw err =>
      handleError (fun next =>
                     match fuel with
                     | S fuel' => makeRequest_fuel fuel' next
                     | O => throw err
                     end) err attempt
  end.

Definition makeRequest (attempt : Z) : M A :=
  makeRequest_fuel (Z.to_nat (maxRetries - attempt)) attempt.

End Request.

End MetaApiStrategy.

(** [for each x: await f x], collecting the results in order. *)
Fixpoint mapM {A B} (f : A -> M B) (l : list A) : M (list B) :=
  match l with
  | [] => ret []
  | x :: l' => y <- f x ;; ys <- mapM f l' ;; ret (y :: ys)
  end.

Module InstagramMetaStrategy.

Definition platformName : string := "Instagram".

Section Fetch.
(** The Graph API as seen by the strategy: the [data] array of the media
    listing at each attempt, and for each media id the impressions value
    of its insights call at each attempt. *)
Variable mediaNet : Z -> result (option (list obj)).
Variable insightsNet : jsval -> Z -> result jsval.
(** [config.metaApi.instagram.userId] *)
Variable userId : string.

(** [fetchMediaInsights(mediaId)] *)
Definition fetchMediaInsights (mediaId : jsval) : M jsval :=
  try_catch
    (impressions <- MetaApiStrategy.makeRequest platformName (insightsNet mediaId) 1 ;;
     ret (or impressions (VNum (Fin 0))))
    (fun err =>
       log LWarn ("Could not fetch insights for media: " ++ message err) ;;;
       ret (VNum (Fin 0))).

(** [transformPost(media)] *)
Definition transformPost (media : obj) : M obj :=
  views <- fetchMediaInsights (get media "id") ;;
  ret (<[ "postLink" := or (get media "permalink") (VStr "") ]>
       (<[ "postedDate" := or (get media "timestamp") (VStr "") ]>
       (<[ "comments" := or (get media "comments_count") (VNum (Fin 0)) ]>
       (<[ "likes" := or (get media "like_count") (VNum (Fin 0)) ]> ∅)))).

(** [getRecentPosts(username, count = 25)] *)
Definition getRecentPosts (username : string) (count : Z) : M (list obj) :=
  try_catch
    (log LInfo ("Fetching " ++ showZ count
                ++ " Instagram posts via Meta Graph API for user ID: " ++ userId) ;;;
     mediaResponse <- MetaApiStrategy.makeRequest platformName mediaNet 1 ;;
     match mediaResponse with
     | None | Some [] =>
         log LWarn "No Instagram media found for user" ;;;
         ret []
     | Some media =>
         log LInfo ("Fetched " ++ showZ (Z.of_nat (length media))
                    ++ " Instagram media items") ;;;
         posts <- mapM transformPost media ;;
         log LInfo ("Successfully transformed " ++ showZ (Z.of_nat (length posts))
                    ++ " Instagram posts") ;;;
         ret posts
     end)
    (fun err =>
       log LError "Instagram Meta API scraping failed:" ;;;
       throw err).

End Fetch.

End InstagramMetaStrategy.

Module WebScraperStrategy.

(** The browser as seen by one fetch: whether [this.page] is already set,
    and how [browserManager.createPage], [page.goto] and [page.close] end. *)
Record Browser : Type := {
  hasPage : bool;
  createPage : result unit;
  goto : result unit;
  connected : bool;
  closePage : result unit;
}.

Section Web.
Variable platformName : string.
Variable br : Browser.

(** [initialize()] *)
Definition initialize : M unit :=
  try_catch
    (log LDebug ("Initializing web scraper for " ++ platformName ++ "...") ;;;
     lift (createPage br) ;;;
     log LDebug ("Web scraper initialized for " ++ platformName))
    (fun err =>
       log LError ("Failed to initialize web scraper for " ++ platformName ++ ": "
                   ++ message err) ;;;
       throw err).

(** [navigateTo(url)]; [page] tells whether [this.page] is set on entry. *)
Definition navigateTo (page : bool) (url : string) : M unit :=
  (if page then ret tt else initialize) ;;;
  try_catch
    (log LDebug ("Navigating to " ++ url ++ "...") ;;;
     lift (goto br))
    (fun err =>
       log LError ("Failed to navigate to " ++ url ++ ": " ++ message err) ;;;
       throw err).

(** [cleanup()]; [page] tells whether [this.page] is set on entry. *)
Definition cleanup (page : bool) : M unit :=
  if page then
    try_catch
      ((if connected br then lift (closePage br) else ret tt) ;;;
       log LDebug ("Web scraper cleaned up for " ++ platformName))
      (fun err =>
         if negb (includes (message err) "Target closed")
            && negb (includes (message err) "No target with given id")
         then log LWarn ("Error cleaning up web scraper: " ++ message err)
         else ret tt)
  else ret tt.

(** [handleError(error, username)] *)
Definition handleError (err : JsError) (username : string)
  : M ScrapingStrategy.errorInfo :=
  if includes (message err) "timeout" || includes (message err) "Navigation timeout" then
    log LError (platformName ++ ": Navigation timeout for user " ++ dq ++ username ++ dq) ;;;
    ret {| ScrapingStrategy.error := "timeout";
           ScrapingStrategy.info := "Navigation timeout" |}
  else if includes (message err) "net::ERR_PROXY" then
    log LError (platformName ++ ": Proxy connection failed") ;;;
    ret {| ScrapingStrategy.error := "proxy_error";
           ScrapingStrategy.info := "Proxy connection failed" |}
  else if includes (message err) "ERR_NAME_NOT_RESOLVED" then
    log LError (platformName ++ ": Domain not resolved (possible network issue)") ;;;
    ret {| ScrapingStrategy.error := "network_error";
           ScrapingStrategy.info := "Network error" |}
  else ScrapingStrategy.handleError platformName err username.

End Web.

End WebScraperStrategy.

Module TikTokWebStrategy.

Import WebScraperStrategy.

Definition platformName : string := "TikTok".

Section Fetch.
Variable br : Browser.
(** What [waitForPosts()] and [extractPosts()] return; both catch their
    own errors.  [waitForPageLoad()] catches its errors too and returns
    nothing; its log lines are not modelled. *)
Variable postsFound : bool.
Variable extracted : list obj.

(** [getRecentPosts(username, count = 10)] *)
Definition getRecentPosts (username : string) (count : Z) : M (list obj) :=
  let pageAfterInit :=
    hasPage br || match createPage br with Ok _ => true | Throw _ => false end in
  finally
    (try_catch
       (let cleanUsername := removeAt username in
        log LInfo ("[Web Scraping] Fetching " ++ showZ count
                   ++ " posts for TikTok user: " ++ cleanUsername) ;;;
        (if hasPage br then ret tt else initialize platformName br) ;;;
        let profileUrl := ("https://www.tiktok.com/@" ++ cleanUsername)%string in
        navigateTo platformName br true profileUrl ;;;
        if negb postsFound then
          log LWarn ("Could not find posts for " ++ cleanUsername
                     ++ ", user may not exist, have no posts, or page structure changed") ;;;
          ret []
        else
          let posts := extracted in
          log LInfo ("[Web Scraping] Successfully fetched "
                     ++ showZ (Z.of_nat (length posts))
                     ++ " posts for TikTok user: " ++ cleanUsername) ;;;
          ret posts)
       (fun err =>
          errorInfo <- handleError platformName err username ;;
          log LError ("[Web Scraping] Failed to fetch TikTok posts for " ++ username
                      ++ ": " ++ ScrapingStrategy.info errorInfo) ;;;
          ret []))
    (cleanup platformName br pageAfterInit).

End Fetch.

End TikTokWebStrategy.

Module BaseScraper.

(** A strategy object as [BaseScraper] uses it: [initialize], when it is a
    function, and [getRecentPosts], whose result may be [undefined]. *)
Record Strategy : Type := {
  initialize : option (M unit);
  strategyPosts : string -> Z -> M (option (list obj));
}.

(** [getRecentPosts(username, count)]; [strategy = None] is a scraper
    built without a strategy. *)
Definition getRecentPosts (platformName : string) (strategy : option Strategy)
           (username : string) (count : Z) : M (list obj) :=
  match strategy with
  | None => throw (mkError "No scraping strategy configured")
  | Some st =>
      try_catch
        (match initialize st with
         | Some init => init
         | None => ret tt
         end ;;;
         posts <- strategyPosts st username count ;;
         ret (default [] posts))
        (fun err =>
           log LError (platformName ++ ": Error getting posts for " ++ username ++ ": "
                       ++ message err) ;;;
           ret [])
  end.

(** [extractNumber(value)], the scraper's own copy. *)
Definition extractNumber (value : jsval) : jsnum :=
  match value with
  | VNum n => n
  | VStr s =>
      let lowerValue := trim (toLowerCase s) in
      if endsWith lowerValue "k" then
        Math_round (mul64 (parseFloat lowerValue) (of_Z 1000))
      else if endsWith lowerValue "m" then
        Math_round (mul64 (parseFloat lowerValue) (of_Z 1000000))
      else if endsWith lowerValue "b" then
        Math_round (mul64 (parseFloat lowerValue) (of_Z 1000000000))
      else
        let parsed := parseFloat (remove_commas lowerValue) in
        if isNaN parsed then Fin 0 else parsed
  | _ => Fin 0
  end.

End BaseScraper.

(** ** jobs/scrapingJob.js *)

Module ScrapingJob.

Import DataProcessor.

(** A tracked identity, as the reader delivers it. *)
Record influencer : Type := { username : jsval; platform : jsval }.

Inductive scraperId : Type := TikTokScraper | InstagramScraper.

(** [config.scraping.postsToFetch] *)
Definition postsToFetch : Z := 10.

(** [a === b] on primitives. *)
Definition strict_eq (a b : jsval) : bool :=
  match a, b with
  | VUndef, VUndef | VNull, VNull => true
  | VBool x, VBool y => Bool.eqb x y
  | VStr x, VStr y => String.eqb x y
  | VNum (Fin x), VNum (Fin y) => Qeq_bool x y
  | VNum PInf, VNum PInf | VNum NInf, VNum NInf => true
  | _, _ => false
  end.

(** [getScraperForPlatform(platform)].  Calling [toLowerCase] on a value
    that is not a string raises a [TypeError], whose text is the engine's. *)
Definition getScraperForPlatform (platform : jsval) : result scraperId :=
  match platform with
  | VStr p =>
      let normalizedPlatform := trim (toLowerCase p) in
      if String.eqb normalizedPlatform "tiktok" || String.eqb normalizedPlatform "tik tok"
      then Ok TikTokScraper
      else if String.eqb normalizedPlatform "instagram" || String.eqb normalizedPlatform "ig"
      then Ok InstagramScraper
      else Throw (mkError ("Unsupported platform: " ++ p))
  | VUndef =>
      Throw (mkError "Cannot read properties of undefined (reading 'toLowerCase')")
  | VNull =>
      Throw (mkError "Cannot read properties of null (reading 'toLowerCase')")
  | _ => Throw (mkError "platform.toLowerCase is not a function")
  end.

(** The object [processInfluencer] resolves to.  A property the object
    literal leaves out reads as [None] ([error], [averageViews]) or as the
    empty list ([toAppend], [toUpdate], which [run] reads through
    [|| []]); [averageViews = Some None] is an explicit [null]. *)
Record outcome : Type := {
  o_username : jsval;
  o_platform : jsval;
  success : bool;
  o_error : option string;
  averageViews : option (option jsnum);
  postsCount : Z;
  o_toAppend : list obj;
  o_toUpdate : list obj;
}.

Definition failed (u p : jsval) (msg : string) : outcome :=
  {| o_username := u; o_platform := p; success := false; o_error := Some msg;
     averageViews := None; postsCount := 0; o_toAppend := []; o_toUpdate := [] |}.

Definition andThen {A B} (r : result A) (k : A -> result B) : result B :=
  match r with
  | Ok a => k a
  | Throw e => Throw e
  end.

Section Job.
Context `{Engine}.

(** [posts.map(post => normalizePost(post, username, platform))];
    [clock i] is the time read while normalizing the post at index [i]. *)
Definition normalizePosts (clock : nat -> string) (posts : list obj)
           (u p : jsval) : list obj :=
  imap (fun i post => normalizePost (clock i) post u p) posts.

(** [processInfluencer(influencer, existingPosts)].  [getRecentPosts]
    is how the scraper's call for this identity ends.  Log lines are not
    modelled. *)
Definition processInfluencer
           (getRecentPosts : scraperId -> jsval -> Z -> result (option (list obj)))
           (clock : nat -> string)
           (inf : influencer) (existingPosts : list obj) : outcome :=
  let u := username inf in
  let p := platform inf in
  let attempt : result outcome :=
    andThen (getScraperForPlatform p) (fun scraper =>
    andThen (getRecentPosts scraper u postsToFetch) (fun posts =>
    match posts with
    | None | Some [] => Ok (failed u p "No posts found")
    | Some posts =>
        let normalizedPosts := normalizePosts clock posts u p in
        let recentPosts := filterLast10Posts normalizedPosts (Some 10) in
        let avg := calculateAverageViews recentPosts in
        let userExistingPosts :=
          List.filter (fun q => strict_eq (get q "username") u) existingPosts in
        let d := deduplicatePosts userExistingPosts normalizedPosts in
        Ok {| o_username := u; o_platform := p; success := true; o_error := None;
              averageViews := Some avg;
              postsCount := Z.of_nat (length posts);
              o_toAppend := toAppend d; o_toUpdate := toUpdate d |}
    end)) in
  match attempt with
  | Ok r => r
  | Throw err => failed u p (message err)
  end.

(** The storage collaborators. *)
Record Reader : Type := {
  readInfluencers : result (list influencer);
  readExistingPosts : result (list obj);
}.

Record avgUpdate : Type := {
  u_username : jsval;
  u_platform : jsval;
  u_averageViews : option (option jsnum);
}.

Record Writer : Type := {
  updateAverageViews : list avgUpdate -> result unit;
  appendPosts : list obj -> result unit;
  updateExistingPosts : list obj -> result unit;
}.

Record failure : Type := {
  f_username : jsval;
  f_platform : jsval;
  f_error : option string;
}.

Record summary : Type := {
  totalInfluencers : Z;
  successCount : Z;
  failureCount : Z;
  totalPosts : Z;
  newPosts : Z;
  updatedPosts : Z;
  duration : string;
  errors : list failure;
}.

Definition when (b : bool) (c : result unit) : result unit :=
  if b then c else Ok tt.

Definition nonEmpty {A} (l : list A) : bool :=
  match l with [] => false | _ => true end.

(** The results [Promise.all] collects: one per influencer, in input
    order.  [fetchAt i] and [clockAt i] are the scraper outcome and the
    clock for the influencer at index [i]; the limiter only schedules
    the calls. *)
Definition processAll
           (fetchAt : nat -> scraperId -> jsval -> Z -> result (option (list obj)))
           (clockAt : nat -> nat -> string)
           (influencers : list influencer) (existingPosts : list obj) : list outcome :=
  imap (fun i inf => processInfluencer (fetchAt i) (clockAt i) inf existingPosts)
       influencers.

(** [run()].  [elapsed] is the formatted duration.  Of the log lines only
    the high-failure alert is kept.  The failure rate is a quotient of
    array lengths; it is computed with the exact operators, and with
    lengths below 2^32 the binary64 ones decide the alert in the same
    way. *)
Definition run (reader : Reader) (writer : Writer)
           (fetchAt : nat -> scraperId -> jsval -> Z -> result (option (list obj)))
           (clockAt : nat -> nat -> string) (elapsed : string) : M summary :=
  influencers <- lift (readInfluencers reader) ;;
  existingPosts <- lift (readExistingPosts reader) ;;
  match influencers with
  | [] => throw (mkError "No influencers found in data file")
  | _ =>
      let results := processAll fetchAt clockAt influencers existingPosts in
      let successfulResults := List.filter success results in
      let failedResults := List.filter (fun r => negb (success r)) results in
      let averageViewsUpdates :=
        List.map (fun r => {| u_username := o_username r; u_platform := o_platform r;
                              u_averageViews := averageViews r |}) successfulResults in
      let allPostsToAppend := List.flat_map o_toAppend successfulResults in
      let allPostsToUpdate := List.flat_map o_toUpdate successfulResults in
      lift (when (nonEmpty averageViewsUpdates)
                 (updateAverageViews writer averageViewsUpdates)) ;;;
      lift (when (nonEmpty allPostsToAppend) (appendPosts writer allPostsToAppend)) ;;;
      lift (when (nonEmpty allPostsToUpdate)
                 (updateExistingPosts writer allPostsToUpdate)) ;;;
      let total := fold_left (fun sum r => sum + postsCount r) successfulResults 0 in
      let s :=
        {| totalInfluencers := Z.of_nat (length influencers);
           successCount := Z.of_nat (length successfulResults);
           failureCount := Z.of_nat (length failedResults);
           totalPosts := total;
           newPosts := Z.of_nat (length allPostsToAppend);
           updatedPosts := Z.of_nat (length allPostsToUpdate);
           duration := (elapsed ++ "s")%string;
           errors := List.map (fun r => {| f_username := o_username r;
                                          f_platform := o_platform r;
                                          f_error := o_error r |}) failedResults |} in
      let failureRate :=
        mul (div (of_Z (Z.of_nat (length failedResults)))
                 (of_Z (Z.of_nat (length influencers)))) (of_Z 100) in
      (if gt0 (sub failureRate (of_Z 50))
       then log LError "HIGH FAILURE RATE" else ret tt) ;;;
      ret s
  end.

End Job.

End ScrapingJob.

(** ** The specification's wording of the average *)

Module Spec.

(** A views value is numeric when it is a number other than NaN or a string
    that spells a numeric literal; anything else, an absent value included,
    is missing or non-numeric. *)
Definition numeric (v : jsval) : option jsnum :=
  match v with
  | VNum NaN => None
  | VNum n => Some n
  | VStr s =>
      match trim_chars (chars s) with
      | [] => None
      | _ => match string_to_number s with
             | NaN => None
             | n => Some n
             end
      end
  | _ => None
  end.

(** The entries that count: numeric and not negative. *)
Definition validViews (v : jsval) : option jsnum :=
  match numeric v with
  | Some n => if ge0 n then Some n else None
  | None => None
  end.

Definition total (l : list jsnum) : jsnum := fold_left add l (Fin 0).

(** [computeAverage]: the rounded mean of the valid entries, [null] when
    there is none. *)
Definition computeAverage_spec (posts : list obj) : option jsnum :=
  match omap (fun post => validViews (get post "views")) posts with
  | [] => None
  | vs => Some (Math_round (div (total vs) (of_Z (Z.of_nat (length vs)))))
  end.

End Spec.

(** ** A reference engine for the examples *)

Module RefEngine.

(** Days from 1970-01-01 to a date of the proleptic Gregorian calendar. *)
Definition days_from_civil (y m d : Z) : Z :=
  let y' := if m <=? 2 then y - 1 else y in
  let era := y' / 400 in
  let yoe := y' - era * 400 in
  let mp := (m + 9) mod 12 in
  let doy := (153 * mp + 2) / 5 + d - 1 in
  let doe := yoe * 365 + yoe / 4 - yoe / 100 + doy in
  era * 146097 + doe - 719468.

Definition is_leap (y : Z) : bool :=
  ((y mod 4 =? 0) && negb (y mod 100 =? 0)) || (y mod 400 =? 0).

Definition days_in_month (y m : Z) : Z :=
  if m =? 2 then (if is_leap y then 29 else 28)
  else if (m =? 4) || (m =? 6) || (m =? 9) || (m =? 11) then 30
  else 31.

(** A run of exactly [n] decimal digits. *)
Fixpoint digits (n : nat) (cs : list ascii) (acc : Z) : option (Z * list ascii) :=
  match n with
  | O => Some (acc, cs)
  | S n' =>
      match cs with
      | c :: r =>
          match digit_of 10 c with
          | Some d => digits n' r (10 * acc + d)
          | None => None
          end
      | [] => None
      end
  end.

Definition expect (c : ascii) (cs : list ascii) : option (list ascii) :=
  match cs with
  | d :: r => if Ascii.eqb c d then Some r else None
  | [] => None
  end.

(** The time of day [THH:mm:ss.sssZ], in milliseconds. *)
Definition parse_time (cs : list ascii) : option Z :=
  r0 ← expect "T" cs;
  '(h, r1) ← digits 2 r0 0;
  r2 ← expect ":" r1;
  '(mi, r3) ← digits 2 r2 0;
  r4 ← expect ":" r3;
  '(s, r5) ← digits 2 r4 0;
  r6 ← expect "." r5;
  '(ms, r7) ← digits 3 r6 0;
  r8 ← expect "Z" r7;
  match r8 with
  | [] =>
      if (h <? 24) && (mi <? 60) && (s <? 60)
      then Some (((h * 60 + mi) * 60 + s) * 1000 + ms)
      else None
  | _ => None
  end.

(** [Date.parse] on the two ISO 8601 forms the program produces and reads,
    [YYYY-MM-DD] and [YYYY-MM-DDTHH:mm:ss.sssZ]; every other string is an
    invalid date. *)
Definition parse_iso (s : string) : option Z :=
  '(y, r1) ← digits 4 (chars s) 0;
  r2 ← expect "-" r1;
  '(m, r3) ← digits 2 r2 0;
  r4 ← expect "-" r3;
  '(d, r5) ← digits 2 r4 0;
  if (1 <=? m) && (m <=? 12) && (1 <=? d) && (d <=? days_in_month y m) then
    let day := days_from_civil y m d * 86400000 in
    match r5 with
    | [] => Some day
    | _ => t ← parse_time r5; Some (day + t)
    end
  else None.

(** The fractional digits of [num / den], at most [fuel] of them. *)
Fixpoint frac_digits (fuel : nat) (num den : Z) : string :=
  match fuel with
  | O => ""
  | S fuel' =>
      if num =? 0 then ""
      else
        let digit : string := pretty (10 * num / den) in
        (digit ++ frac_digits fuel' (10 * num mod den) den)%string
  end.

(** [Number.prototype.toString]: exact on integers, on decimals of up to
    sixteen fractional digits and on the non-finite values. *)
Definition number_to_string (n : jsnum) : string :=
  match n with
  | NaN => "NaN"
  | PInf => "Infinity"
  | NInf => "-Infinity"
  | Fin q =>
      let q' := Qred q in
      let a := Z.abs (Qnum q') in
      let d := Z.pos (Qden q') in
      let sign : string := if Qnum q' <? 0 then "-" else "" in
      let whole : string := pretty (a / d) in
      let fraction : string :=
        if a mod d =? 0 then "" else ("." ++ frac_digits 16 (a mod d) d)%string in
      (sign ++ whole ++ fraction)%string
  end.

Definition engine : Engine :=
  {| Number_toString := number_to_string; Date_parse := parse_iso |}.

End RefEngine.

(** * Vocabulary of the statements *)


Import DataProcessor.


(** An object literal. *)
Definition object (fields : list (string * jsval)) : obj := list_to_map fields.

(** The test of the [filter] callback in [calculateAverageViews]. *)
Definition passes (v : jsval) : bool :=
  negb (isNaN (Number v)) && ge0 (Number v).

Definition viewsOf (post : obj) : jsval := get post "views".

(** Views values on which coercion plays no part: [undefined], numbers, and
    strings that are not blank. *)
Definition plain (v : jsval) : Prop :=
  match v with
  | VUndef | VNum _ => True
  | VStr s => trim_chars (chars s) <> []
  | VNull | VBool _ => False
  end.

Definition Qsum (qs : list Q) : Q := fold_right Qplus 0%Q qs.

Definition Zsum (l : list Z) : Z := fold_right Z.add 0 l.

(** Posts used in the examples. *)
Definition post100 : obj := object [("views", VNum (of_Z 100))].
Definition post201 : obj := object [("views", VStr "201")].
Definition postBad : obj := object [("views", VStr "bad")].
Definition postNullViews : obj := object [("views", VNull)].

Definition viewsText (s : string) : obj := object [("views", VStr s)].

Section DedupVocabulary.
Context `{Engine}.

(** The post has a resolvable link: [postLink] is a non-empty string after
    [toString()] and [trim()]. *)
Definition hasLink (p : obj) : bool := negb (noLink (postLinkOf p)).

(** The links of the existing posts, as the [Set] of [deduplicatePosts]
    holds them. *)
Definition existingKeys (existing : list obj) : list (option string) :=
  List.map postLinkOf existing.

Definition isKnown (existing : list obj) (p : obj) : bool :=
  bool_decide (postLinkOf p ∈ existingKeys existing).

(** The resolvable links of a list of posts. *)
Definition linkKeys (l : list obj) : list (option string) :=
  List.map postLinkOf (List.filter hasLink l).

(** The existing posts that no post of [toUpdate] replaces. *)
Definition untouched (existing : list obj) (d : dedup) : list obj :=
  List.filter (fun e => negb (bool_decide (postLinkOf e ∈ linkKeys (toUpdate d))))
              existing.
End DedupVocabulary.

Definition linkA : obj := object [("postLink", VStr "A"); ("views", VNum (of_Z 100))].
Definition linkA' : obj := object [("postLink", VStr " A "); ("views", VNum (of_Z 150))].
Definition linkB : obj := object [("postLink", VStr "B"); ("views", VNum (of_Z 200))].
Definition noLinkPost : obj := object [("likes", VNum (of_Z 3))].

Section RecencyVocabulary.
Context `{Engine}.

(** The time value of a post's [postedDate]; [None] when the date is
    missing or does not parse. *)
Definition timeOf (p : obj) : option Z := Date_new (get p "postedDate").

Definition dated (p : obj) : Prop := is_Some (timeOf p).

Definition stamp (p : obj) : Z := default 0 (timeOf p).

(** [a] is at least as recent as [b]. *)
Definition notOlder (a b : obj) : Prop := stamp b <= stamp a.
End RecencyVocabulary.

Definition undatedPost : obj := object [("postLink", VStr "U")].
Definition garbledPost : obj := object [("postLink", VStr "G"); ("postedDate", VStr "yesterday")].
Definition postJan : obj :=
  object [("postLink", VStr "J"); ("postedDate", VStr "2024-01-15T10:30:00.000Z")].
Definition postFeb : obj :=
  object [("postLink", VStr "F"); ("postedDate", VStr "2024-02-29")].
Definition postMar : obj :=
  object [("postLink", VStr "M"); ("postedDate", VNum (of_Z 1710000000000))].

Import ScrapingJob.

(** Processing the identity raises an error with message [msg]: either no
    scraper serves its platform, or the scraper's call throws. *)
Definition raises (getRecentPosts : scraperId -> jsval -> Z -> result (option (list obj)))
           (inf : influencer) (msg : string) : Prop :=
  (exists e, getScraperForPlatform (platform inf) = Throw e /\ message e = msg) \/
  (exists sc e, getScraperForPlatform (platform inf) = Ok sc /\
                getRecentPosts sc (username inf) postsToFetch = Throw e /\
                message e = msg).

(** The six properties of a normalized post. *)
Definition normalizedKeys : gset string :=
  {[ "username"; "platform"; "postLink"; "postedDate"; "comments"; "likes" ]}.

(** A post as the TikTok extractor delivers it. *)
Definition tiktokRaw : obj :=
  object [("postLink", VStr "https://www.tiktok.com/@bob/video/1");
          ("postedDate", VStr "2024-01-15T10:30:00.000Z");
          ("views", VNum (of_Z 1200)); ("likes", VNum (of_Z 30));
          ("share", VNum (of_Z 4))].

Definition bob : influencer := {| username := VStr "bob"; platform := VStr "tiktok" |}.
Definition eve : influencer := {| username := VStr "eve"; platform := VStr "instagram" |}.
Definition mallory : influencer := {| username := VStr "mallory"; platform := VStr "vine" |}.

Definition fixedClock : nat -> string := fun _ => "2024-03-01T00:00:00.000Z".

(** Fetch outcomes for the examples: TikTok delivers one post, Instagram
    throws. *)
Definition fetchExample : scraperId -> jsval -> Z -> result (option (list obj)) :=
  fun sc _ _ =>
    match sc with
    | TikTokScraper => Ok (Some [tiktokRaw])
    | InstagramScraper => Throw (mkError "No scraping strategy configured")
    end.

Definition readerExample : Reader :=
  {| readInfluencers := Ok [bob; eve; mallory]; readExistingPosts := Ok [] |}.

Definition writerExample : Writer :=
  {| updateAverageViews := fun _ => Ok tt;
     appendPosts := fun _ => Ok tt;
     updateExistingPosts := fun _ => Ok tt |}.

(** The attempt numbers [1, ..., k]. *)
Definition attempts (k : nat) : list Z := List.map (fun i => 1 + Z.of_nat i) (seq 0 k).

(** The waits before attempts [2, ..., n + 1]: 1000, 2000, 4000, ... *)
Definition backoff (n : nat) : list Z := List.map (fun i => 1000 * 2 ^ Z.of_nat i) (seq 0 n).

(** The failures [MetaApiStrategy.handleError] answers with another attempt
    while attempts remain. *)
Definition retryable (err : JsError) : bool :=
  negb (MetaApiStrategy.isTokenExpired err)
  && negb (MetaApiStrategy.isInvalidParam err)
  && negb (MetaApiStrategy.isPermissionError err)
  && (MetaApiStrategy.isRateLimited err || MetaApiStrategy.isTimeout err).

(** The specification's two classes of failures. *)
Definition transient (err : JsError) : bool :=
  bool_decide (code err = Some "ECONNABORTED")
  || bool_decide (status err = Some 429)
  || match status err with
     | Some s => (500 <=? s) && (s <=? 599)
     | None => false
     end
  || MetaApiStrategy.isRateLimited err.

Definition terminal (err : JsError) : bool :=
  bool_decide (status err = Some 404)
  || bool_decide (status err = Some 401)
  || bool_decide (status err = Some 403)
  || MetaApiStrategy.isTokenExpired err
  || MetaApiStrategy.isPermissionError err.

(** Failures as [axios] reports them. *)
Definition httpError (st : Z) : JsError :=
  {| message := "Request failed with status code " ++ showZ st;
     status := Some st; code := None; apiCode := None;
     apiMessage := None; dataMessage := None |}.

Definition graphError (st c : Z) (msg : string) : JsError :=
  {| message := "Request failed with status code " ++ showZ st;
     status := Some st; code := None; apiCode := Some c;
     apiMessage := Some msg; dataMessage := None |}.

Definition timeoutError : JsError :=
  {| message := "timeout of 30000ms exceeded";
     status := None; code := Some "ECONNABORTED"; apiCode := None;
     apiMessage := None; dataMessage := None |}.

(** A request that times out once and then succeeds. *)
Definition flakyNet : Z -> result unit :=
  fun attempt => if attempt <? 2 then Throw timeoutError else Ok tt.

(** The strategy's [initialize] or its [getRecentPosts] throws [e]. *)
Definition strategyThrows (st : BaseScraper.Strategy) (username : string) (count : Z)
           (e : JsError) : Prop :=
  (exists init, BaseScraper.initialize st = Some init /\ Eff.outcome init = Throw e) \/
  ((forall init, BaseScraper.initialize st = Some init -> Eff.outcome init = Ok tt) /\
   Eff.outcome (BaseScraper.strategyPosts st username count) = Throw e).

(** Opening the page or loading the profile fails with [e]. *)
Definition pageFails (br : WebScraperStrategy.Browser) (e : JsError) : Prop :=
  (WebScraperStrategy.hasPage br = false /\ WebScraperStrategy.createPage br = Throw e) \/
  ((WebScraperStrategy.hasPage br = true \/ WebScraperStrategy.createPage br = Ok tt) /\
   WebScraperStrategy.goto br = Throw e).

(** [InstagramMetaStrategy] as the strategy of a [BaseScraper]: its
    [initialize] is the inherited one, which does nothing. *)
Definition metaStrategy (mediaNet : Z -> result (option (list obj)))
           (insightsNet : jsval -> Z -> result jsval) (userId : string)
  : BaseScraper.Strategy :=
  {| BaseScraper.initialize := Some (ret tt);
     BaseScraper.strategyPosts := fun username count =>
       posts <- InstagramMetaStrategy.getRecentPosts mediaNet insightsNet userId
                                                     username count ;;
       ret (Some posts) |}.


(** A Graph API that answers every call with a rate-limit error. *)
Definition limitedNet : Z -> result (option (list obj)) :=
  fun _ => Throw (graphError 400 4 "Application request limit reached").

(** Decimal digits and the integer a run of them spells. *)
Definition isDigit (c : ascii) : bool :=
  let n := nat_of_ascii c in ((48 <=? n) && (n <=? 57))%nat.

Definition digitsValue (ds : list ascii) : Z :=
  fold_left (fun acc c => 10 * acc + (Z.of_nat (nat_of_ascii c) - 48)) ds 0.

(** The factor a count suffix stands for. *)
Definition multiplier (c : ascii) : option Z :=
  if Ascii.eqb c "k"%char || Ascii.eqb c "K"%char then Some 1000
  else if Ascii.eqb c "m"%char || Ascii.eqb c "M"%char then Some 1000000
  else if Ascii.eqb c "b"%char || Ascii.eqb c "B"%char then Some 1000000000
  else None.

(** The fraction of a printed count: nothing, or a point and digits. *)
Definition fractionText (fp : list ascii) : list ascii :=
  match fp with
  | [] => []
  | _ => "."%char :: fp
  end.

(** A count as the platforms print it: an integer part, an optional
    fraction, and a suffix. *)
Definition countText (ip fp : list ascii) (sfx : ascii) : string :=
  str (ip ++ fractionText fp ++ [sfx]).

(** The number the digits [ip.fp] spell. *)
Definition decimalValue (ip fp : list ascii) : Q :=
  (inject_Z (digitsValue ip * 10 ^ Z.of_nat (length fp) + digitsValue fp)
   / inject_Z (10 ^ Z.of_nat (length fp)))%Q.

(** * Further code of the repository *)

(** ** services/browser/proxyConfig.js and the proxy set-up of the clients *)

Module ProxyConfig.

(** [config.webScraping.proxy] *)
Record ProxySettings : Type := {
  enabled : bool;
  host : string;
  port : Z;
  username : string;
  password : string;
}.

(** The object [formatProxyArgs] returns. *)
Record ProxyArgs : Type := {
  proxyServer : string;
  proxyUrl : string;
  args : list string;
}.

Definition nonEmpty (s : string) : bool := negb (String.eqb s "").

Definition hostPort (s : ProxySettings) : string := host s ++ ":" ++ showZ (port s).

(** [formatProxyArgs(proxySettings)]; [None] is [null]. *)
Definition formatProxyArgs (s : ProxySettings) : M (option ProxyArgs) :=
  if negb (enabled s) || negb (nonEmpty (host s)) then
    log LInfo "Proxy not enabled or host not specified" ;;;
    ret None
  else
    try_catch
      ((if negb (nonEmpty (host s))
        then throw (mkError "Proxy host is required when proxy is enabled")
        else ret tt) ;;;
       url <- (if nonEmpty (username s) && nonEmpty (password s) then
                 log LInfo ("Proxy configured with authentication: " ++ hostPort s) ;;;
                 ret ("http://" ++ username s ++ ":" ++ password s ++ "@" ++ hostPort s)%string
               else
                 log LInfo ("Proxy configured without authentication: " ++ hostPort s) ;;;
                 ret ("http://" ++ hostPort s)%string) ;;
       ret (Some {| proxyServer := hostPort s;
                    proxyUrl := url;
                    args := [("--proxy-server=" ++ hostPort s)%string] |}))
      (fun err =>
         log LError ("Failed to configure proxy: " ++ message err) ;;;
         ret None).

(** [validate(proxySettings)] *)
Definition validate (s : ProxySettings) : M bool :=
  if negb (enabled s) then ret true
  else if negb (nonEmpty (host s)) then
    log LError "Proxy enabled but host not specified" ;;;
    ret false
  else if (port s =? 0) || (port s <? 1) || (65535 <? port s) then
    log LError "Invalid proxy port" ;;;
    ret false
  else ret true.

(** [getAuthCredentials(proxySettings)]: the pair of [username] and
    [password], or [None] for [null]. *)
Definition getAuthCredentials (s : ProxySettings) : option (string * string) :=
  if negb (enabled s) || negb (nonEmpty (username s)) || negb (nonEmpty (password s))
  then None
  else Some (username s, password s).

End ProxyConfig.

Module RapidApiProxy.

Import ProxyConfig.

(** The [axios] proxy object. *)
Record AxiosProxy : Type := {
  protocol : string;
  proxyHost : string;
  proxyPort : Z;
  auth : option (string * string);
}.

(** [RapidApiStrategy.getProxyConfig()], on [config.webScraping.proxy]. *)
Definition getProxyConfig (proxy : ProxySettings) : option AxiosProxy :=
  if negb (enabled proxy) || negb (nonEmpty (host proxy)) then None
  else Some {| protocol := "http";
               proxyHost := host proxy;
               proxyPort := port proxy;
               auth := if nonEmpty (username proxy) && nonEmpty (password proxy)
                       then Some (username proxy, password proxy)
                       else None |}.

End RapidApiProxy.

(** ** services/browser/browserManager.js *)

Module BrowserManager.

Import ProxyConfig.

(** [config.webScraping.browser], as far as the launch options use it. *)
Record BrowserConfig : Type := {
  headless : bool;
  viewportWidth : Z;
  viewportHeight : Z;
}.

Record LaunchOptions : Type := {
  o_headless : bool;
  o_args : list string;
  o_defaultViewport : Z * Z;
  o_ignoreHTTPSErrors : bool;
}.

(** [buildLaunchOptions()] *)
Definition buildLaunchOptions (browserConfig : BrowserConfig) (proxyConfig : ProxySettings)
  : M LaunchOptions :=
  let args :=
    [ "--no-sandbox"; "--disable-setuid-sandbox"; "--disable-dev-shm-usage";
      "--disable-accelerated-2d-canvas"; "--disable-gpu";
      ("--window-size=" ++ showZ (viewportWidth browserConfig) ++ ","
                        ++ showZ (viewportHeight browserConfig))%string ] in
  args' <- (if enabled proxyConfig && nonEmpty (host proxyConfig) then
              proxyArgs <- formatProxyArgs proxyConfig ;;
              match proxyArgs with
              | Some pa =>
                  log LInfo ("Proxy enabled for browser: " ++ hostPort proxyConfig) ;;;
                  ret (args ++ ProxyConfig.args pa)
              | None => ret args
              end
            else
              log LDebug "Proxy not enabled for browser - running without proxy" ;;;
              ret args) ;;
  ret {| o_headless := headless browserConfig;
         o_args := args';
         o_defaultViewport := (viewportWidth browserConfig, viewportHeight browserConfig);
         o_ignoreHTTPSErrors := true |}.

(** The credentials [createPage()] hands to [page.authenticate], if any. *)
Definition pageCredentials (proxyConfig : ProxySettings) : option (string * string) :=
  if enabled proxyConfig && nonEmpty (host proxyConfig)
  then getAuthCredentials proxyConfig
  else None.

(** [getRandomDelay()]; [random] is the value of [Math.random()], [min]
    and [max] are [config.webScraping.delays].  The product is taken
    exactly. *)
Definition getRandomDelay (min max : Z) (random : Q) : Z :=
  Qfloor (random * inject_Z (max - min + 1)) + min.

End BrowserManager.

(** ** services/scrapers/strategies/scraperStrategyFactory.js *)

Module ScraperStrategyFactory.

(** The strategy classes the factory instantiates. *)
Inductive strategy : Type :=
| TikTokWebStrategy
| InstagramWebStrategy
| InstagramMetaStrategy
| InstagramRapidApiStrategy.

Definition newline : string := String (ascii_of_nat 10) EmptyString.

(** [create(platform, method)] *)
Definition create (platform method : string) : M strategy :=
  let platformLower := toLowerCase platform in
  let methodLower := toLowerCase method in
  log LDebug ("Creating " ++ methodLower ++ " strategy for " ++ platformLower) ;;;
  if String.eqb platformLower "tiktok" then
    if String.eqb methodLower "web" then ret TikTokWebStrategy
    else throw (mkError ("TikTok only supports web scraping. "
                         ++ "Please set TIKTOK_SCRAPING_METHOD=web" ++ newline
                         ++ "Current method: " ++ method))
  else if String.eqb platformLower "instagram" then
    if String.eqb methodLower "web" then ret InstagramWebStrategy
    else if String.eqb methodLower "meta" then ret InstagramMetaStrategy
    else if String.eqb methodLower "rapidapi" then ret InstagramRapidApiStrategy
    else throw (mkError ("Unknown Instagram scraping method: " ++ method))
  else throw (mkError ("Unknown platform: " ++ platform)).

End ScraperStrategyFactory.

(** ** services/fileIO/csvWriter.js *)

Module CsvWriter.

Import ScrapingJob.

(** The value of an [averageViews] property. *)
Definition averageValue (a : option (option jsnum)) : jsval :=
  match a with
  | None => VUndef
  | Some None => VNull
  | Some (Some n) => VNum n
  end.

(** [SameValueZero], the equality of [Map] keys. *)
Definition sameValueZero (a b : jsval) : bool :=
  match a, b with
  | VNum NaN, VNum NaN => true
  | _, _ => strict_eq a b
  end.

(** A [Map] with arbitrary keys, in insertion order. *)
Fixpoint mapSet {V} (k : jsval) (v : V) (m : list (jsval * V)) : list (jsval * V) :=
  match m with
  | [] => [(k, v)]
  | (k', v') :: m' =>
      if sameValueZero k' k then (k', v) :: m' else (k', v') :: mapSet k v m'
  end.

Fixpoint mapGet {V} (k : jsval) (m : list (jsval * V)) : option V :=
  match m with
  | [] => None
  | (k', v') :: m' => if sameValueZero k' k then Some v' else mapGet k m'
  end.

Section Rows.
Context `{Engine}.

(** [`${r.username}|${r.platform}`] *)
Definition rowKey (u p : jsval) : string := (toString u ++ "|" ++ toString p)%string.

(** The rows [updateAverageViews] hands to [writeCSV]: the rows read,
    each with [averageViews] replaced when an update has its key,
    followed by the updates whose key no row has. *)
Definition mergeAverageViews (influencers : list obj) (updates : list avgUpdate)
  : list obj :=
  let updateMap : gmap string jsval :=
    fold_left (fun m update =>
                 <[ rowKey (u_username update) (u_platform update)
                    := averageValue (u_averageViews update) ]> m)
              updates ∅ in
  let existingKeys : gset string :=
    list_to_set (List.map (fun influencer =>
                             rowKey (get influencer "username")
                                    (get influencer "platform")) influencers) in
  let updated :=
    List.map (fun influencer =>
                let key := rowKey (get influencer "username")
                                  (get influencer "platform") in
                match updateMap !! key with
                | Some v => <[ "averageViews" := v ]> influencer
                | None => influencer
                end) influencers in
  fold_left (fun rows update =>
               let key := rowKey (u_username update) (u_platform update) in
               if bool_decide (key ∈ existingKeys) then rows
               else rows ++ [ <[ "username" := u_username update ]>
                              (<[ "platform" := u_platform update ]>
                              (<[ "averageViews" := averageValue (u_averageViews update) ]>
                               ∅)) ])
            updates updated.

(** [updateAverageViews(updates)].  [readRows] is how reading and
    parsing the influencers file ends, [writeCSV] how writing rows to it
    ends. *)
Definition updateAverageViews (readRows : result (list obj))
           (writeCSV : list obj -> result unit) (updates : list avgUpdate) : M unit :=
  try_catch
    (log LInfo ("Updating average views for " ++ showZ (Z.of_nat (length updates))
                ++ " influencers in CSV") ;;;
     influencers <- try_catch (lift readRows)
                      (fun _ =>
                         log LWarn "Could not read existing influencers CSV, creating new one" ;;;
                         ret []) ;;
     lift (writeCSV (mergeAverageViews influencers updates)) ;;;
     log LInfo "Successfully updated influencers CSV")
    (fun err =>
       log LError ("Failed to update average views in CSV: " ++ message err) ;;;
       throw err).

End Rows.

(** [appendPosts(posts)] *)
Definition appendPosts (readRows : result (list obj))
           (writeCSV : list obj -> result unit) (posts : list obj) : M unit :=
  try_catch
    (match posts with
     | [] => ret tt
     | _ =>
         log LInfo ("Appending " ++ showZ (Z.of_nat (length posts)) ++ " new posts to CSV") ;;;
         existingPosts <- try_catch (lift readRows)
                            (fun _ =>
                               log LWarn "Could not read existing posts CSV, creating new one" ;;;
                               ret []) ;;
         let allPosts := existingPosts ++ posts in
         lift (writeCSV allPosts) ;;;
         log LInfo "Successfully appended posts to CSV"
     end)
    (fun err =>
       log LError ("Failed to append posts to CSV: " ++ message err) ;;;
       throw err).

(** [x !== undefined ? x : otherwise] *)
Definition definedOr (x otherwise : jsval) : jsval :=
  match x with
  | VUndef => otherwise
  | _ => x
  end.

(** The callback of [allPosts.map] in [updateExistingPosts]. *)
Definition updateRow (updateMap : list (jsval * obj)) (post : obj) : obj :=
  let link := or (get post "postLink") (get post "post link") in
  match mapGet link updateMap with
  | Some update =>
      <[ "username" := or (get update "username") (get post "username") ]>
      (<[ "platform" := or (get update "platform") (get post "platform") ]>
      (<[ "postLink" := get update "postLink" ]>
      (<[ "postedDate" := or (or (get update "postedDate") (get post "postedDate"))
                             (get post "posted date") ]>
      (<[ "comments" := definedOr (get update "comments")
                          (definedOr (get post "comments")
                             (definedOr (get post "share") (VNum (Fin 0)))) ]>
      (<[ "likes" := definedOr (get update "likes")
                       (definedOr (get post "likes") (VNum (Fin 0))) ]> ∅)))))
  | None =>
      <[ "username" := get post "username" ]>
      (<[ "platform" := get post "platform" ]>
      (<[ "postLink" := link ]>
      (<[ "postedDate" := or (get post "postedDate") (get post "posted date") ]>
      (<[ "comments" := definedOr (get post "comments")
                          (definedOr (get post "share") (VNum (Fin 0))) ]>
      (<[ "likes" := definedOr (get post "likes") (VNum (Fin 0)) ]> ∅)))))
  end.

(** [updateExistingPosts(posts)] *)
Definition updateExistingPosts (readRows : result (list obj))
           (writeCSV : list obj -> result unit) (posts : list obj) : M unit :=
  try_catch
    (match posts with
     | [] => ret tt
     | _ =>
         log LInfo ("Updating " ++ showZ (Z.of_nat (length posts))
                    ++ " existing posts in CSV") ;;;
         allPosts <- try_catch (lift readRows)
                       (fun err =>
                          log LError "Could not read posts CSV for updating" ;;;
                          throw err) ;;
         let updateMap :=
           fold_left (fun m post => mapSet (get post "postLink") post m) posts [] in
         lift (writeCSV (List.map (updateRow updateMap) allPosts)) ;;;
         log LInfo "Successfully updated posts in CSV"
     end)
    (fun err =>
       log LError ("Failed to update posts in CSV: " ++ message err) ;;;
       throw err).

End CsvWriter.

(** ** config/config.js: the scraping methods *)

Module Config.

(** [process.env], as far as the choice of the scraping methods reads it;
    [None] is a variable that is not set. *)
Record Env : Type := {
  INSTAGRAM_SCRAPING_METHOD : option string;
  TIKTOK_SCRAPING_METHOD : option string;
  SCRAPING_METHOD : option string;
  RAPIDAPI_KEY : option string;
  INSTAGRAM_META_ACCESS_TOKEN : option string;
  INSTAGRAM_META_USER_ID : option string;
}.

(** [!v] for a variable of the environment *)
Definition unset (v : option string) : bool :=
  match v with
  | Some s => String.eqb s ""
  | None => true
  end.

(** [v || otherwise] *)
Definition envOr (v : option string) (otherwise : string) : string :=
  match v with
  | Some s => if String.eqb s "" then otherwise else s
  | None => otherwise
  end.

Definition instagramMethod (env : Env) : string :=
  envOr (INSTAGRAM_SCRAPING_METHOD env) (envOr (SCRAPING_METHOD env) "rapidapi").

Definition tiktokMethod (env : Env) : string :=
  envOr (TIKTOK_SCRAPING_METHOD env) (envOr (SCRAPING_METHOD env) "web").

(** [config.scraping.tiktok.method] and [config.scraping.instagram.method] *)
Record methods : Type := { tiktok_method : string; instagram_method : string }.

(** Loading the module: the three checks, then the methods of the
    [config] object. *)
Definition load (env : Env) : result methods :=
  let newline := ScraperStrategyFactory.newline in
  if String.eqb (instagramMethod env) "rapidapi" && unset (RAPIDAPI_KEY env) then
    Throw (mkError ("RAPIDAPI_KEY is required when INSTAGRAM_SCRAPING_METHOD=rapidapi"
                    ++ newline ++ "Please add RAPIDAPI_KEY to your .env file"))
  else
    let metaVars := [ ("INSTAGRAM_META_ACCESS_TOKEN"%string, INSTAGRAM_META_ACCESS_TOKEN env);
                      ("INSTAGRAM_META_USER_ID"%string, INSTAGRAM_META_USER_ID env) ] in
    let missingMetaVars := List.map fst (List.filter (fun v => unset (snd v)) metaVars) in
    if String.eqb (instagramMethod env) "meta" && (0 <? Z.of_nat (length missingMetaVars)) then
      Throw (mkError ("Missing Meta API variables: " ++ String.concat ", " missingMetaVars
                      ++ newline ++ "Required when INSTAGRAM_SCRAPING_METHOD=meta"
                      ++ newline ++ "See .env.example for setup instructions"))
    else if String.eqb (tiktokMethod env) "rapidapi" then
      Throw (mkError ("TikTok RapidAPI is no longer supported."
                      ++ newline ++ "Please set TIKTOK_SCRAPING_METHOD=web in your .env file"
                      ++ newline ++ "Web scraping provides more reliable TikTok data."))
    else
      Ok {| tiktok_method :=
              envOr (TIKTOK_SCRAPING_METHOD env) (envOr (SCRAPING_METHOD env) "web");
            instagram_method :=
              envOr (INSTAGRAM_SCRAPING_METHOD env)
                    (envOr (SCRAPING_METHOD env) "rapidapi") |}.

End Config.

(** ** services/scrapers/tiktokScraper.js and instagramScraper.js *)

Module Scrapers.

Import ScraperStrategyFactory.

(** What the constructor of [TikTokScraper] hands to [BaseScraper]: the
    platform name and the strategy for [config.scraping.tiktok.method]. *)
Definition newTikTokScraper (method : string) : M (string * strategy) :=
  strategy <- create "tiktok" method ;;
  ret ("TikTok"%string, strategy).

(** The same for [InstagramScraper] and
    [config.scraping.instagram.method]. *)
Definition newInstagramScraper (method : string) : M (string * strategy) :=
  strategy <- create "instagram" method ;;
  ret ("Instagram"%string, strategy).

End Scrapers.

(** ** services/fileIO/csvReader.js *)

Module CsvReader.

(** [parseFloat(v)].  A string is parsed; a number is printed and read
    back, which returns it; the other values print as words. *)
Definition parseFloatOf (v : jsval) : jsnum :=
  match v with
  | VStr s => parseFloat s
  | VNum n => n
  | VUndef | VNull | VBool _ => NaN
  end.

(** The callback of [records.map] in [readInfluencers]. *)
Definition toInfluencer (index : nat) (record : obj) : obj :=
  <[ "username" := or (get record "username") (get record "Username") ]>
  (<[ "platform" := or (get record "platform") (get record "Platform") ]>
  (<[ "averageViews" :=
        VNum (parseFloatOf (or (or (get record "averageViews") (get record "average views"))
                               (VNum (Fin 0)))) ]>
  (<[ "rowNumber" := VNum (of_Z (Z.of_nat index + 2)) ]> ∅))).

(** The callback of [records.map] in [readExistingPosts]. *)
Definition toPost (index : nat) (record : obj) : obj :=
  <[ "username" := or (get record "username") (get record "Username") ]>
  (<[ "platform" := or (get record "platform") (get record "Platform") ]>
  (<[ "postLink" := or (or (get record "postLink") (get record "post link"))
                       (get record "url") ]>
  (<[ "postedDate" := or (get record "postedDate") (get record "posted date") ]>
  (<[ "comments" :=
        VNum (parseFloatOf
                (or (or (or (or (or (get record "comments") (get record "Comments"))
                                (get record "share")) (get record "Share"))
                        (get record "shares")) (VNum (Fin 0)))) ]>
  (<[ "likes" := VNum (parseFloatOf (or (or (get record "likes") (get record "Likes"))
                                        (VNum (Fin 0)))) ]>
  (<[ "rowNumber" := VNum (of_Z (Z.of_nat index + 2)) ]> ∅)))))).

(** [readInfluencers()].  [present] tells whether [fs.access] finds the
    file, [records] is how reading and parsing it ends. *)
Definition readInfluencers (influencersPath : string) (present : bool)
           (records : result (list obj)) : M (list obj) :=
  try_catch
    (log LDebug ("Reading influencers from CSV: " ++ influencersPath) ;;;
     if negb present then
       log LWarn ("Influencers CSV file not found: " ++ influencersPath) ;;;
       ret []
     else
       records <- lift records ;;
       let influencers := imap toInfluencer records in
       log LInfo ("Read " ++ showZ (Z.of_nat (length influencers))
                  ++ " influencers from CSV") ;;;
       ret influencers)
    (fun err =>
       log LError ("Failed to read influencers CSV: " ++ message err) ;;;
       throw err).

(** [readExistingPosts()] *)
Definition readExistingPosts (postsPath : string) (present : bool)
           (records : result (list obj)) : M (list obj) :=
  try_catch
    (log LDebug ("Reading posts from CSV: " ++ postsPath) ;;;
     if negb present then
       log LWarn ("Posts CSV file not found: " ++ postsPath ++ ", starting fresh") ;;;
       ret []
     else
       records <- lift records ;;
       let posts := imap toPost records in
       log LInfo ("Read " ++ showZ (Z.of_nat (length posts)) ++ " existing posts from CSV") ;;;
       ret posts)
    (fun err =>
       log LError ("Failed to read posts CSV: " ++ message err) ;;;
       throw err).

End CsvReader.

(** ** Vocabulary of the further properties *)

(** The page is there once [initialize] has run, and the profile loads. *)
Definition opens (br : WebScraperStrategy.Browser) : bool :=
  WebScraperStrategy.hasPage br
  || match WebScraperStrategy.createPage br with Ok _ => true | Throw _ => false end.

Definition loads (br : WebScraperStrategy.Browser) : bool :=
  match WebScraperStrategy.goto br with Ok _ => true | Throw _ => false end.

(** The [error] values of the objects the error handlers return. *)
Definition errorKinds : list string :=
  [ "timeout"; "proxy_error"; "network_error";
    "user_not_found"; "private_account"; "rate_limit"; "unknown" ].

(** The properties of a post as [InstagramMetaStrategy.transformPost]
    builds it. *)
Definition metaPostKeys : gset string :=
  {[ "postLink"; "postedDate"; "comments"; "likes" ]}.

(** A Graph API whose token has expired. *)
Definition expiredNet : Z -> result (option (list obj)) :=
  fun _ => Throw (graphError 400 190 "Error validating access token").

(** A writer whose first step fails. *)
Definition brokenWriter : Writer :=
  {| updateAverageViews := fun _ => Throw (mkError "EACCES: permission denied");
     appendPosts := fun _ => Ok tt;
     updateExistingPosts := fun _ => Ok tt |}.

(** The line [run] writes when more than half of the identities failed. *)
Definition alert : event := Log LError "HIGH FAILURE RATE".

(** The platforms and methods the factory serves, in lower case, with the
    strategy of each. *)
Definition supported : list (string * string * ScraperStrategyFactory.strategy) :=
  [ ("tiktok", "web", ScraperStrategyFactory.TikTokWebStrategy);
    ("instagram", "web", ScraperStrategyFactory.InstagramWebStrategy);
    ("instagram", "meta", ScraperStrategyFactory.InstagramMetaStrategy);
    ("instagram", "rapidapi", ScraperStrategyFactory.InstagramRapidApiStrategy) ].

(** The setting is used when the proxy is switched on and has a host. *)
Definition proxyInUse (s : ProxyConfig.ProxySettings) : bool :=
  ProxyConfig.enabled s && ProxyConfig.nonEmpty (ProxyConfig.host s).

(** The command-line argument that routes the browser through the proxy. *)
Definition proxyFlag (s : ProxyConfig.ProxySettings) : string :=
  "--proxy-server=" ++ ProxyConfig.hostPort s.

(** A proxy with credentials and a port that is out of range. *)
Definition oddProxy : ProxyConfig.ProxySettings :=
  {| ProxyConfig.enabled := true; ProxyConfig.host := "proxy.example.org";
     ProxyConfig.port := 70000; ProxyConfig.username := "user";
     ProxyConfig.password := "secret" |}.

(** An environment that names a method for TikTok which no check of the
    configuration knows. *)
Definition metaEverywhere : Config.Env :=
  {| Config.INSTAGRAM_SCRAPING_METHOD := None;
     Config.TIKTOK_SCRAPING_METHOD := None;
     Config.SCRAPING_METHOD := Some "meta";
     Config.RAPIDAPI_KEY := None;
     Config.INSTAGRAM_META_ACCESS_TOKEN := Some "token";
     Config.INSTAGRAM_META_USER_ID := Some "17841400000000000" |}.

Definition webEverywhere : Config.Env :=
  {| Config.INSTAGRAM_SCRAPING_METHOD := None;
     Config.TIKTOK_SCRAPING_METHOD := None;
     Config.SCRAPING_METHOD := Some "Web";
     Config.RAPIDAPI_KEY := None;
     Config.INSTAGRAM_META_ACCESS_TOKEN := None;
     Config.INSTAGRAM_META_USER_ID := None |}.

Section CsvVocabulary.
Context `{Engine}.




End CsvVocabulary.

(** The rows a writer starts from: those read, or none when the file cannot
    be read. *)
Definition rowsOrNone (readRows : result (list obj)) : list obj :=
  match readRows with
  | Ok rows => rows
  | Throw _ => []
  end.

(** The link of a stored row, under either of its two names. *)
Definition storedLink (row : obj) : jsval := or (get row "postLink") (get row "post link").

(** A stored row under the headers of the posts file, and an update for it. *)
Definition storedRow : obj :=
  object [("username", VStr "bob"); ("platform", VStr "tiktok");
          ("post link", VStr "https://www.tiktok.com/@bob/video/1");
          ("posted date", VStr "2024-01-15T10:30:00.000Z");
          ("comments", VStr "4"); ("likes", VStr "30"); ("views", VStr "1200")].

Definition freshRow : obj :=
  object [("username", VStr "bob"); ("platform", VStr "tiktok");
          ("postLink", VStr "https://www.tiktok.com/@bob/video/1");
          ("postedDate", VStr "2024-01-15T10:30:00.000Z");
          ("comments", VNum (of_Z 9)); ("likes", VNum (of_Z 41))].

(** Runs the effect combinators of a computation whose steps are known. *)
Ltac run_eff :=
  cbn [lift try_catch Eff.bind log emit ret throw Eff.outcome trace snd fst app].

(** The identity the job takes from an object of the reader. *)
Definition asInfluencer (o : obj) : influencer :=
  {| username := get o "username"; platform := get o "platform" |}.

Definition fmapResult {A B} (f : A -> B) (r : result A) : result B :=
  match r with
  | Ok a => Ok (f a)
  | Throw e => Throw e
  end.

(** The failure entry of the summary for an identity and an error
    description. *)
Definition failureOf (inf : influencer) (msg : string) : failure :=
  {| f_username := username inf; f_platform := platform inf; f_error := Some msg |}.

(** The scrapers of the examples: TikTok delivers one post, Instagram is a
    [BaseScraper] whose Graph API strategy is rate limited. *)
Definition fetchScrapers : scraperId -> jsval -> Z -> result (option (list obj)) :=
  fun sc u count =>
    match sc, u with
    | TikTokScraper, _ => Ok (Some [tiktokRaw])
    | InstagramScraper, VStr name =>
        fmapResult Some
          (Eff.outcome
             (BaseScraper.getRecentPosts "Instagram"
                (Some (metaStrategy limitedNet (fun _ _ => Ok VUndef) "17841400000000000"))
                name count))
    | InstagramScraper, _ => Ok None
    end.

(** The CSV reader as the reader of a job: [influencers] and [posts] tell,
    for each file, whether it is there and how reading and parsing it
    ends. *)
Definition csvReader (influencers posts : bool * result (list obj)) : Reader :=
  {| readInfluencers :=
       fmapResult (List.map asInfluencer)
                  (Eff.outcome (CsvReader.readInfluencers "influencers.csv"
                                                          (fst influencers) (snd influencers)));
     readExistingPosts :=
       Eff.outcome (CsvReader.readExistingPosts "posts.csv" (fst posts) (snd posts)) |}.

(** The properties of a post as the reader returns it. *)
Definition readKeys : gset string :=
  {[ "username"; "platform"; "postLink"; "postedDate"; "comments"; "likes"; "rowNumber" ]}.
(** * Properties *)

(** ** Rounding to binary64 *)

Section Pow2.

Lemma two_neq_0 : ~ (2 == 0)%Q.
Proof. intros H. discriminate H. Qed.

Lemma pow2_pos e : (0 < pow2 e)%Q.
Proof. apply Qpower_0_lt. reflexivity. Qed.

Lemma pow2_neq_0 e : ~ (pow2 e == 0)%Q.
Proof. intros H. pose proof (pow2_pos e) as Hp. rewrite H in Hp. discriminate Hp. Qed.

Lemma pow2_plus a b : (pow2 (a + b) == pow2 a * pow2 b)%Q.
Proof. apply Qpower_plus, two_neq_0. Qed.

Lemma pow2_lt a b : a < b -> (pow2 a < pow2 b)%Q.
Proof. intros H. apply Qpower_lt_compat_l; [exact H | reflexivity]. Qed.

Lemma pow2_le a b : a <= b -> (pow2 a <= pow2 b)%Q.
Proof. intros H. apply Qpower_le_compat_l; [exact H | discriminate]. Qed.

Lemma pow2_lt_inv a b : (pow2 a < pow2 b)%Q -> a < b.
Proof. intros H. apply (Qpower_lt_compat_l_inv 2); [exact H | reflexivity]. Qed.

Lemma pow2_Z e : 0 <= e -> (pow2 e == inject_Z (2 ^ e))%Q.
Proof. intros H. unfold pow2. rewrite (Zpower_Qpower 2 e H). reflexivity. Qed.

Lemma pow2_div q a b : (q * pow2 a / pow2 b == q * pow2 (a - b))%Q.
Proof.
  replace (a - b) with (a + - b) by lia.
  rewrite pow2_plus. unfold pow2 at 4. rewrite Qpower_opp. fold (pow2 b).
  field. apply pow2_neq_0.
Qed.

End Pow2.

Section Ilog2.

Lemma Q_split (q : Q) : (q == inject_Z (Qnum q) / inject_Z (Zpos (Qden q)))%Q.
Proof. destruct q as [a b]. simpl. apply Qmake_Qdiv. Qed.

Lemma ilog2_spec q :
  (0 < q)%Q -> (pow2 (ilog2 q) <= q)%Q /\ (q < pow2 (ilog2 q + 1))%Q.
Proof.
  intros Hq. unfold ilog2. cbv zeta.
  set (a := Qnum q). set (b := Zpos (Qden q)).
  assert (Ha : 0 < a) by (unfold Qlt in Hq; simpl in Hq; unfold a; lia).
  assert (Hb : 0 < b) by (unfold b; lia).
  destruct (Z.log2_spec a Ha) as [Ha1 Ha2].
  destruct (Z.log2_spec b Hb) as [Hb1 Hb2].
  pose proof (Z.log2_nonneg a) as Hla. pose proof (Z.log2_nonneg b) as Hlb.
  set (la := Z.log2 a) in *. set (lb := Z.log2 b) in *.
  assert (Hqb : (q * inject_Z b == inject_Z a)%Q).
  { rewrite (Q_split q) at 1. fold a b. field.
    intros H0. unfold Qeq in H0. simpl in H0. lia. }
  assert (Hbpos : (0 < inject_Z b)%Q) by (unfold Qlt; simpl; lia).
  assert (HA1 : (pow2 la <= inject_Z a)%Q).
  { rewrite (pow2_Z la Hla). rewrite <- Zle_Qle. exact Ha1. }
  assert (HA2 : (inject_Z a < pow2 (la + 1))%Q).
  { rewrite (pow2_Z (la + 1)) by lia. rewrite <- Zlt_Qlt.
    replace (la + 1) with (Z.succ la) by lia. exact Ha2. }
  assert (HB1 : (pow2 lb <= inject_Z b)%Q).
  { rewrite (pow2_Z lb Hlb). rewrite <- Zle_Qle. exact Hb1. }
  assert (HB2 : (inject_Z b < pow2 (lb + 1))%Q).
  { rewrite (pow2_Z (lb + 1)) by lia. rewrite <- Zlt_Qlt.
    replace (lb + 1) with (Z.succ lb) by lia. exact Hb2. }
  assert (Hup : (q < pow2 (la - lb + 1))%Q).
  { apply Qmult_lt_r with (z := inject_Z b); [exact Hbpos |].
    rewrite Hqb. eapply Qlt_le_trans; [exact HA2 |].
    replace (la + 1) with ((la - lb + 1) + lb) by lia. rewrite pow2_plus.
    apply Qmult_le_l; [apply pow2_pos | exact HB1]. }
  assert (Hlow : (pow2 (la - lb - 1) <= q)%Q).
  { apply Qmult_le_r with (z := inject_Z b); [exact Hbpos |].
    rewrite Hqb. eapply Qle_trans; [| exact HA1].
    replace la with ((la - lb - 1) + (lb + 1)) at 2 by lia. rewrite pow2_plus.
    apply Qmult_le_l; [apply pow2_pos | apply Qlt_le_weak; exact HB2]. }
  destruct (Qle_bool (pow2 (la - lb)) q) eqn:E.
  - apply Qle_bool_iff in E. split; [exact E | exact Hup].
  - split.
    + exact Hlow.
    + replace (la - lb - 1 + 1) with (la - lb) by lia.
      apply Qnot_le_lt. intros Hc. apply Qle_bool_iff in Hc. congruence.
Qed.

Lemma ilog2_unique q e :
  (0 < q)%Q -> (pow2 e <= q)%Q -> (q < pow2 (e + 1))%Q -> ilog2 q = e.
Proof.
  intros Hq H1 H2. destruct (ilog2_spec q Hq) as [H3 H4].
  assert (ilog2 q < e + 1) by (apply pow2_lt_inv; eapply Qle_lt_trans; eassumption).
  assert (e < ilog2 q + 1) by (apply pow2_lt_inv; eapply Qle_lt_trans; eassumption).
  lia.
Qed.

Lemma ilog2_comp x y : (0 < x)%Q -> (x == y)%Q -> ilog2 x = ilog2 y.
Proof.
  intros Hx Hxy. assert (Hy : (0 < y)%Q) by (rewrite <- Hxy; exact Hx).
  destruct (ilog2_spec y Hy) as [H1 H2].
  apply ilog2_unique; [exact Hx | rewrite Hxy; exact H1 | rewrite Hxy; exact H2].
Qed.

Lemma ilog2_mono x y : (0 < x)%Q -> (x <= y)%Q -> ilog2 x <= ilog2 y.
Proof.
  intros Hx Hxy. assert (Hy : (0 < y)%Q) by (eapply Qlt_le_trans; eassumption).
  destruct (ilog2_spec x Hx) as [H1 _]. destruct (ilog2_spec y Hy) as [_ H2].
  assert (ilog2 x < ilog2 y + 1).
  { apply pow2_lt_inv. eapply Qle_lt_trans; [exact H1 |].
    eapply Qle_lt_trans; [exact Hxy | exact H2]. }
  lia.
Qed.

End Ilog2.

Section Rne.

Lemma rne_comp x y : (x == y)%Q -> rne x = rne y.
Proof.
  intros Hxy. unfold rne. cbv zeta.
  rewrite (Qfloor_comp x y Hxy).
  assert (Hc : ((x - inject_Z (Qfloor y)) ?= (1 # 2))%Q
               = ((y - inject_Z (Qfloor y)) ?= (1 # 2))%Q).
  { apply Qcompare_comp; [rewrite Hxy; reflexivity | reflexivity]. }
  rewrite Hc. reflexivity.
Qed.

Lemma rne_Z z : rne (inject_Z z) = z.
Proof.
  unfold rne. cbv zeta. rewrite Qfloor_Z.
  assert (Hc : ((inject_Z z - inject_Z z) ?= (1 # 2))%Q = Lt).
  { apply Qlt_alt.
  assert (E : (inject_Z z - inject_Z z == 0)%Q) by ring.
  rewrite E. reflexivity. }
  rewrite Hc. reflexivity.
Qed.

Lemma frac_bounds x :
  (0 <= x - inject_Z (Qfloor x))%Q /\ (x - inject_Z (Qfloor x) < 1)%Q.
Proof.
  pose proof (Qfloor_le x) as H1. pose proof (Qlt_floor x) as H2.
  rewrite inject_Z_plus in H2. change (inject_Z 1) with 1%Q in H2.
  split; lra.
Qed.

Lemma rne_floor x : Qfloor x <= rne x <= Qfloor x + 1.
Proof.
  unfold rne. cbv zeta.
  destruct (Qcompare _ _); [destruct (Z.even _) |..]; lia.
Qed.

Lemma compare_cases (a b : Q) :
  match (a ?= b)%Q with
  | Lt => (a < b)%Q
  | Eq => (a == b)%Q
  | Gt => (b < a)%Q
  end.
Proof.
  destruct (a ?= b)%Q eqn:Hc; [apply Qeq_alt | apply Qlt_alt | apply Qgt_alt]; exact Hc.
Qed.

Lemma rne_mono x y : (x <= y)%Q -> rne x <= rne y.
Proof.
  intros Hxy. pose proof (Qfloor_resp_le x y Hxy) as Hf.
  destruct (Z.eq_dec (Qfloor x) (Qfloor y)) as [Heq | Hne].
  - unfold rne. cbv zeta. rewrite Heq.
    pose proof (compare_cases (x - inject_Z (Qfloor y)) (1 # 2)) as Hx.
    pose proof (compare_cases (y - inject_Z (Qfloor y)) (1 # 2)) as Hy.
    destruct ((x - inject_Z (Qfloor y)) ?= (1 # 2))%Q;
      destruct ((y - inject_Z (Qfloor y)) ?= (1 # 2))%Q;
      try (destruct (Z.even (Qfloor y))); try lia; exfalso; lra.
  - pose proof (rne_floor x). pose proof (rne_floor y). lia.
Qed.

Lemma rne_err x :
  (x - (1 # 2) <= inject_Z (rne x))%Q /\ (inject_Z (rne x) <= x + (1 # 2))%Q.
Proof.
  destruct (frac_bounds x) as [H0 H1].
  unfold rne. cbv zeta.
  pose proof (compare_cases (x - inject_Z (Qfloor x)) (1 # 2)) as Hc.
  destruct ((x - inject_Z (Qfloor x)) ?= (1 # 2))%Q;
    [destruct (Z.even (Qfloor x)) |..];
    rewrite ?inject_Z_plus; change (inject_Z 1) with 1%Q; split; lra.
Qed.

End Rne.

Section Nearest.

Lemma scaled_pos q p : (0 < q)%Q -> (0 < q / pow2 p)%Q.
Proof.
  intros Hq. apply Qlt_shift_div_l; [apply pow2_pos |]. lra.
Qed.

Lemma nearest_comp x y : (0 < x)%Q -> (x == y)%Q -> nearest x = nearest y.
Proof.
  intros Hx Hxy. unfold nearest. cbv zeta.
  rewrite (ilog2_comp x y Hx Hxy).
  rewrite (rne_comp (x / pow2 (Z.max (ilog2 y) (-1022) - 52))
                    (y / pow2 (Z.max (ilog2 y) (-1022) - 52)))
    by (rewrite Hxy; reflexivity).
  reflexivity.
Qed.

Lemma nearest_nonneg q : (0 < q)%Q -> (0 <= nearest q)%Q.
Proof.
  intros Hq. unfold nearest. cbv zeta.
  set (p := Z.max (ilog2 q) (-1022) - 52).
  apply Qmult_le_0_compat; [| apply Qlt_le_weak, pow2_pos].
  change 0%Q with (inject_Z 0). rewrite <- Zle_Qle.
  pose proof (rne_floor (q / pow2 p)) as [Hf _].
  assert (0 <= Qfloor (q / pow2 p)); [| lia].
  change 0 with (Qfloor 0). apply Qfloor_resp_le.
  apply Qlt_le_weak, scaled_pos, Hq.
Qed.

Lemma ilog2_grid M p :
  0 < M -> ilog2 (inject_Z M * pow2 p) = Z.log2 M + p.
Proof.
  intros HM. destruct (Z.log2_spec M HM) as [H1 H2].
  pose proof (Z.log2_nonneg M) as Ht. set (t := Z.log2 M) in *.
  pose proof (pow2_pos p) as Hp.
  assert (HMq : (0 < inject_Z M)%Q) by (unfold Qlt; simpl; lia).
  apply ilog2_unique.
  - apply Qmult_lt_0_compat; assumption.
  - rewrite pow2_plus. apply Qmult_le_compat_r; [| lra].
    rewrite (pow2_Z t Ht), <- Zle_Qle. exact H1.
  - replace (t + p + 1) with ((t + 1) + p) by lia. rewrite pow2_plus.
    apply Qmult_lt_compat_r; [exact Hp |].
    rewrite (pow2_Z (t + 1)) by lia. rewrite <- Zlt_Qlt.
    replace (t + 1) with (Z.succ t) by lia. exact H2.
Qed.

(** A value with a 53-bit significand and an exponent in range is its own
    nearest value. *)
Lemma nearest_grid M p :
  0 < M < 2 ^ 53 -> -1074 <= p ->
  (nearest (inject_Z M * pow2 p) == inject_Z M * pow2 p)%Q.
Proof.
  intros [HM0 HM] Hp. unfold nearest. cbv zeta.
  rewrite (ilog2_grid M p HM0).
  assert (Ht : Z.log2 M < 53) by (apply Z.log2_lt_pow2; lia).
  set (p' := Z.max (Z.log2 M + p) (-1022) - 52).
  assert (Hk : 0 <= p - p') by (unfold p'; lia).
  assert (Hscaled : (inject_Z M * pow2 p / pow2 p' == inject_Z (M * 2 ^ (p - p')))%Q).
  { rewrite pow2_div, inject_Z_mult, (pow2_Z (p - p') Hk). reflexivity. }
  rewrite (rne_comp _ _ Hscaled), rne_Z.
  rewrite inject_Z_mult, <- (pow2_Z (p - p') Hk).
  rewrite <- Qmult_assoc, <- pow2_plus.
  replace (p - p' + p') with p by lia. reflexivity.
Qed.

Lemma nearest_upper q :
  (0 < q)%Q -> (nearest q <= pow2 (Z.max (ilog2 q) (-1022) + 1))%Q.
Proof.
  intros Hq. unfold nearest. cbv zeta.
  destruct (ilog2_spec q Hq) as [_ Hup].
  set (c := Z.max (ilog2 q) (-1022)) in *.
  assert (Hqc : (q <= pow2 (c + 1))%Q).
  { apply Qlt_le_weak. eapply Qlt_le_trans; [exact Hup |]. apply pow2_le. lia. }
  assert (Hs : (q / pow2 (c - 52) <= inject_Z (2 ^ 53))%Q).
  { apply Qle_shift_div_r; [apply pow2_pos |].
    rewrite <- (pow2_Z 53) by lia. rewrite <- pow2_plus.
    replace (53 + (c - 52)) with (c + 1) by lia. exact Hqc. }
  apply rne_mono in Hs. rewrite rne_Z in Hs.
  replace (c + 1) with (53 + (c - 52)) by lia. rewrite pow2_plus.
  apply Qmult_le_compat_r; [| apply Qlt_le_weak, pow2_pos].
  rewrite (pow2_Z 53) by lia. rewrite <- Zle_Qle. exact Hs.
Qed.

Lemma nearest_lower q :
  (0 < q)%Q -> -1022 <= ilog2 q -> (pow2 (ilog2 q) <= nearest q)%Q.
Proof.
  intros Hq He. unfold nearest. cbv zeta.
  destruct (ilog2_spec q Hq) as [Hlow _].
  replace (Z.max (ilog2 q) (-1022)) with (ilog2 q) by lia.
  set (e := ilog2 q) in *.
  assert (Hs : (inject_Z (2 ^ 52) <= q / pow2 (e - 52))%Q).
  { apply Qle_shift_div_l; [apply pow2_pos |].
    rewrite <- (pow2_Z 52) by lia. rewrite <- pow2_plus.
    replace (52 + (e - 52)) with e by lia. exact Hlow. }
  apply rne_mono in Hs. rewrite rne_Z in Hs.
  replace e with (52 + (e - 52)) at 1 by lia. rewrite pow2_plus.
  apply Qmult_le_compat_r; [| apply Qlt_le_weak, pow2_pos].
  rewrite (pow2_Z 52) by lia. rewrite <- Zle_Qle. exact Hs.
Qed.

Lemma nearest_mono x y : (0 < x)%Q -> (x <= y)%Q -> (nearest x <= nearest y)%Q.
Proof.
  intros Hx Hxy. assert (Hy : (0 < y)%Q) by lra.
  pose proof (ilog2_mono x y Hx Hxy) as He.
  destruct (Z.eq_dec (Z.max (ilog2 x) (-1022)) (Z.max (ilog2 y) (-1022))) as [Heq | Hne].
  - unfold nearest. cbv zeta. rewrite Heq.
    set (p := Z.max (ilog2 y) (-1022) - 52).
    apply Qmult_le_compat_r; [| apply Qlt_le_weak, pow2_pos].
    rewrite <- Zle_Qle. apply rne_mono.
    apply Qmult_le_compat_r; [exact Hxy |].
    apply Qlt_le_weak, Qinv_lt_0_compat, pow2_pos.
  - eapply Qle_trans; [apply nearest_upper; exact Hx |].
    eapply Qle_trans; [| apply nearest_lower; [exact Hy | lia]].
    apply pow2_le. lia.
Qed.

(** The relative error of a value in the normal range. *)
Lemma nearest_err q :
  (0 < q)%Q -> -1022 <= ilog2 q ->
  (q - q * pow2 (-53) <= nearest q)%Q /\ (nearest q <= q + q * pow2 (-53))%Q.
Proof.
  intros Hq He. unfold nearest. cbv zeta.
  destruct (ilog2_spec q Hq) as [Hlow _].
  replace (Z.max (ilog2 q) (-1022)) with (ilog2 q) by lia.
  set (e := ilog2 q) in *.
  pose proof (pow2_pos (e - 52)) as Hp.
  destruct (rne_err (q / pow2 (e - 52))) as [H1 H2].
  set (m := inject_Z (rne (q / pow2 (e - 52)))) in *.
  assert (Hq' : (q == q / pow2 (e - 52) * pow2 (e - 52))%Q).
  { field. apply pow2_neq_0. }
  assert (Hhalf : ((1 # 2) * pow2 (e - 52) <= q * pow2 (-53))%Q).
  { assert (E : ((1 # 2) * pow2 (e - 52) == pow2 e * pow2 (-53))%Q).
    { rewrite <- pow2_plus. replace (e + -53) with (-1 + (e - 52)) by lia.
      rewrite pow2_plus. reflexivity. }
    rewrite E. apply Qmult_le_compat_r; [exact Hlow | apply Qlt_le_weak, pow2_pos]. }
  assert (Hm1 : ((q / pow2 (e - 52) - (1 # 2)) * pow2 (e - 52) <= m * pow2 (e - 52))%Q).
  { apply Qmult_le_compat_r; [exact H1 | lra]. }
  assert (Hm2 : (m * pow2 (e - 52) <= (q / pow2 (e - 52) + (1 # 2)) * pow2 (e - 52))%Q).
  { apply Qmult_le_compat_r; [exact H2 | lra]. }
  assert (E1 : ((q / pow2 (e - 52) - (1 # 2)) * pow2 (e - 52)
                == q - (1 # 2) * pow2 (e - 52))%Q).
  { field. apply pow2_neq_0. }
  assert (E2 : ((q / pow2 (e - 52) + (1 # 2)) * pow2 (e - 52)
                == q + (1 # 2) * pow2 (e - 52))%Q).
  { field. apply pow2_neq_0. }
  rewrite E1 in Hm1. rewrite E2 in Hm2. split; lra.
Qed.

End Nearest.

Section B64.

Lemma b64_pos q : (0 < q)%Q -> b64 q = round_pos q.
Proof.
  intros Hq. unfold b64. pose proof (compare_cases q 0) as Hc.
  destruct (q ?= 0)%Q; [lra | lra | reflexivity].
Qed.

Lemma b64_zero q : (q == 0)%Q -> b64 q = Fin 0.
Proof.
  intros Hq. unfold b64. pose proof (compare_cases q 0) as Hc.
  destruct (q ?= 0)%Q; [reflexivity | lra | lra].
Qed.

Lemma b64_neg q : (q < 0)%Q -> b64 q = neg (round_pos (- q)).
Proof.
  intros Hq. unfold b64. pose proof (compare_cases q 0) as Hc.
  destruct (q ?= 0)%Q; [lra | reflexivity | lra].
Qed.

Lemma round_pos_comp x y : (0 < x)%Q -> (x == y)%Q -> round_pos x = round_pos y.
Proof.
  intros Hx Hxy. unfold round_pos. rewrite (nearest_comp x y Hx Hxy). reflexivity.
Qed.

Lemma b64_comp x y : (x == y)%Q -> b64 x = b64 y.
Proof.
  intros Hxy. pose proof (compare_cases x 0) as Hc.
  destruct (x ?= 0)%Q eqn:E.
  - rewrite (b64_zero x Hc), (b64_zero y); [reflexivity | lra].
  - rewrite (b64_neg x Hc), (b64_neg y) by lra.
    f_equal. apply round_pos_comp; [lra | rewrite Hxy; reflexivity].
  - rewrite (b64_pos x Hc), (b64_pos y) by lra.
    apply round_pos_comp; [exact Hc | exact Hxy].
Qed.

Lemma round_pos_cases q :
  (round_pos q = PInf /\ (pow2 1024 <= nearest q)%Q) \/
  (round_pos q = Fin (Qred (nearest q)) /\ (nearest q < pow2 1024)%Q).
Proof.
  unfold round_pos. cbv zeta.
  destruct (Qle_bool (pow2 1024) (nearest q)) eqn:E.
  - left. split; [reflexivity | apply Qle_bool_iff; exact E].
  - right. split; [reflexivity |].
    apply Qnot_le_lt. intros Hc. apply Qle_bool_iff in Hc. congruence.
Qed.

Lemma b64_not_NaN q : b64 q <> NaN.
Proof.
  unfold b64. destruct (q ?= 0)%Q; [discriminate | |].
  - destruct (round_pos_cases (- q)) as [[-> _] | [-> _]]; discriminate.
  - destruct (round_pos_cases q) as [[-> _] | [-> _]]; discriminate.
Qed.

(** Values with a 53-bit significand are binary64 values. *)
Lemma b64_grid M p :
  0 < M < 2 ^ 53 -> -1074 <= p -> (inject_Z M * pow2 p < pow2 1024)%Q ->
  b64 (inject_Z M * pow2 p) = Fin (Qred (inject_Z M * pow2 p)).
Proof.
  intros HM Hp Hfin.
  assert (Hq : (0 < inject_Z M * pow2 p)%Q).
  { apply Qmult_lt_0_compat; [unfold Qlt; simpl; lia | apply pow2_pos]. }
  rewrite (b64_pos _ Hq).
  pose proof (nearest_grid M p HM Hp) as Hn.
  destruct (round_pos_cases (inject_Z M * pow2 p)) as [[_ Hc] | [-> _]]; [lra |].
  f_equal. apply Qred_complete. exact Hn.
Qed.

Lemma Qred_inject_Z z : Qred (inject_Z z) = inject_Z z.
Proof.
  unfold Qred, inject_Z.
  pose proof (Z.ggcd_gcd z 1) as Hg.
  pose proof (Z.ggcd_correct_divisors z 1) as Hd.
  destruct (Z.ggcd z 1) as (g, (aa, bb)). simpl in Hg, Hd |- *.
  rewrite Z.gcd_1_r in Hg. subst g. destruct Hd as [Ha Hb].
  replace aa with z by lia. replace bb with 1 by lia. reflexivity.
Qed.

Lemma pow2_0 : (pow2 0 == 1)%Q.
Proof. reflexivity. Qed.

(** Integers below 2^53 in magnitude are binary64 values. *)
Lemma b64_int z : Z.abs z < 2 ^ 53 -> b64 (inject_Z z) = Fin (inject_Z z).
Proof.
  intros Hz.
  assert (Hbig : forall M, 0 < M < 2 ^ 53 -> (inject_Z M * pow2 0 < pow2 1024)%Q).
  { intros M HM. rewrite pow2_0, Qmult_1_r, (pow2_Z 1024) by lia.
    rewrite <- Zlt_Qlt. assert (2 ^ 53 < 2 ^ 1024) by (apply Z.pow_lt_mono_r; lia). lia. }
  destruct (Z.lt_trichotomy z 0) as [Hneg | [-> | Hpos]].
  - rewrite b64_neg by (unfold Qlt; simpl; lia).
    assert (E : (- inject_Z z == inject_Z (- z) * pow2 0)%Q).
    { rewrite pow2_0, Qmult_1_r, inject_Z_opp. reflexivity. }
    assert (Hq : (0 < - inject_Z z)%Q) by (unfold Qlt; simpl; lia).
    rewrite (round_pos_comp _ _ Hq E).
    assert (HM : 0 < - z < 2 ^ 53) by lia.
    pose proof (b64_grid (- z) 0 HM ltac:(lia) (Hbig _ HM)) as Hg.
    rewrite b64_pos in Hg
      by (rewrite pow2_0, Qmult_1_r; unfold Qlt; simpl; lia).
    rewrite Hg. cbn [neg]. f_equal.
    rewrite <- (Qred_inject_Z z). apply Qred_complete.
    rewrite Qred_correct, pow2_0, Qmult_1_r, inject_Z_opp. ring.
  - apply b64_zero. reflexivity.
  - assert (HM : 0 < z < 2 ^ 53) by lia.
    assert (E : (inject_Z z == inject_Z z * pow2 0)%Q)
      by (rewrite pow2_0, Qmult_1_r; reflexivity).
    rewrite (b64_comp _ _ E), (b64_grid z 0 HM ltac:(lia) (Hbig _ HM)).
    f_equal. rewrite <- (Qred_inject_Z z) at 2. apply Qred_complete.
    rewrite pow2_0, Qmult_1_r. reflexivity.
Qed.

(** Rounding keeps a positive value between the binary64 values around
    it. *)
Lemma b64_below q M p :
  (0 < q)%Q -> 0 < M < 2 ^ 53 -> -1074 <= p ->
  (q <= inject_Z M * pow2 p)%Q -> (inject_Z M * pow2 p < pow2 1024)%Q ->
  exists r, b64 q = Fin r /\ (0 <= r)%Q /\ (r <= inject_Z M * pow2 p)%Q.
Proof.
  intros Hq HM Hp Hle Hfin.
  pose proof (nearest_mono q _ Hq Hle) as Hmono.
  rewrite (nearest_grid M p HM Hp) in Hmono.
  rewrite (b64_pos q Hq).
  destruct (round_pos_cases q) as [[_ Hc] | [-> _]]; [lra |].
  eexists. split; [reflexivity |]. rewrite Qred_correct.
  split; [apply nearest_nonneg; exact Hq | exact Hmono].
Qed.

Lemma b64_above q r M p :
  b64 q = Fin r -> 0 < M < 2 ^ 53 -> -1074 <= p ->
  (inject_Z M * pow2 p <= q)%Q -> (inject_Z M * pow2 p <= r)%Q.
Proof.
  intros Hr HM Hp Hle.
  assert (Ha : (0 < inject_Z M * pow2 p)%Q).
  { apply Qmult_lt_0_compat; [unfold Qlt; simpl; lia | apply pow2_pos]. }
  assert (Hq : (0 < q)%Q) by lra.
  pose proof (nearest_mono _ q Ha Hle) as Hmono.
  rewrite (nearest_grid M p HM Hp) in Hmono.
  rewrite (b64_pos q Hq) in Hr.
  destruct (round_pos_cases q) as [[Hc _] | [Hc _]]; rewrite Hc in Hr; [discriminate |].
  assert (Er : r = Qred (nearest q)) by congruence.
  rewrite Er, Qred_correct. exact Hmono.
Qed.

Lemma b64_err q r :
  (0 < q)%Q -> (pow2 (-1022) <= q)%Q -> b64 q = Fin r ->
  (q - q * pow2 (-53) <= r)%Q /\ (r <= q + q * pow2 (-53))%Q.
Proof.
  intros Hq Hnormal Hr.
  assert (He : -1022 <= ilog2 q).
  { destruct (ilog2_spec q Hq) as [_ Hup].
    assert (-1022 < ilog2 q + 1); [| lia].
    apply pow2_lt_inv. eapply Qle_lt_trans; eassumption. }
  rewrite (b64_pos q Hq) in Hr.
  destruct (round_pos_cases q) as [[Hc _] | [Hc _]]; rewrite Hc in Hr; [discriminate |].
  assert (Er : r = Qred (nearest q)) by congruence.
  rewrite Er, Qred_correct. apply nearest_err; assumption.
Qed.

End B64.
Section Quotients.

Lemma Qfloor_unique (x : Q) (k : Z) :
  (inject_Z k <= x)%Q -> (x < inject_Z k + 1)%Q -> Qfloor x = k.
Proof.
  intros Hlo Hhi.
  pose proof (Qfloor_le x) as Hf1. pose proof (Qlt_floor x) as Hf2.
  rewrite inject_Z_plus in Hf2. change (inject_Z 1) with 1%Q in Hf2.
  assert (H1 : (inject_Z k < inject_Z (Qfloor x + 1))%Q).
  { rewrite inject_Z_plus. change (inject_Z 1) with 1%Q. lra. }
  assert (H2 : (inject_Z (Qfloor x) < inject_Z (k + 1))%Q).
  { rewrite inject_Z_plus. change (inject_Z 1) with 1%Q. lra. }
  rewrite <- Zlt_Qlt in H1, H2. lia.
Qed.

Lemma Qdiv_cross_le (a b c d : Z) :
  0 < b -> 0 < d -> a * d <= c * b ->
  (inject_Z a / inject_Z b <= inject_Z c / inject_Z d)%Q.
Proof.
  intros Hb Hd Hle.
  destruct b as [|b|b], d as [|d|d]; try lia.
  unfold Qle, Qdiv, Qmult, Qinv, inject_Z. simpl. rewrite !Pos.mul_1_l, ?Z.mul_1_r. lia.
Qed.

Lemma pow2_inv (j : Z) : 0 <= j -> (pow2 (- j) == 1 / inject_Z (2 ^ j))%Q.
Proof.
  intros Hj. unfold pow2. rewrite Qpower_opp. fold (pow2 j). rewrite (pow2_Z j Hj).
  unfold Qdiv. rewrite Qmult_1_l. reflexivity.
Qed.

Lemma grid_fraction (M j : Z) :
  0 <= j -> (inject_Z M * pow2 (- j) == inject_Z M / inject_Z (2 ^ j))%Q.
Proof.
  intros Hj. rewrite (pow2_inv j Hj). unfold Qdiv. rewrite Qmult_1_l. reflexivity.
Qed.

Lemma grid_finite (M p : Z) :
  0 < M < 2 ^ 53 -> p <= 0 -> (inject_Z M * pow2 p < pow2 1024)%Q.
Proof.
  intros HM Hp.
  assert (H1 : (inject_Z M < pow2 53)%Q).
  { rewrite (pow2_Z 53) by lia. rewrite <- Zlt_Qlt. lia. }
  assert (H2 : (pow2 p <= pow2 0)%Q) by (apply pow2_le; exact Hp).
  assert (H3 : (pow2 53 < pow2 1024)%Q) by (apply pow2_lt; lia).
  pose proof (pow2_pos p) as H4. rewrite pow2_0 in H2.
  assert (H5 : (0 < inject_Z M)%Q) by (rewrite <- (Zlt_Qlt 0); lia).
  assert (H6 : (inject_Z M * pow2 p <= inject_Z M * 1)%Q).
  { apply Qmult_le_l; assumption. }
  lra.
Qed.

(** Rounding keeps a value between the integers around it. *)
Lemma b64_between (q : Q) (a b : Z) :
  0 <= a -> b < 2 ^ 53 -> (inject_Z a <= q)%Q -> (q <= inject_Z b)%Q ->
  exists r, b64 q = Fin r /\ (inject_Z a <= r)%Q /\ (r <= inject_Z b)%Q.
Proof.
  intros Ha Hb Hlo Hhi.
  assert (Ha0 : (0 <= inject_Z a)%Q) by (rewrite <- (Zle_Qle 0); exact Ha).
  destruct (Qlt_le_dec 0 q) as [Hq | Hq].
  - assert (Hb0 : 0 < b).
    { rewrite (Zlt_Qlt 0). change (inject_Z 0) with 0%Q. lra. }
    assert (HM : 0 < b < 2 ^ 53) by lia.
    assert (Eb : (inject_Z b * pow2 0 == inject_Z b)%Q) by (rewrite pow2_0; ring).
    destruct (b64_below q b 0 Hq HM ltac:(lia)) as (r & Hr & Hr0 & Hrb).
    { rewrite Eb. exact Hhi. }
    { apply grid_finite; [exact HM | lia]. }
    exists r. split; [exact Hr |]. rewrite Eb in Hrb. split; [| exact Hrb].
    destruct (Z.eq_dec a 0) as [-> | Hna]; [exact Hr0 |].
    assert (HA : 0 < a < 2 ^ 53).
    { split; [lia |]. rewrite Zle_Qle in Ha. rewrite Zlt_Qlt.
      assert (inject_Z b < inject_Z (2 ^ 53))%Q by (rewrite <- Zlt_Qlt; lia). lra. }
    assert (Ea : (inject_Z a * pow2 0 == inject_Z a)%Q) by (rewrite pow2_0; ring).
    rewrite <- Ea. apply (b64_above q r a 0 Hr HA ltac:(lia)). rewrite Ea. exact Hlo.
  - assert (E : (q == 0)%Q) by lra.
    exists 0%Q. split; [apply b64_zero; exact E |]. split; lra.
Qed.

End Quotients.
Section IntegerQuotients.

Lemma Qfloor_half_quotient (T n : Z) :
  0 < n -> Qfloor (inject_Z T / inject_Z n + (1 # 2)) = (2 * T + n) / (2 * n).
Proof.
  intros Hn. destruct n as [|n|n]; try lia.
  assert (E : (inject_Z T / inject_Z (Z.pos n) + (1 # 2)
               == (2 * T + Z.pos n) # (2 * n))%Q).
  { unfold Qeq, Qdiv, Qmult, Qinv, Qplus, inject_Z. simpl.
    rewrite !Pos.mul_1_l, !Pos2Z.inj_mul. ring. }
  rewrite (Qfloor_comp _ _ E). reflexivity.
Qed.

(** The quotient of two integers, rounded to binary64 and then to an
    integer, is their exact quotient rounded to an integer. *)
Lemma round_div64_integers (T n : Z) :
  0 <= T -> 1 <= n -> T + n <= 2 ^ 51 ->
  Math_round (div64 (of_Z T) (of_Z n))
  = of_Z (Qfloor (inject_Z T / inject_Z n + (1 # 2))).
Proof.
  intros HT Hn Hsize. unfold div64, of_Z.
  assert (Hnz : Qeq_bool (inject_Z n) 0 = false).
  { apply not_true_is_false. intros Heq. apply Qeq_bool_eq in Heq.
    unfold Qeq in Heq. simpl in Heq. lia. }
  rewrite Hnz.
  assert (Hn0 : (0 < inject_Z n)%Q).
  { rewrite <- (Zlt_Qlt 0). lia. }
  destruct (Z.eq_dec T 0) as [-> | HT0].
  { assert (E : (inject_Z 0 / inject_Z n == 0)%Q).
    { unfold Qdiv. change (inject_Z 0) with 0%Q. ring. }
    rewrite (b64_zero _ E). unfold Math_round, of_Z. do 2 f_equal.
    apply Qfloor_comp. rewrite E. reflexivity. }
  set (q := (inject_Z T / inject_Z n)%Q).
  set (k := Qfloor (q + (1 # 2))).
  assert (Ek : k = (2 * T + n) / (2 * n)) by (apply Qfloor_half_quotient; lia).
  pose proof (Z.div_mod (2 * T + n) (2 * n) ltac:(lia)) as Hdm.
  pose proof (Z.mod_pos_bound (2 * T + n) (2 * n) ltac:(lia)) as Hmod.
  rewrite <- Ek in Hdm.
  assert (Hk1 : (2 * k - 1) * n <= 2 * T) by nia.
  assert (Hk2 : 2 * T + 1 <= (2 * k + 1) * n) by nia.
  assert (Hk0 : 0 <= k) by nia.
  assert (Hq : (0 < q)%Q).
  { unfold q. apply Qlt_shift_div_l; [exact Hn0 |].
    rewrite Qmult_0_l, <- (Zlt_Qlt 0). lia. }
  set (j := Z.log2_up n).
  assert (Hj0 : 0 <= j) by apply Z.log2_up_nonneg.
  assert (Hj : n <= 2 ^ j /\ 2 ^ j <= 2 * n).
  { destruct (Z.eq_dec n 1) as [-> | Hn1]; [subst j; vm_compute; split; discriminate |].
    pose proof (Z.log2_up_spec n ltac:(lia)) as [H1 H2]. fold j in H1, H2.
    split; [exact H2 |].
    replace j with (Z.succ (Z.pred j)) at 1 by lia.
    rewrite Z.pow_succ_r; [lia |].
    assert (0 < j); [| lia]. apply Z.log2_up_pos. lia. }
  assert (Hj51 : j <= 51).
  { unfold j. apply Z.log2_up_le_pow2; lia. }
  set (M := (2 * k + 1) * 2 ^ j - 1).
  assert (HM : 0 < M < 2 ^ 53).
  { unfold M. split; [nia |].
    assert ((2 * k + 1) * 2 ^ j <= (2 * k + 1) * (2 * n)) by nia.
    assert ((2 * k + 1) * n <= 2 * T + 2 * n) by nia.
    change (2 ^ 53) with (4 * 2 ^ 51). lia. }
  assert (Hj1 : 0 <= j + 1) by lia.
  assert (Hp2 : 0 < 2 ^ (j + 1)) by (apply Z.pow_pos_nonneg; lia).
  assert (E2 : 2 ^ (j + 1) = 2 * 2 ^ j) by (rewrite Z.pow_add_r by lia; lia).
  assert (Hup : (q <= inject_Z M * pow2 (- (j + 1)))%Q).
  { rewrite (grid_fraction M (j + 1) Hj1). unfold q.
    apply Qdiv_cross_le; [lia | lia |]. rewrite E2. unfold M. nia. }
  destruct (b64_below q M (- (j + 1)) Hq HM ltac:(lia) Hup) as (r & Hr & Hr0 & Hrup).
  { apply grid_finite; [exact HM | lia]. }
  rewrite Hr. unfold Math_round, of_Z. do 2 f_equal.
  fold k. apply Qfloor_unique.
  - destruct (Z.eq_dec k 0) as [Hz | Hz].
    + rewrite Hz. change (inject_Z 0) with 0%Q. lra.
    + assert (HM' : 0 < 2 * k - 1 < 2 ^ 53).
      { split; [lia |]. change (2 ^ 53) with (4 * 2 ^ 51). nia. }
      assert (Hlow : (inject_Z (2 * k - 1) * pow2 (- (1)) <= q)%Q).
      { rewrite (grid_fraction (2 * k - 1) 1 ltac:(lia)). unfold q.
        apply Qdiv_cross_le; [lia | lia |]. change (2 ^ 1) with 2. lia. }
      pose proof (b64_above q r (2 * k - 1) (- (1)) Hr HM' ltac:(lia) Hlow) as Hge.
      rewrite (grid_fraction (2 * k - 1) 1 ltac:(lia)) in Hge.
      change (2 ^ 1) with 2 in Hge.
      assert (E : (inject_Z (2 * k - 1) / inject_Z 2 == inject_Z k - (1 # 2))%Q).
      { unfold Zminus. rewrite inject_Z_plus, inject_Z_mult.
        change (inject_Z 2) with 2%Q. change (inject_Z (- (1))) with (- (1))%Q. field. }
      rewrite E in Hge. lra.
  - rewrite (grid_fraction M (j + 1) Hj1) in Hrup.
    assert (Hlt : (inject_Z M / inject_Z (2 ^ (j + 1)) < inject_Z k + (1 # 2))%Q).
    { assert (E : (inject_Z k + (1 # 2) == inject_Z (2 * k + 1) / inject_Z 2)%Q).
      { rewrite inject_Z_plus, inject_Z_mult.
        change (inject_Z 2) with 2%Q. change (inject_Z 1) with 1%Q. field. }
      rewrite E.
      apply Qlt_shift_div_l; [reflexivity |].
      assert (E3 : (inject_Z M / inject_Z (2 ^ (j + 1)) * inject_Z 2
                    == inject_Z M / inject_Z (2 ^ j))%Q).
      { rewrite E2, inject_Z_mult. change (inject_Z 2) with 2%Q. field.
        intros Hc. assert (Hpj : 0 < 2 ^ j) by (apply Z.pow_pos_nonneg; lia).
        rewrite (Zlt_Qlt 0) in Hpj. rewrite Hc in Hpj. discriminate Hpj. }
      change (inject_Z 2) with 2%Q. change 2%Q with (inject_Z 2) at 1. rewrite E3.
      apply Qlt_shift_div_r.
      { rewrite <- (Zlt_Qlt 0). apply Z.pow_pos_nonneg; lia. }
      rewrite <- inject_Z_mult, <- Zlt_Qlt. unfold M. lia. }
    lra.
Qed.

End IntegerQuotients.
Section Scaling.

Lemma pow2_m53 : (pow2 (-53) == 1 # 9007199254740992)%Q.
Proof. reflexivity. Qed.

Lemma pow2_m51 : (pow2 (-51) == 1 # 2251799813685248)%Q.
Proof. reflexivity. Qed.

Lemma pow2_m52 : (pow2 (-52) == 1 # 4503599627370496)%Q.
Proof. reflexivity. Qed.

Lemma b64_finite (q : Q) (p : Z) :
  (0 <= q)%Q -> -1074 <= p < 1024 -> (q <= pow2 p)%Q ->
  exists r, b64 q = Fin r /\ (0 <= r)%Q /\ (r <= pow2 p)%Q.
Proof.
  intros Hq Hp Hle.
  destruct (Qlt_le_dec 0 q) as [Hpos | Hz].
  - assert (E : (inject_Z 1 * pow2 p == pow2 p)%Q) by (change (inject_Z 1) with 1%Q; ring).
    destruct (b64_below q 1 p Hpos ltac:(lia) ltac:(lia)) as (r & Hr & H0 & H1).
    { rewrite E. exact Hle. }
    { rewrite E. apply pow2_lt. lia. }
    exists r. rewrite E in H1. auto.
  - exists 0%Q. split; [apply b64_zero; lra |].
    pose proof (pow2_pos p). split; lra.
Qed.

(** A value scaled by an integer factor and rounded: the result is the
    nearest integer up to the relative error of the two binary64
    roundings. *)
Lemma round_mul64_near (v : Q) (c : Z) :
  (0 <= v)%Q -> 1 <= c <= 2 ^ 30 -> (v * inject_Z c <= pow2 1000)%Q ->
  exists d k, b64 v = Fin d /\
    Math_round (mul64 (Fin d) (of_Z c)) = of_Z k /\
    (inject_Z k - v * inject_Z c <= (1 # 2) + v * inject_Z c * pow2 (-51))%Q /\
    (v * inject_Z c - inject_Z k <= (1 # 2) + v * inject_Z c * pow2 (-51))%Q.
Proof.
  intros Hv Hc Hx.
  set (C := inject_Z c) in *. set (x := (v * C)%Q) in *.
  assert (HC1 : (1 <= C)%Q).
  { unfold C. change 1%Q with (inject_Z 1). rewrite <- Zle_Qle. lia. }
  assert (HC30 : (C <= pow2 30)%Q).
  { unfold C. rewrite (pow2_Z 30) by lia. rewrite <- Zle_Qle. lia. }
  assert (Hvx : (v <= x)%Q).
  { unfold x. assert (H1 : (v * 1 <= v * C)%Q).
    { destruct (Qlt_le_dec 0 v) as [Hp | Hz].
      - apply Qmult_le_l; assumption.
      - assert (E : (v == 0)%Q) by lra. rewrite E. lra. }
    lra. }
  unfold mul64, of_Z. fold C.
  destruct (Qlt_le_dec v (pow2 (-1022))) as [Hsub | Hnorm].
  - (* below the normal range *)
    destruct (b64_finite v (-1022) Hv ltac:(lia) ltac:(lra)) as (d & Hd & Hd0 & Hd1).
    exists d, 0. split; [exact Hd |].
    assert (Hy0 : (0 <= d * C)%Q) by (apply Qmult_le_0_compat; lra).
    assert (Hmul : forall a, (0 <= a)%Q -> (a <= pow2 (-1022))%Q ->
                             (a * C <= pow2 (-992))%Q).
    { intros a Ha0 Ha1.
      assert (E : (pow2 (-992) == pow2 (-1022) * pow2 30)%Q).
      { rewrite <- pow2_plus. reflexivity. }
      rewrite E. apply Qmult_le_compat_nonneg; split; lra. }
    destruct (b64_finite (d * C) (-992) Hy0 ltac:(lia) (Hmul d Hd0 Hd1))
      as (m & Hm & Hm0 & Hm1).
    assert (Hsmall : (pow2 (-992) < pow2 (-2))%Q) by (apply pow2_lt; lia).
    assert (E2 : (pow2 (-2) == 1 # 4)%Q) by reflexivity.
    rewrite E2 in Hsmall.
    rewrite Hm. unfold Math_round, of_Z.
    split.
    { do 2 f_equal. apply Qfloor_unique; change (inject_Z 0) with 0%Q; lra. }
    pose proof (Hmul v Hv ltac:(lra)) as Hxs. fold x in Hxs.
    assert (Hx0 : (0 <= x)%Q) by lra.
    change (inject_Z 0) with 0%Q. rewrite pow2_m51. split; lra.
  - (* the normal range *)
    assert (Hvpos : (0 < v)%Q).
    { pose proof (pow2_pos (-1022)). lra. }
    destruct (b64_finite v 1000 Hv ltac:(lia) ltac:(lra)) as (d & Hd & Hd0 & Hd1).
    destruct (b64_err v d Hvpos Hnorm Hd) as [He1 He2].
    rewrite pow2_m53 in He1, He2.
    assert (Hdn : (pow2 (-1022) <= d)%Q).
    { assert (E : (inject_Z 1 * pow2 (-1022) == pow2 (-1022))%Q)
        by (change (inject_Z 1) with 1%Q; ring).
      rewrite <- E. apply (b64_above v d 1 (-1022) Hd); [lia | lia |].
      rewrite E. exact Hnorm. }
    assert (Hdpos : (0 < d)%Q) by (pose proof (pow2_pos (-1022)); lra).
    set (y := (d * C)%Q).
    assert (Hy1 : (x - x * (1 # 9007199254740992) <= y)%Q).
    { assert (E : (x - x * (1 # 9007199254740992)
                   == (v - v * (1 # 9007199254740992)) * C)%Q) by (unfold x; ring).
      rewrite E. unfold y. apply Qmult_le_compat_r; lra. }
    assert (Hy2 : (y <= x + x * (1 # 9007199254740992))%Q).
    { assert (E : (x + x * (1 # 9007199254740992)
                   == (v + v * (1 # 9007199254740992)) * C)%Q) by (unfold x; ring).
      rewrite E. unfold y. apply Qmult_le_compat_r; lra. }
    assert (Hypos : (0 < y)%Q).
    { unfold y. apply Qmult_lt_0_compat; lra. }
    assert (Hyn : (pow2 (-1022) <= y)%Q).
    { assert (H1 : (d * 1 <= d * C)%Q) by (apply Qmult_le_l; assumption).
      fold y in H1. lra. }
    assert (Hx0 : (0 < x)%Q) by lra.
    assert (Hy1001 : (y <= pow2 1001)%Q).
    { assert (E : (pow2 1001 == pow2 1000 * 2)%Q).
      { change 1001 with (1000 + 1). rewrite pow2_plus. reflexivity. }
      rewrite E. lra. }
    destruct (b64_finite y 1001 ltac:(lra) ltac:(lia) Hy1001) as (m & Hm & Hm0 & Hm1).
    destruct (b64_err y m Hypos Hyn Hm) as [Hm2 Hm3].
    rewrite pow2_m53 in Hm2, Hm3.
    exists d, (Qfloor (m + (1 # 2))). split; [exact Hd |].
    fold y. rewrite Hm. split; [reflexivity |].
    pose proof (Qfloor_le (m + (1 # 2))) as Hf1.
    pose proof (Qlt_floor (m + (1 # 2))) as Hf2.
    rewrite inject_Z_plus in Hf2. change (inject_Z 1) with 1%Q in Hf2.
    rewrite pow2_m51. split; lra.
Qed.

End Scaling.
Section RelativeError.

(** One rounding of a value that is zero or in the normal range. *)
Lemma b64_rel (t : Z) (q : Q) :
  -1022 <= t -> (0 <= q)%Q -> (q == 0)%Q \/ (pow2 t <= q)%Q -> (q <= pow2 1023)%Q ->
  exists r, b64 q = Fin r /\ (0 <= r)%Q /\ ((r == 0)%Q \/ (pow2 t <= r)%Q) /\
            (q - q * (1 # 9007199254740992) <= r)%Q /\
            (r <= q + q * (1 # 9007199254740992))%Q.
Proof.
  intros Ht Hq0 Hnorm Hfin.
  destruct (Qlt_le_dec 0 q) as [Hpos | Hz].
  - assert (Hqt : (pow2 t <= q)%Q) by (destruct Hnorm as [Hc | Hc]; [lra | exact Hc]).
    assert (Htn : (pow2 (-1022) <= pow2 t)%Q) by (apply pow2_le; exact Ht).
    destruct (b64_finite q 1023 Hq0 ltac:(lia) Hfin) as (r & Hr & Hr0 & _).
    destruct (b64_err q r Hpos ltac:(lra) Hr) as [He1 He2].
    rewrite pow2_m53 in He1, He2.
    exists r. split; [exact Hr |]. split; [exact Hr0 |].
    split; [| split; assumption].
    right.
    assert (E : (inject_Z 1 * pow2 t == pow2 t)%Q)
      by (change (inject_Z 1) with 1%Q; ring).
    rewrite <- E. apply (b64_above q r 1 t Hr); [lia | lia |]. rewrite E. exact Hqt.
  - assert (E : (q == 0)%Q) by lra.
    exists 0%Q. split; [apply b64_zero; exact E |].
    split; [lra |]. split; [left; reflexivity |]. rewrite E. split; lra.
Qed.

End RelativeError.
Section Sums.

Lemma Qsum_nonneg qs : Forall (fun q => (0 <= q)%Q) qs -> (0 <= Qsum qs)%Q.
Proof.
  induction 1 as [|q qs Hq _ IH]; [apply Qle_refl |].
  cbn [Qsum fold_right]. fold (Qsum qs). lra.
Qed.

(** The running sum stays within [2 * T * 2^-53] per term of the exact
    one, [T] being a bound of the total. *)
Lemma fold_left_add64_near (t : Z) (T : Q) qs :
  -1022 <= t -> (T <= pow2 1000)%Q ->
  Forall (fun q => (0 <= q)%Q /\ ((q == 0)%Q \/ (pow2 t <= q)%Q)) qs ->
  forall r0 S0 e : Q,
    (0 <= r0)%Q -> (r0 == 0)%Q \/ (pow2 t <= r0)%Q ->
    (0 <= S0)%Q -> (r0 - S0 <= e)%Q -> (S0 - r0 <= e)%Q ->
    (S0 + Qsum qs <= T)%Q ->
    (e + inject_Z (Z.of_nat (length qs)) * (T * (1 # 4503599627370496)) <= T)%Q ->
    exists r,
      fold_left add64 (List.map Fin qs) (Fin r0) = Fin r /\
      (0 <= r)%Q /\ ((r == 0)%Q \/ (pow2 t <= r)%Q) /\
      (r - (S0 + Qsum qs)
       <= e + inject_Z (Z.of_nat (length qs)) * (T * (1 # 4503599627370496)))%Q /\
      (S0 + Qsum qs - r
       <= e + inject_Z (Z.of_nat (length qs)) * (T * (1 # 4503599627370496)))%Q.
Proof.
  intros Ht HT Hall.
  induction Hall as [|q qs [Hq0 Hqn] Hall IH]; intros r0 S0 e Hr0 Hrn HS0 He1 He2 Hsum Herr.
  - unfold Qsum in *. cbn [List.map fold_left length fold_right Z.of_nat] in *.
    change (inject_Z (Z.of_nat 0)) with 0%Q in *.
    exists r0. split; [reflexivity |]. split; [exact Hr0 |]. split; [exact Hrn |].
    split; lra.
  - unfold Qsum in *. cbn [List.map fold_left fold_right] in *.
    rewrite length_cons, Nat2Z.inj_succ in *. unfold Z.succ in *.
    rewrite inject_Z_plus in *. change (inject_Z 1) with 1%Q in *.
    set (w := (T * (1 # 4503599627370496))%Q) in *.
    set (L := inject_Z (Z.of_nat (length qs))) in *.
    assert (HL : (0 <= L)%Q).
    { unfold L. rewrite <- (Zle_Qle 0). lia. }
    assert (Hqs : (0 <= fold_right Qplus 0 qs)%Q).
    { apply (Qsum_nonneg qs). eapply List.Forall_impl; [| exact Hall]. intros a Ha. apply Ha. }
    assert (HT0 : (0 <= T)%Q) by lra.
    assert (Hw : (0 <= w)%Q) by (unfold w; lra).
    assert (HLw : (0 <= L * w)%Q) by (apply Qmult_le_0_compat; assumption).
    assert (E : ((L + 1) * w == L * w + w)%Q) by ring.
    rewrite E in *.
    assert (HeT : (e <= T)%Q) by lra.
    assert (H1001 : (pow2 1000 * 2 == pow2 1001)%Q).
    { change 1001 with (1000 + 1). rewrite pow2_plus. reflexivity. }
    assert (H1023 : (pow2 1001 <= pow2 1023)%Q) by (apply pow2_le; lia).
    assert (Hy : (r0 + q <= 2 * T)%Q) by lra.
    destruct (b64_rel t (r0 + q) Ht ltac:(lra)) as (r1 & Hr1 & Hr10 & Hr1n & Ha & Hb).
    { destruct Hrn as [Hz | Hn].
      - destruct Hqn as [Hqz | Hqn]; [left; lra | right; lra].
      - right. lra. }
    { lra. }
    unfold add64 at 2. rewrite Hr1.
    destruct (IH r1 (S0 + q)%Q (e + w)%Q Hr10 Hr1n) as (r & Hr & Hr0' & Hrn' & Hc & Hd).
    + lra.
    + unfold w in *. lra.
    + unfold w in *. lra.
    + lra.
    + lra.
    + exists r. split; [exact Hr |]. split; [exact Hr0' |]. split; [exact Hrn' |].
      split; lra.
Qed.

End Sums.
(** ** The average *)

Section Average.

Lemma calculateAverageViews_unfold posts :
  calculateAverageViews posts =
  match List.filter (fun p => passes (viewsOf p)) posts with
  | [] => None
  | vs => Some (Math_round
                  (div64 (fold_left (fun sum p => add64 sum (Number (viewsOf p))) vs (Fin 0))
                         (of_Z (Z.of_nat (length vs)))))
  end.
Proof.
  destruct posts as [|p posts]; [reflexivity |].
  unfold calculateAverageViews, passes, viewsOf; cbv zeta.
  destruct (List.filter _ (p :: posts)); reflexivity.
Qed.

Lemma fold_left_map {A} (op : jsnum -> jsnum -> jsnum) (f : A -> jsnum) l a :
  fold_left (fun sum p => op sum (f p)) l a = fold_left op (List.map f l) a.
Proof.
  revert a; induction l as [|x l IH]; intros a; simpl; [reflexivity | apply IH].
Qed.

Lemma fold_left_add_Fin qs a :
  exists q, fold_left add (List.map Fin qs) (Fin a) = Fin q /\ (q == a + Qsum qs)%Q.
Proof.
  revert a; induction qs as [|x qs IH]; intros a; simpl.
  - exists a. split; [reflexivity | ring].
  - destruct (IH (Qred (a + x))) as (q & Hq & Heq).
    exists q. split; [exact Hq |].
    rewrite Heq, Qred_correct. ring.
Qed.

Lemma Qsum_integers zs : (Qsum (List.map inject_Z zs) == inject_Z (Zsum zs))%Q.
Proof.
  induction zs as [|z zs IH]; [reflexivity |].
  cbn [List.map Qsum Zsum fold_right]. fold (Qsum (List.map inject_Z zs)). fold (Zsum zs).
  rewrite IH, inject_Z_plus. reflexivity.
Qed.

(** Integers add up without rounding as long as the sum stays below
    2^53. *)
Lemma fold_left_add64_integers zs a :
  0 <= a -> Forall (fun z => 0 <= z) zs -> a + Zsum zs < 2 ^ 53 ->
  fold_left add64 (List.map of_Z zs) (of_Z a) = of_Z (a + Zsum zs).
Proof.
  intros Ha Hall. revert a Ha.
  induction Hall as [|z zs Hz Hall IH]; intros a Ha Hsum.
  - simpl. rewrite Z.add_0_r. reflexivity.
  - cbn [List.map fold_left Zsum fold_right] in *. fold (Zsum zs) in *.
    assert (Hzs : 0 <= Zsum zs).
    { clear -Hall. induction Hall as [|y ys Hy _ IHy]; simpl; [lia |].
      fold (Zsum ys). lia. }
    assert (Hstep : add64 (of_Z a) (of_Z z) = of_Z (a + z)).
    { unfold add64, of_Z.
      assert (E : (inject_Z a + inject_Z z == inject_Z (a + z))%Q)
        by (rewrite inject_Z_plus; reflexivity).
      rewrite (b64_comp _ _ E). apply b64_int. lia. }
    rewrite Hstep, IH by lia. f_equal. lia.
Qed.

Lemma Math_round_nearest (x : Q) :
  exists k, Math_round (Fin x) = of_Z k /\
            (inject_Z k - (1 # 2) <= x)%Q /\ (x < inject_Z k + (1 # 2))%Q.
Proof.
  exists (Qfloor (x + (1 # 2))). split; [reflexivity |].
  pose proof (Qfloor_le (x + (1 # 2))) as Hle.
  pose proof (Qlt_floor (x + (1 # 2))) as Hlt.
  rewrite inject_Z_plus in Hlt. change (inject_Z 1) with 1%Q in Hlt.
  split; lra.
Qed.

Lemma filter_nil_Forall {A} (f : A -> bool) l :
  List.filter f l = [] <-> Forall (fun x => f x = false) l.
Proof.
  induction l as [|x l IH]; simpl.
  - split; [constructor | reflexivity].
  - destruct (f x) eqn:E.
    + split; [discriminate | intros HF; inversion HF; congruence].
    + rewrite IH. split; [intros HF; constructor; assumption | intros HF; inversion HF; assumption].
Qed.

Lemma calculateAverageViews_null posts :
  calculateAverageViews posts = None <->
  Forall (fun p => passes (viewsOf p) = false) posts.
Proof.
  rewrite calculateAverageViews_unfold, <- filter_nil_Forall.
  destruct (List.filter _ posts); split; intros; congruence.
Qed.

(** The values that count are not negative. *)
Lemma counted_values posts qs :
  List.map (fun p => Number (viewsOf p)) (List.filter (fun p => passes (viewsOf p)) posts)
  = List.map Fin qs ->
  Forall (fun q => (0 <= q)%Q) qs.
Proof.
  assert (Hpass : Forall (fun p => passes (viewsOf p) = true)
                         (List.filter (fun p => passes (viewsOf p)) posts)).
  { apply List.Forall_forall. intros p Hp. apply filter_In in Hp. apply Hp. }
  revert qs. induction Hpass as [|p vs Hp _ IH]; intros [|q qs] Hmap;
    try discriminate; constructor.
  - cbn [List.map] in Hmap. injection Hmap as Hq _.
    unfold passes in Hp. rewrite Hq in Hp. simpl in Hp.
    apply Qle_bool_iff. exact Hp.
  - apply IH. cbn [List.map] in Hmap. injection Hmap as _ Hrest. exact Hrest.
Qed.

Lemma counted_integers posts zs :
  List.map (fun p => Number (viewsOf p)) (List.filter (fun p => passes (viewsOf p)) posts)
  = List.map of_Z zs ->
  Forall (fun z => 0 <= z) zs.
Proof.
  intros Hmap.
  assert (Hq : Forall (fun q => (0 <= q)%Q) (List.map inject_Z zs)).
  { apply (counted_values posts). rewrite Hmap, List.map_map. reflexivity. }
  apply List.Forall_forall. intros z Hz.
  rewrite (Zle_Qle 0). change (inject_Z 0) with 0%Q.
  rewrite List.Forall_forall in Hq. apply Hq, in_map, Hz.
Qed.

Lemma Zsum_nonneg zs : Forall (fun z => 0 <= z) zs -> 0 <= Zsum zs.
Proof.
  induction 1 as [|z zs Hz _ IH]; simpl; [lia |]. fold (Zsum zs). lia.
Qed.

(** With integer values whose sum stays below 2^53 the total is exact. *)
Lemma calculateAverageViews_total posts zs :
  List.map (fun p => Number (viewsOf p)) (List.filter (fun p => passes (viewsOf p)) posts)
  = List.map of_Z zs ->
  Zsum zs < 2 ^ 53 ->
  calculateAverageViews posts
  = match zs with
    | [] => None
    | _ => Some (Math_round (div64 (of_Z (Zsum zs)) (of_Z (Z.of_nat (length zs)))))
    end.
Proof.
  intros Hmap Hsize.
  pose proof (counted_integers posts zs Hmap) as Hpos.
  rewrite calculateAverageViews_unfold.
  assert (Hlen : length (List.filter (fun p => passes (viewsOf p)) posts) = length zs).
  { rewrite <- (length_map (fun p => Number (viewsOf p))), Hmap. apply length_map. }
  destruct (List.filter _ posts) as [|v vs] eqn:Ef.
  - destruct zs; [reflexivity | discriminate].
  - cbv zeta.
    rewrite (fold_left_map add64 (fun p => Number (viewsOf p))), Hmap, Hlen.
    change (Fin 0) with (of_Z 0).
    rewrite (fold_left_add64_integers zs 0 ltac:(lia) Hpos Hsize), Z.add_0_l.
    destruct zs; [discriminate | reflexivity].
Qed.

Lemma calculateAverageViews_integers posts zs :
  List.map (fun p => Number (viewsOf p)) (List.filter (fun p => passes (viewsOf p)) posts)
  = List.map of_Z zs ->
  zs <> [] ->
  Zsum zs + Z.of_nat (length zs) <= 2 ^ 51 ->
  calculateAverageViews posts
  = Some (of_Z (Qfloor (inject_Z (Zsum zs) / inject_Z (Z.of_nat (length zs)) + (1 # 2)))).
Proof.
  intros Hmap Hne Hsize.
  pose proof (Zsum_nonneg zs (counted_integers posts zs Hmap)) as Hsum.
  assert (Hn : 1 <= Z.of_nat (length zs)) by (destruct zs; [congruence | simpl; lia]).
  assert (H53 : 2 ^ 51 < 2 ^ 53) by (apply Z.pow_lt_mono_r; lia).
  rewrite (calculateAverageViews_total posts zs Hmap) by lia.
  destruct zs as [|z zs]; [congruence |].
  f_equal. apply round_div64_integers; assumption.
Qed.

Lemma calculateAverageViews_rounded_mean posts zs :
  List.map (fun p => Number (viewsOf p)) (List.filter (fun p => passes (viewsOf p)) posts)
  = List.map of_Z zs ->
  zs <> [] ->
  Zsum zs + Z.of_nat (length zs) <= 2 ^ 51 ->
  exists k, calculateAverageViews posts = Some (of_Z k) /\
            (inject_Z k - (1 # 2)
             <= inject_Z (Zsum zs) / inject_Z (Z.of_nat (length zs)))%Q /\
            (inject_Z (Zsum zs) / inject_Z (Z.of_nat (length zs))
             < inject_Z k + (1 # 2))%Q.
Proof.
  intros Hmap Hne Hsize.
  rewrite (calculateAverageViews_integers posts zs Hmap Hne Hsize).
  destruct (Math_round_nearest (inject_Z (Zsum zs) / inject_Z (Z.of_nat (length zs))))
    as (k & Hk & H1 & H2).
  exists k. split; [| split; assumption].
  f_equal. exact Hk.
Qed.

(** In general the result is the rounded mean up to the error of the
    binary64 sum and quotient. *)
Lemma calculateAverageViews_near posts qs :
  List.map (fun p => Number (viewsOf p)) (List.filter (fun p => passes (viewsOf p)) posts)
  = List.map Fin qs ->
  qs <> [] ->
  Forall (fun q => (q == 0)%Q \/ (pow2 (-900) <= q)%Q) qs ->
  (Qsum qs <= pow2 1000)%Q ->
  Z.of_nat (length qs) <= 2 ^ 52 ->
  exists k : Z,
    calculateAverageViews posts = Some (of_Z k) /\
    (inject_Z k - Qsum qs / inject_Z (Z.of_nat (length qs))
     <= (1 # 2) + Qsum qs / inject_Z (Z.of_nat (length qs))
                  * inject_Z (Z.of_nat (length qs) + 1) * pow2 (-52))%Q /\
    (Qsum qs / inject_Z (Z.of_nat (length qs)) - inject_Z k
     <= (1 # 2) + Qsum qs / inject_Z (Z.of_nat (length qs))
                  * inject_Z (Z.of_nat (length qs) + 1) * pow2 (-52))%Q.
Proof.
  intros Hmap Hne Hnorm HT Hlen52.
  pose proof (counted_values posts qs Hmap) as Hpos.
  pose proof (Qsum_nonneg qs Hpos) as HT0.
  rewrite calculateAverageViews_unfold.
  assert (Hlen : length (List.filter (fun p => passes (viewsOf p)) posts) = length qs).
  { rewrite <- (length_map (fun p => Number (viewsOf p))), Hmap. apply length_map. }
  destruct (List.filter _ posts) as [|v vs] eqn:Ef.
  { destruct qs; [congruence | discriminate]. }
  cbv zeta. rewrite (fold_left_map add64 (fun p => Number (viewsOf p))), Hmap, Hlen.
  assert (Hn : 1 <= Z.of_nat (length qs)) by (destruct qs; [congruence | simpl; lia]).
  rewrite inject_Z_plus. change (inject_Z 1) with 1%Q.
  set (T := Qsum qs) in *. set (N := inject_Z (Z.of_nat (length qs))).
  assert (HN1 : (1 <= N)%Q).
  { unfold N. change 1%Q with (inject_Z 1). rewrite <- Zle_Qle. exact Hn. }
  assert (HN52 : (N <= 4503599627370496)%Q).
  { unfold N. change 4503599627370496%Q with (inject_Z (2 ^ 52)).
    rewrite <- Zle_Qle. exact Hlen52. }
  assert (HNc : (N * (1 # 4503599627370496) <= 1)%Q) by lra.
  assert (HNT : (N * (T * (1 # 4503599627370496)) <= T)%Q).
  { assert (E : (N * (T * (1 # 4503599627370496))
                 == T * (N * (1 # 4503599627370496)))%Q) by ring.
    rewrite E. rewrite <- (Qmult_1_r T) at 2.
    destruct (Qlt_le_dec 0 T) as [Hp | Hz].
    - apply Qmult_le_l; assumption.
    - assert (E0 : (T == 0)%Q) by lra. rewrite E0. lra. }
  assert (Hall : Forall (fun q => (0 <= q)%Q /\ ((q == 0)%Q \/ (pow2 (-900) <= q)%Q)) qs).
  { rewrite List.Forall_forall in Hpos, Hnorm. apply List.Forall_forall.
    intros q Hq. split; [apply Hpos, Hq | apply Hnorm, Hq]. }
  assert (Hz0 : (0 <= 0)%Q) by apply Qle_refl.
  assert (Hz1 : (0 - 0 <= 0)%Q) by lra.
  assert (Hz2 : (0 + T <= T)%Q) by lra.
  assert (Hz3 : (0 + N * (T * (1 # 4503599627370496)) <= T)%Q) by lra.
  destruct (fold_left_add64_near (-900) T qs ltac:(lia) HT Hall 0%Q 0%Q 0%Q
              Hz0 (or_introl (Qeq_refl 0)) Hz0 Hz1 Hz1 Hz2 Hz3)
    as (r & Hr & Hr0 & Hrn & Hr1 & Hr2).
  fold T in Hr1, Hr2. fold N in Hr1, Hr2.
  rewrite Hr. unfold div64, of_Z. fold N.
  assert (HN0 : (0 < N)%Q) by lra.
  assert (Hnz : Qeq_bool N 0 = false).
  { apply not_true_is_false. intros Heq. apply Qeq_bool_eq in Heq. lra. }
  rewrite Hnz.
  set (x := (r / N)%Q). set (mean := (T / N)%Q).
  assert (Ex : (x * N == r)%Q) by (unfold x; field; lra).
  assert (Em : (mean * N == T)%Q) by (unfold mean; field; lra).
  assert (Hx0 : (0 <= x)%Q).
  { unfold x. apply Qle_shift_div_l; [exact HN0 | lra]. }
  assert (Hm0 : (0 <= mean)%Q).
  { unfold mean. apply Qle_shift_div_l; [exact HN0 | lra]. }
  assert (Hxr : (x <= r)%Q).
  { unfold x. apply Qle_shift_div_r; [exact HN0 |].
    assert (r * 1 <= r * N)%Q; [| lra].
    destruct (Qlt_le_dec 0 r) as [Hp | Hz].
    - apply Qmult_le_l; assumption.
    - assert (E0 : (r == 0)%Q) by lra. rewrite E0. lra. }
  assert (Hmean : (T * (1 # 4503599627370496) <= mean)%Q).
  { rewrite <- Em.
    assert (E : (mean * N * (1 # 4503599627370496)
                 == mean * (N * (1 # 4503599627370496)))%Q) by ring.
    rewrite E. rewrite <- (Qmult_1_r mean) at 2.
    destruct (Qlt_le_dec 0 mean) as [Hp | Hz].
    - apply Qmult_le_l; assumption.
    - assert (E0 : (mean == 0)%Q) by lra. rewrite E0. lra. }
  assert (Hx1 : (x - mean <= T * (1 # 4503599627370496))%Q).
  { apply (Qmult_le_r _ _ N HN0).
    assert (E : ((x - mean) * N == r - T)%Q) by (rewrite <- Ex, <- Em; ring).
    rewrite E. lra. }
  assert (Hx2 : (mean - x <= T * (1 # 4503599627370496))%Q).
  { apply (Qmult_le_r _ _ N HN0).
    assert (E : ((mean - x) * N == T - r)%Q) by (rewrite <- Ex, <- Em; ring).
    rewrite E. lra. }
  assert (H1001 : (pow2 1000 * 2 == pow2 1001)%Q).
  { change 1001 with (1000 + 1). rewrite pow2_plus. reflexivity. }
  assert (H1023 : (pow2 1001 <= pow2 1023)%Q) by (apply pow2_le; lia).
  destruct (b64_rel (-952) x ltac:(lia) Hx0) as (m & Hm & Hm0' & _ & Hm1 & Hm2).
  { destruct Hrn as [Hz | Hrn].
    - left. unfold x. rewrite Hz. field. lra.
    - right. unfold x. apply Qle_shift_div_l; [exact HN0 |].
      assert (E : (pow2 (-900) == pow2 (-952) * 4503599627370496)%Q) by reflexivity.
      assert (Hp : (0 < pow2 (-952))%Q) by apply pow2_pos.
      assert (pow2 (-952) * N <= pow2 (-952) * 4503599627370496)%Q.
      { apply Qmult_le_l; assumption. }
      lra. }
  { lra. }
  rewrite Hm. unfold Math_round, of_Z.
  exists (Qfloor (m + (1 # 2))). split; [reflexivity |].
  pose proof (Qfloor_le (m + (1 # 2))) as Hf1.
  pose proof (Qlt_floor (m + (1 # 2))) as Hf2.
  rewrite inject_Z_plus in Hf2. change (inject_Z 1) with 1%Q in Hf2.
  assert (Etarget : (mean * (N + 1) * pow2 (-52)
                     == (T + mean) * (1 # 4503599627370496))%Q).
  { rewrite pow2_m52, <- Em. ring. }
  rewrite Etarget. split; lra.
Qed.

Lemma validViews_plain v :
  plain v ->
  Spec.validViews v = if passes v then Some (Number v) else None.
Proof.
  unfold Spec.validViews, Spec.numeric, passes.
  destruct v as [| |b|n|s]; simpl; try contradiction; try reflexivity.
  - destruct n; simpl; try reflexivity.
  - intros Hs.
    destruct (trim_chars (chars s)) eqn:Et; [contradiction |].
    destruct (string_to_number s); reflexivity.
Qed.

Lemma omap_validViews_plain posts :
  Forall (fun p => plain (viewsOf p)) posts ->
  omap (fun p => Spec.validViews (get p "views")) posts =
  List.map (fun p => Number (viewsOf p)) (List.filter (fun p => passes (viewsOf p)) posts).
Proof.
  induction 1 as [|p posts Hp _ IH]; [reflexivity |].
  cbn [omap list_omap List.filter]. fold (viewsOf p).
  rewrite (validViews_plain _ Hp).
  change (omap ?f posts) with (omap f posts) in IH.
  destruct (passes (viewsOf p)); simpl; rewrite <- IH; reflexivity.
Qed.

Lemma computeAverage_spec_integers posts zs :
  Forall (fun p => plain (viewsOf p)) posts ->
  List.map (fun p => Number (viewsOf p)) (List.filter (fun p => passes (viewsOf p)) posts)
  = List.map of_Z zs ->
  zs <> [] ->
  Spec.computeAverage_spec posts
  = Some (of_Z (Qfloor (inject_Z (Zsum zs) / inject_Z (Z.of_nat (length zs)) + (1 # 2)))).
Proof.
  intros Hplain Hmap Hne.
  unfold Spec.computeAverage_spec.
  rewrite (omap_validViews_plain _ Hplain), Hmap.
  destruct zs as [|z zs]; [congruence |].
  cbn [List.map]. rewrite <- (List.map_cons of_Z), length_map.
  unfold Spec.total.
  assert (Emap : List.map of_Z (z :: zs) = List.map Fin (List.map inject_Z (z :: zs)))
    by (rewrite List.map_map; reflexivity).
  rewrite Emap.
  destruct (fold_left_add_Fin (List.map inject_Z (z :: zs)) 0) as (q & -> & Hq).
  rewrite Qsum_integers, Qplus_0_l in Hq.
  unfold div, of_Z.
  assert (Hnz : Qeq_bool (inject_Z (Z.of_nat (length (z :: zs)))) 0 = false).
  { apply not_true_is_false. intros Heq. apply Qeq_bool_eq in Heq.
    unfold Qeq in Heq. simpl in Heq. lia. }
  rewrite Hnz. unfold Math_round, of_Z. do 3 f_equal.
  apply Qfloor_comp. rewrite Qred_correct, Hq. reflexivity.
Qed.

End Average.

(** C1 (as amended).  [calculateAverageViews] averages [Number(views)] over
    the entries whose coerced value is neither NaN nor negative, and is
    [null] exactly when no entry passes that test:
    [calculateAverageViews([])] is [null] and
    [calculateAverageViews([{views:100},{views:"bad"}])] is 100.  The sum
    and the quotient are binary64 operations.  When the values that count are
    integers whose sum and number add up to at most 2^51, the result is
    their mean rounded to the nearest integer, and on posts whose views are
    absent, numbers or non-blank strings it is the average of the
    specification.  For finite values in general (each zero or at least
    2^-900, their sum at most 2^1000, at most 2^52 of them) the result is an
    integer no farther from the mean than a half plus the mean times
    (n + 1) * 2^-52, [n] being the number of values.  Such a result need not
    be the rounded mean: with the views 9.7, 9.7 and 9.1 it is 10, and 9
    when 9.1 comes first, where the mean of these three values rounds
    to 9. *)
Theorem calculateAverageViews_coerced_mean :
  calculateAverageViews [] = None /\
  calculateAverageViews [object [("views", VNum (of_Z 100))];
                         object [("views", VStr "bad")]] = Some (of_Z 100) /\
  (forall posts : list obj,
     (calculateAverageViews posts = None <->
      Forall (fun p => passes (viewsOf p) = false) posts) /\
     (forall zs : list Z,
         List.map (fun p => Number (viewsOf p))
                  (List.filter (fun p => passes (viewsOf p)) posts) = List.map of_Z zs ->
         zs <> [] ->
         Zsum zs + Z.of_nat (length zs) <= 2 ^ 51 ->
         (exists k : Z,
             calculateAverageViews posts = Some (of_Z k) /\
             (inject_Z k - (1 # 2)
              <= inject_Z (Zsum zs) / inject_Z (Z.of_nat (length zs)))%Q /\
             (inject_Z (Zsum zs) / inject_Z (Z.of_nat (length zs))
              < inject_Z k + (1 # 2))%Q) /\
         (Forall (fun p => plain (viewsOf p)) posts ->
          calculateAverageViews posts = Spec.computeAverage_spec posts)) /\
     (forall qs : list Q,
         List.map (fun p => Number (viewsOf p))
                  (List.filter (fun p => passes (viewsOf p)) posts) = List.map Fin qs ->
         qs <> [] ->
         Forall (fun q => (q == 0)%Q \/ (pow2 (-900) <= q)%Q) qs ->
         (Qsum qs <= pow2 1000)%Q ->
         Z.of_nat (length qs) <= 2 ^ 52 ->
         exists k : Z,
           calculateAverageViews posts = Some (of_Z k) /\
           (inject_Z k - Qsum qs / inject_Z (Z.of_nat (length qs))
            <= (1 # 2) + Qsum qs / inject_Z (Z.of_nat (length qs))
                         * inject_Z (Z.of_nat (length qs) + 1) * pow2 (-52))%Q /\
           (Qsum qs / inject_Z (Z.of_nat (length qs)) - inject_Z k
            <= (1 # 2) + Qsum qs / inject_Z (Z.of_nat (length qs))
                         * inject_Z (Z.of_nat (length qs) + 1) * pow2 (-52))%Q)) /\
  calculateAverageViews [viewsText "9.7"; viewsText "9.7"; viewsText "9.1"]
  = Some (of_Z 10) /\
  calculateAverageViews [viewsText "9.1"; viewsText "9.7"; viewsText "9.7"]
  = Some (of_Z 9) /\
  Spec.computeAverage_spec [viewsText "9.7"; viewsText "9.7"; viewsText "9.1"]
  = Some (of_Z 9).
Proof.
  split; [reflexivity |].
  split; [vm_compute; reflexivity |].
  split.
  - intros posts. split; [apply calculateAverageViews_null |].
    split.
    + intros zs Hmap Hne Hsize.
      split; [apply calculateAverageViews_rounded_mean; assumption |].
      intros Hplain.
      rewrite (calculateAverageViews_integers posts zs Hmap Hne Hsize).
      symmetry. apply computeAverage_spec_integers; assumption.
    + apply calculateAverageViews_near.
  - repeat split; vm_compute; reflexivity.
Qed.

Lemma calculateAverageViews_coerced_mean_witness :
  calculateAverageViews [post100; postBad; post201] =
  Spec.computeAverage_spec [post100; postBad; post201] /\
  exists k : Z,
    calculateAverageViews [post100; postBad; post201] = Some (of_Z k) /\
    (inject_Z k - (1 # 2) <= inject_Z (Zsum [100; 201]%Z) / inject_Z 2)%Q /\
    (inject_Z (Zsum [100; 201]%Z) / inject_Z 2 < inject_Z k + (1 # 2))%Q.
Proof.
  pose proof (proj1 (proj2 (proj2 calculateAverageViews_coerced_mean))
                    [post100; postBad; post201]) as (_ & Hmean & _).
  destruct (Hmean [100; 201]) as (Hk & Hplain).
  - vm_compute. reflexivity.
  - discriminate.
  - vm_compute. discriminate.
  - split; [| exact Hk].
    apply Hplain. repeat constructor; vm_compute; (exact I || discriminate).
Defined.

(** C1, the claim as worded fails: a post whose views value is [null] has no
    numeric value, yet it is averaged as a zero, so the result is 0 where the
    specification's average is [null]. *)
Lemma calculateAverageViews_counts_null_views :
  Spec.validViews (viewsOf postNullViews) = None /\
  Spec.computeAverage_spec [postNullViews] = None /\
  calculateAverageViews [postNullViews] = Some (of_Z 0).
Proof.
  repeat split; vm_compute; reflexivity.
Qed.

(** ** Reconciliation *)

Section Dedup.
Context `{Engine}.

Lemma fold_dedupStep S l acc :
  fold_left (dedupStep S) l acc =
  {| toAppend := toAppend acc
                 ++ List.filter (fun p => hasLink p
                                          && negb (bool_decide (postLinkOf p ∈ S))) l;
     toUpdate := toUpdate acc
                 ++ List.filter (fun p => hasLink p
                                          && bool_decide (postLinkOf p ∈ S)) l |}.
Proof.
  revert acc; induction l as [|p l IH]; intros [ap up]; simpl.
  - rewrite !app_nil_r. reflexivity.
  - rewrite IH. unfold dedupStep, hasLink.
    destruct (noLink (postLinkOf p)); simpl; [reflexivity |].
    destruct (bool_decide (postLinkOf p ∈ S)); simpl;
      rewrite <- ?app_assoc; reflexivity.
Qed.

Lemma known_iff (existing : list obj) (p : obj) :
  bool_decide (postLinkOf p ∈ (list_to_set (List.map postLinkOf existing)
                               : gset (option string)))
  = isKnown existing p.
Proof.
  unfold isKnown, existingKeys.
  apply bool_decide_ext.
  apply elem_of_list_to_set.
Qed.

Lemma deduplicatePosts_filters existing fresh :
  toAppend (deduplicatePosts existing fresh)
  = List.filter (fun p => hasLink p && negb (isKnown existing p)) fresh /\
  toUpdate (deduplicatePosts existing fresh)
  = List.filter (fun p => hasLink p && isKnown existing p) fresh.
Proof.
  unfold deduplicatePosts.
  destruct fresh as [|p fresh]; [split; reflexivity |].
  rewrite fold_dedupStep. cbn [toAppend toUpdate app].
  split; apply filter_ext; intros q; rewrite known_iff; reflexivity.
Qed.

Lemma filter_split_perm {A} (h k : A -> bool) l :
  Permutation (List.filter (fun x => h x && negb (k x)) l
               ++ List.filter (fun x => h x && k x) l)
              (List.filter h l).
Proof.
  induction l as [|x l IH]; simpl; [constructor |].
  destruct (h x), (k x); simpl; try exact IH.
  - symmetry. apply Permutation_cons_app. symmetry. exact IH.
  - constructor. exact IH.
Qed.

Lemma deduplicatePosts_members existing fresh :
  let d := deduplicatePosts existing fresh in
  (forall p : obj, p ∈ toAppend d <->
                   p ∈ fresh /\ hasLink p = true /\
                   postLinkOf p ∉ existingKeys existing) /\
  (forall p : obj, p ∈ toUpdate d <->
                   p ∈ fresh /\ hasLink p = true /\
                   postLinkOf p ∈ existingKeys existing) /\
  Permutation (toAppend d ++ toUpdate d) (List.filter hasLink fresh).
Proof.
  intros d. subst d.
  destruct (deduplicatePosts_filters existing fresh) as [HA HU].
  split; [| split].
  - intros p. rewrite HA, (list_elem_of_In _ p), filter_In, <- list_elem_of_In.
    rewrite andb_true_iff, negb_true_iff.
    unfold isKnown. rewrite bool_decide_eq_false. tauto.
  - intros p. rewrite HU, (list_elem_of_In _ p), filter_In, <- list_elem_of_In.
    rewrite andb_true_iff.
    unfold isKnown. rewrite bool_decide_eq_true. tauto.
  - rewrite HA, HU. apply filter_split_perm.
Qed.

Lemma same_raw_link_same_key (p e : obj) :
  get p "postLink" = get e "postLink" -> postLinkOf p = postLinkOf e.
Proof.
  unfold postLinkOf. intros ->. reflexivity.
Qed.

End Dedup.

(** C2.  [deduplicatePosts] splits the fresh posts that have a resolvable
    link: those whose trimmed link is among the existing posts' links go to
    [toUpdate], the others to [toAppend], each exactly once and in input
    order; no post of [toAppend] has a link occurring among the existing
    posts' links; a fresh post without a resolvable link is in neither list. *)
Theorem deduplicatePosts_partition `{Engine} (existing fresh : list obj) :
  let d := deduplicatePosts existing fresh in
  Forall (fun p => postLinkOf p ∉ existingKeys existing) (toAppend d) /\
  (forall p e : obj, p ∈ toAppend d -> e ∈ existing ->
                     get p "postLink" <> get e "postLink") /\
  toAppend d = List.filter (fun p => hasLink p && negb (isKnown existing p)) fresh /\
  toUpdate d = List.filter (fun p => hasLink p && isKnown existing p) fresh /\
  Permutation (toAppend d ++ toUpdate d) (List.filter hasLink fresh) /\
  (forall p : obj, p ∈ toUpdate d <->
                   p ∈ fresh /\ hasLink p = true /\ postLinkOf p ∈ existingKeys existing) /\
  (forall p : obj, p ∈ toAppend d <->
                   p ∈ fresh /\ hasLink p = true /\ postLinkOf p ∉ existingKeys existing) /\
  (forall p : obj, p ∈ fresh -> hasLink p = false -> (p ∉ toAppend d) /\ (p ∉ toUpdate d)).
Proof.
  intros d. subst d.
  destruct (deduplicatePosts_filters existing fresh) as [HA HU].
  destruct (deduplicatePosts_members existing fresh) as (Happ & Hupd & Hperm).
  split; [| split; [| split; [exact HA | split; [exact HU | split; [exact Hperm | split; [exact Hupd | split; [exact Happ |]]]]]]].
  - apply Forall_forall. intros p Hp. apply Happ in Hp. tauto.
  - intros p e Hp He Heq. apply Happ in Hp. destruct Hp as (_ & _ & Hn).
    apply Hn. unfold existingKeys. rewrite (same_raw_link_same_key _ _ Heq).
    apply list_elem_of_In, in_map, list_elem_of_In. exact He.
  - intros p Hin Hl. split; intros Hc; [apply Happ in Hc | apply Hupd in Hc];
      destruct Hc as (_ & Hl' & _); congruence.
Qed.

Lemma deduplicatePosts_partition_witness :
  let d := deduplicatePosts (H := RefEngine.engine) [linkA] [linkA'; linkB; noLinkPost] in
  toUpdate d = [linkA'] /\ toAppend d = [linkB] /\
  get linkB "postLink" <> get linkA "postLink" /\
  (noLinkPost ∉ toAppend d) /\ (noLinkPost ∉ toUpdate d).
Proof.
  pose proof (deduplicatePosts_partition (H := RefEngine.engine)
                [linkA] [linkA'; linkB; noLinkPost])
    as (_ & Hraw & HA & HU & _ & _ & _ & Hdrop).
  cbv zeta.
  split; [rewrite HU; vm_compute; reflexivity |].
  split; [rewrite HA; vm_compute; reflexivity |].
  split.
  - apply Hraw.
    + rewrite HA. vm_compute. apply list_elem_of_here.
    + apply list_elem_of_here.
  - apply Hdrop.
    + do 2 apply list_elem_of_further. apply list_elem_of_here.
    + vm_compute. reflexivity.
Defined.

Section DedupKeys.
Context `{Engine}.

Lemma linkKeys_app l k : linkKeys (l ++ k) = linkKeys l ++ linkKeys k.
Proof.
  unfold linkKeys. rewrite List.filter_app, map_app. reflexivity.
Qed.

Lemma linkKeys_filtered (g : obj -> bool) l :
  (forall p, g p = true -> hasLink p = true) ->
  linkKeys (List.filter g l) = List.map postLinkOf (List.filter g l).
Proof.
  intros Hg. unfold linkKeys. f_equal.
  induction l as [|p l IH]; simpl; [reflexivity |].
  destruct (g p) eqn:Eg; simpl; [rewrite (Hg _ Eg), IH; reflexivity | exact IH].
Qed.

Lemma linkKeys_filter_NoDup (g : obj -> bool) l :
  NoDup (linkKeys l) -> NoDup (linkKeys (List.filter g l)).
Proof.
  unfold linkKeys. induction l as [|p l IH]; simpl; [trivial |].
  destruct (hasLink p) eqn:Eh, (g p) eqn:Eg; simpl; rewrite ?Eh; simpl;
    try (intros Hnd; apply NoDup_cons in Hnd; destruct Hnd as [Hnotin Hnd]);
    try exact IH; try (apply IH; assumption).
  apply NoDup_cons. split; [| apply IH; assumption].
  intros Hin. apply Hnotin.
  apply list_elem_of_In, in_map_iff in Hin. destruct Hin as (q & Hq & Hin).
  apply list_elem_of_In, in_map_iff. exists q. split; [exact Hq |].
  apply filter_In in Hin. destruct Hin as [Hin Hh].
  apply filter_In in Hin. destruct Hin as [Hin _].
  apply filter_In. split; assumption.
Qed.

Lemma linkKeys_subset (g : obj -> bool) l x :
  x ∈ linkKeys (List.filter g l) ->
  exists e, e ∈ l /\ g e = true /\ postLinkOf e = x.
Proof.
  unfold linkKeys. intros Hin.
  apply list_elem_of_In, in_map_iff in Hin. destruct Hin as (e & He & Hin).
  apply filter_In in Hin. destruct Hin as [Hin _].
  apply filter_In in Hin. destruct Hin as [Hin Hg].
  exists e. split; [apply list_elem_of_In; exact Hin | split; assumption].
Qed.

End DedupKeys.

(** C8 (as amended).  When the fresh posts carry pairwise distinct
    resolvable links, and so do the existing posts, the posts to append, the
    posts to update and the existing posts that no update replaces carry
    pairwise distinct links. *)
Theorem deduplicatePosts_unique_links `{Engine} (existing fresh : list obj) :
  NoDup (linkKeys fresh) ->
  NoDup (linkKeys existing) ->
  let d := deduplicatePosts existing fresh in
  NoDup (linkKeys (toAppend d ++ toUpdate d ++ untouched existing d)).
Proof.
  intros Hfresh Hexisting d.
  destruct (deduplicatePosts_filters existing fresh) as [HA HU].
  destruct (deduplicatePosts_members existing fresh) as (Happ & _ & Hperm).
  fold d in HA, HU, Hperm, Happ.
  assert (HkA : linkKeys (toAppend d) = List.map postLinkOf (toAppend d)).
  { rewrite HA. apply linkKeys_filtered. intros p Hp.
    apply andb_true_iff in Hp. tauto. }
  assert (HkU : linkKeys (toUpdate d) = List.map postLinkOf (toUpdate d)).
  { rewrite HU. apply linkKeys_filtered. intros p Hp.
    apply andb_true_iff in Hp. tauto. }
  rewrite app_assoc, linkKeys_app.
  apply NoDup_app. split; [| split].
  - rewrite linkKeys_app, HkA, HkU, <- map_app.
    assert (Hp : List.map postLinkOf (toAppend d ++ toUpdate d) ≡ₚ linkKeys fresh)
      by (apply Permutation_map; exact Hperm).
    rewrite Hp. exact Hfresh.
  - intros x Hx Hunt.
    apply linkKeys_subset in Hunt. destruct Hunt as (e & He & Hg & <-).
    rewrite linkKeys_app in Hx. apply elem_of_app in Hx. destruct Hx as [Hx | Hx].
    + rewrite HkA in Hx.
      apply list_elem_of_In, in_map_iff in Hx. destruct Hx as (p & Hp & Hin).
      apply list_elem_of_In, Happ in Hin. destruct Hin as (_ & _ & Hnot).
      apply Hnot. rewrite Hp. unfold existingKeys.
      apply list_elem_of_In, in_map, list_elem_of_In. exact He.
    + apply negb_true_iff, bool_decide_eq_false in Hg. contradiction.
  - apply linkKeys_filter_NoDup. exact Hexisting.
Qed.

Lemma deduplicatePosts_unique_links_witness :
  let d := deduplicatePosts (H := RefEngine.engine) [linkA] [linkA'; linkB; noLinkPost] in
  NoDup (linkKeys (H := RefEngine.engine)
                  (toAppend d ++ toUpdate d ++ untouched (H := RefEngine.engine) [linkA] d)).
Proof.
  apply (deduplicatePosts_unique_links (H := RefEngine.engine)
           [linkA] [linkA'; linkB; noLinkPost]).
  - vm_compute. repeat constructor; intros Hin;
      repeat (apply elem_of_cons in Hin; destruct Hin as [Hin | Hin]; [discriminate |]);
      inversion Hin.
  - vm_compute. repeat constructor; intros Hin; inversion Hin.
Defined.

(** C8, the claim as worded fails: two fresh posts with the same link and no
    existing post both go to [toAppend]. *)
Lemma deduplicatePosts_keeps_fresh_duplicates :
  let d := deduplicatePosts (H := RefEngine.engine) [] [linkB; linkB] in
  toAppend d = [linkB; linkB] /\
  ~ NoDup (linkKeys (H := RefEngine.engine)
                    (toAppend d ++ toUpdate d ++ untouched (H := RefEngine.engine) [] d)).
Proof.
  split; [vm_compute; reflexivity |].
  vm_compute. intros Hnd. apply NoDup_cons in Hnd. destruct Hnd as [Hnotin _].
  apply Hnotin. apply list_elem_of_here.
Qed.

(** ** Recency selection *)

Section Sorting.
Context {A : Type} (cmp : A -> A -> jsnum).

Lemma sort_insert_perm x l : Permutation (sort_insert cmp x l) (x :: l).
Proof.
  induction l as [|y l IH]; simpl; [reflexivity |].
  destruct (gt0 (cmp x y)); [| reflexivity].
  rewrite IH. apply perm_swap.
Qed.

Lemma Array_sort_perm l : Permutation (Array_sort cmp l) l.
Proof.
  induction l as [|x l IH]; simpl; [reflexivity |].
  rewrite sort_insert_perm, IH. reflexivity.
Qed.

(** A strict order leaves one way to sort a list. *)
Lemma sorted_perm_unique (R : A -> A -> Prop) (l1 l2 : list A) :
  (forall a b, R a b -> R b a -> False) ->
  StronglySorted R l1 -> StronglySorted R l2 -> Permutation l1 l2 -> l1 = l2.
Proof.
  intros Hasym. revert l2.
  induction l1 as [|a l1 IH]; intros l2 H1 H2 Hp.
  - apply Permutation_nil in Hp. congruence.
  - destruct l2 as [|b l2].
    { symmetry in Hp. apply Permutation_nil in Hp. discriminate. }
    apply StronglySorted_inv in H1. destruct H1 as [H1 Ha].
    apply StronglySorted_inv in H2. destruct H2 as [H2 Hb].
    assert (Heq : a = b).
    { assert (Hin : In a (b :: l2))
        by (eapply Permutation_in; [exact Hp | left; reflexivity]).
      assert (Hin' : In b (a :: l1))
        by (eapply Permutation_in; [symmetry; exact Hp | left; reflexivity]).
      destruct Hin as [-> | Hin]; [reflexivity |].
      destruct Hin' as [-> | Hin']; [reflexivity |].
      rewrite List.Forall_forall in Ha, Hb.
      exfalso. apply (Hasym a b); [apply Ha | apply Hb]; assumption. }
    subst b. f_equal. apply IH; try assumption.
    eapply Permutation_cons_inv. exact Hp.
Qed.

End Sorting.

Section Recency.
Context `{Engine}.

Lemma gt0_of_Z z : gt0 (of_Z z) = (0 <? z).
Proof.
  unfold gt0, of_Z, Qle_bool, inject_Z. simpl.
  rewrite Z.mul_1_r. rewrite Z.ltb_antisym. reflexivity.
Qed.

Lemma byDateDesc_dated x y :
  dated x -> dated y -> gt0 (byDateDesc x y) = (stamp x <? stamp y).
Proof.
  unfold dated, stamp, timeOf, byDateDesc. intros [tx Hx] [ty Hy].
  rewrite Hx, Hy. unfold Date_sub, default, id. rewrite gt0_of_Z.
  destruct (Z.ltb_spec 0 (ty - tx)), (Z.ltb_spec tx ty); try reflexivity; lia.
Qed.

Lemma sort_insert_sorted x l :
  dated x -> Forall dated l ->
  StronglySorted notOlder l -> StronglySorted notOlder (sort_insert byDateDesc x l).
Proof.
  intros Hx Hl Hs. induction Hs as [|y l Hs IH Hy]; simpl.
  - repeat constructor.
  - apply Forall_cons in Hl. destruct Hl as [Hdy Hl].
    rewrite (byDateDesc_dated _ _ Hx Hdy).
    destruct (Z.ltb_spec (stamp x) (stamp y)) as [Hlt | Hge].
    + constructor; [apply IH; exact Hl |].
      rewrite (sort_insert_perm byDateDesc x l).
      constructor; [unfold notOlder; lia | exact Hy].
    + constructor; [constructor; assumption |].
      constructor; [exact Hge |].
      eapply List.Forall_impl; [| exact Hy].
      unfold notOlder. intros z Hz. lia.
Qed.

Lemma Array_sort_sorted l :
  Forall dated l -> StronglySorted notOlder (Array_sort byDateDesc l).
Proof.
  induction l as [|x l IH]; intros Hl; simpl; [constructor |].
  apply Forall_cons in Hl. destruct Hl as [Hx Hl].
  apply sort_insert_sorted; [exact Hx | | apply IH; exact Hl].
  rewrite (Array_sort_perm byDateDesc l). exact Hl.
Qed.

(** Posts of equal date keep their input order. *)
Lemma sort_insert_stable x l t :
  dated x -> Forall dated l ->
  List.filter (fun p => stamp p =? t) (sort_insert byDateDesc x l)
  = List.filter (fun p => stamp p =? t) (x :: l).
Proof.
  intros Hx Hl. induction Hl as [|y l Hy Hl IH]; [reflexivity |].
  cbn [sort_insert]. rewrite (byDateDesc_dated _ _ Hx Hy).
  destruct (Z.ltb_spec (stamp x) (stamp y)) as [Hlt | Hge]; [| reflexivity].
  cbn [List.filter] in IH |- *. rewrite IH.
  destruct (Z.eqb_spec (stamp x) t), (Z.eqb_spec (stamp y) t); try reflexivity; lia.
Qed.

Lemma Array_sort_stable l t :
  Forall dated l ->
  List.filter (fun p => stamp p =? t) (Array_sort byDateDesc l)
  = List.filter (fun p => stamp p =? t) l.
Proof.
  induction l as [|x l IH]; intros Hl; [reflexivity |].
  apply Forall_cons in Hl. destruct Hl as [Hx Hl].
  cbn [Array_sort]. rewrite sort_insert_stable.
  - cbn [List.filter]. rewrite (IH Hl). reflexivity.
  - exact Hx.
  - rewrite (Array_sort_perm byDateDesc l). exact Hl.
Qed.

Lemma filterLast10Posts_unfold posts count :
  filterLast10Posts posts count
  = slice0 (Array_sort byDateDesc posts) (default 10 count).
Proof.
  destruct posts; [| reflexivity].
  unfold slice0. simpl. symmetry. apply firstn_nil.
Qed.

Lemma slice0_firstn {B} (l : list B) n :
  0 <= n -> slice0 l n = firstn (Z.to_nat n) l.
Proof.
  intros Hn. unfold slice0.
  destruct (Z.ltb_spec n 0); [lia |].
  destruct (Z.min_spec n (Z.of_nat (length l))) as [[_ ->] | [Hle ->]]; [reflexivity |].
  rewrite Nat2Z.id, firstn_all. symmetry. apply firstn_all2. lia.
Qed.

(** With pairwise distinct dates, descending order is strict. *)
Lemma sorted_strict l :
  NoDup (List.map stamp l) -> StronglySorted notOlder l ->
  StronglySorted (fun a b => stamp b < stamp a) l.
Proof.
  intros Hnd Hs. induction Hs as [|x l Hs IH Hx]; [constructor |].
  simpl in Hnd. apply NoDup_cons in Hnd. destruct Hnd as [Hnotin Hnd].
  constructor; [apply IH; exact Hnd |].
  rewrite List.Forall_forall in Hx. apply List.Forall_forall. intros y Hy.
  specialize (Hx y Hy). unfold notOlder in Hx.
  assert (stamp y <> stamp x); [| lia].
  intros Heq. apply Hnotin. rewrite <- Heq.
  apply list_elem_of_In, in_map. exact Hy.
Qed.

Lemma Array_sort_order_independent l l' :
  Permutation l l' -> Forall dated l -> NoDup (List.map stamp l) ->
  Array_sort byDateDesc l' = Array_sort byDateDesc l.
Proof.
  intros Hp Hd Hnd.
  assert (Hd' : Forall dated l') by (rewrite <- Hp; exact Hd).
  assert (Hnd' : NoDup (List.map stamp l'))
    by (rewrite <- (Permutation_map stamp Hp); exact Hnd).
  apply (sorted_perm_unique (fun a b => stamp b < stamp a)).
  - intros a b Hab Hba. lia.
  - apply sorted_strict; [| apply Array_sort_sorted; exact Hd'].
    rewrite (Permutation_map stamp (Array_sort_perm byDateDesc l')). exact Hnd'.
  - apply sorted_strict; [| apply Array_sort_sorted; exact Hd].
    rewrite (Permutation_map stamp (Array_sort_perm byDateDesc l)). exact Hnd.
  - rewrite !Array_sort_perm. symmetry. exact Hp.
Qed.

End Recency.

(** C3 (as amended).  [filterLast10Posts] returns the first N posts (N
    defaults to 10) of a rearrangement of its input, and returns a list on
    every input.  When every [postedDate] is a valid date the rearrangement
    is in descending date order with posts of equal date in input order, and
    when the dates are moreover pairwise distinct the result does not depend
    on the input order: posts dated D1 > D2 > D3 with N = 2 give exactly
    [D1, D2]. *)
Theorem filterLast10Posts_recency `{Engine} (posts : list obj) (count : option Z) :
  filterLast10Posts posts None = filterLast10Posts posts (Some 10) /\
  (exists sorted : list obj,
      Permutation sorted posts /\
      (Forall dated posts ->
       StronglySorted notOlder sorted /\
       forall t : Z, List.filter (fun p => stamp p =? t) sorted
                     = List.filter (fun p => stamp p =? t) posts) /\
      filterLast10Posts posts count = slice0 sorted (default 10 count) /\
      (0 <= default 10 count ->
       filterLast10Posts posts count = firstn (Z.to_nat (default 10 count)) sorted)) /\
  (forall posts' : list obj,
      Permutation posts posts' -> Forall dated posts -> NoDup (List.map stamp posts) ->
      filterLast10Posts posts' count = filterLast10Posts posts count) /\
  (forall a b c : obj,
      dated a -> dated b -> dated c ->
      stamp c < stamp b -> stamp b < stamp a ->
      Permutation posts [a; b; c] ->
      filterLast10Posts posts (Some 2) = [a; b]).
Proof.
  split; [reflexivity |].
  split; [| split].
  - exists (Array_sort byDateDesc posts).
    split; [apply Array_sort_perm |].
    split.
    { intros Hd. split; [apply Array_sort_sorted; exact Hd |].
      intros t. apply Array_sort_stable. exact Hd. }
    split; [apply filterLast10Posts_unfold |].
    intros Hn. rewrite filterLast10Posts_unfold. apply slice0_firstn. exact Hn.
  - intros posts' Hp Hd Hnd.
    rewrite !filterLast10Posts_unfold.
    rewrite (Array_sort_order_independent posts posts' Hp Hd Hnd). reflexivity.
  - intros a b c Ha Hb Hc Hcb Hba Hp.
    rewrite filterLast10Posts_unfold.
    assert (Hd : Forall dated [a; b; c]) by (repeat constructor; assumption).
    assert (Hnd : NoDup (List.map stamp [a; b; c])).
    { simpl. repeat (apply NoDup_cons; split); try apply NoDup_nil_2;
        rewrite ?elem_of_cons, ?elem_of_nil; lia. }
    symmetry in Hp.
    rewrite (Array_sort_order_independent [a; b; c] posts Hp Hd Hnd).
    simpl.
    rewrite (byDateDesc_dated _ _ Hb Hc).
    destruct (Z.ltb_spec (stamp b) (stamp c)); [lia |].
    simpl. rewrite (byDateDesc_dated _ _ Ha Hb).
    destruct (Z.ltb_spec (stamp a) (stamp b)); [lia |].
    reflexivity.
Qed.

Lemma filterLast10Posts_recency_witness :
  filterLast10Posts (H := RefEngine.engine) [postJan; postMar; postFeb] (Some 2)
  = [postMar; postFeb] /\
  filterLast10Posts (H := RefEngine.engine) [postFeb; postJan; postMar] (Some 2)
  = filterLast10Posts (H := RefEngine.engine) [postJan; postMar; postFeb] (Some 2).
Proof.
  pose proof (filterLast10Posts_recency (H := RefEngine.engine)
                [postJan; postMar; postFeb] (Some 2)) as (_ & _ & Horder & Hthree).
  split.
  - apply (Hthree postMar postFeb postJan);
      try (eexists; vm_compute; reflexivity);
      try (vm_compute; reflexivity).
    apply (Permutation_cons_append [postMar; postFeb] postJan).
  - apply Horder.
    + apply perm_trans with (l' := [postJan; postFeb; postMar]);
        [apply perm_skip, perm_swap |].
      apply perm_swap.
    + repeat constructor; eexists; vm_compute; reflexivity.
    + vm_compute. repeat (apply NoDup_cons; split); try apply NoDup_nil_2;
        rewrite ?elem_of_cons, ?elem_of_nil; intuition discriminate.
Defined.

(** C3, the claim as worded fails: a post without a date, or with one that
    does not parse, compares as equal to every other post and keeps its
    place, so it can be selected ahead of a dated post, and the selection
    then depends on the input order. *)
Lemma filterLast10Posts_undated_not_oldest :
  filterLast10Posts (H := RefEngine.engine) [undatedPost; postJan] (Some 1) = [undatedPost] /\
  filterLast10Posts (H := RefEngine.engine) [postJan; undatedPost] (Some 1) = [postJan] /\
  filterLast10Posts (H := RefEngine.engine) [garbledPost; postJan] (Some 1) = [garbledPost].
Proof.
  repeat split; vm_compute; reflexivity.
Qed.

(** ** The scraping job *)

Section JobFacts.
Context `{Engine}.

Lemma normalizePost_no_views now post u p :
  viewsOf (normalizePost now post u p) = VUndef.
Proof.
  unfold viewsOf, get, normalizePost.
  rewrite !lookup_insert_ne by discriminate.
  rewrite lookup_empty. reflexivity.
Qed.

Lemma normalizePost_keys now post u p :
  dom (normalizePost now post u p) = normalizedKeys.
Proof.
  unfold normalizePost, normalizedKeys.
  rewrite !dom_insert_L, dom_empty_L. set_solver.
Qed.

Lemma normalizePosts_no_views clock posts u p :
  Forall (fun q => viewsOf q = VUndef) (normalizePosts clock posts u p).
Proof.
  apply Forall_forall. intros q Hq.
  unfold normalizePosts in Hq.
  apply elem_of_lookup_imap in Hq. destruct Hq as (i & post & -> & _).
  apply normalizePost_no_views.
Qed.

Lemma In_slice0 {B} (l : list B) n x : In x (slice0 l n) -> In x l.
Proof.
  unfold slice0. intros Hin.
  rewrite <- (firstn_skipn (Z.to_nat (if n <? 0
                                       then Z.max (Z.of_nat (length l) + n) 0
                                       else Z.min n (Z.of_nat (length l)))) l).
  apply in_or_app. left. exact Hin.
Qed.

Lemma filterLast10Posts_subset posts count q :
  In q (filterLast10Posts posts count) -> In q posts.
Proof.
  rewrite filterLast10Posts_unfold. intros Hin.
  apply In_slice0 in Hin.
  eapply Permutation_in; [apply Array_sort_perm | exact Hin].
Qed.

Lemma average_of_normalized_null clock posts u p count :
  calculateAverageViews (filterLast10Posts (normalizePosts clock posts u p) count) = None.
Proof.
  apply calculateAverageViews_null.
  apply Forall_forall. intros q Hq.
  apply list_elem_of_In, filterLast10Posts_subset, list_elem_of_In in Hq.
  pose proof (normalizePosts_no_views clock posts u p) as Hall.
  rewrite Forall_forall in Hall. rewrite (Hall q Hq). reflexivity.
Qed.

Lemma processInfluencer_fetched getRecentPosts clock inf existingPosts sc posts :
  getScraperForPlatform (platform inf) = Ok sc ->
  getRecentPosts sc (username inf) postsToFetch = Ok (Some posts) ->
  posts <> [] ->
  let normalizedPosts := normalizePosts clock posts (username inf) (platform inf) in
  let d := deduplicatePosts
             (List.filter (fun q => strict_eq (get q "username") (username inf))
                          existingPosts)
             normalizedPosts in
  processInfluencer getRecentPosts clock inf existingPosts =
  {| o_username := username inf; o_platform := platform inf; success := true;
     o_error := None;
     averageViews := Some (calculateAverageViews
                             (filterLast10Posts normalizedPosts (Some 10)));
     postsCount := Z.of_nat (length posts);
     o_toAppend := toAppend d; o_toUpdate := toUpdate d |}.
Proof.
  intros Hsc Hfetch Hne. unfold processInfluencer.
  rewrite Hsc. cbn [andThen]. rewrite Hfetch. cbn [andThen].
  destruct posts; [congruence | reflexivity].
Qed.

Lemma processInfluencer_raises getRecentPosts clock inf existingPosts msg :
  raises getRecentPosts inf msg ->
  processInfluencer getRecentPosts clock inf existingPosts =
  failed (username inf) (platform inf) msg.
Proof.
  unfold processInfluencer.
  intros [(e & He & <-) | (sc & e & Hsc & He & <-)].
  - rewrite He. reflexivity.
  - rewrite Hsc. cbn [andThen]. rewrite He. reflexivity.
Qed.

Lemma processInfluencer_failure_shape getRecentPosts clock inf existingPosts :
  let r := processInfluencer getRecentPosts clock inf existingPosts in
  success r = false -> postsCount r = 0 /\ exists msg, o_error r = Some msg.
Proof.
  unfold processInfluencer.
  destruct (getScraperForPlatform (platform inf)) as [sc | e]; cbn [andThen].
  - destruct (getRecentPosts sc (username inf) postsToFetch) as [[[|q posts] |] | e];
      cbn [andThen]; simpl; intros Hs; try discriminate; split; eauto.
  - simpl. intros _. split; eauto.
Qed.

End JobFacts.

(** C4.  Whenever the scraper delivers a non-empty list of posts,
    [processInfluencer] reports success with [averageViews] equal to [null]:
    a normalized post has exactly the properties username, platform,
    postLink, postedDate, comments and likes, so [calculateAverageViews]
    finds no views value in the posts it is given. *)
Theorem processInfluencer_average_is_null `{Engine}
        (getRecentPosts : scraperId -> jsval -> Z -> result (option (list obj)))
        (clock : nat -> string) (inf : influencer) (existingPosts : list obj)
        (sc : scraperId) (posts : list obj) :
  getScraperForPlatform (platform inf) = Ok sc ->
  getRecentPosts sc (username inf) postsToFetch = Ok (Some posts) ->
  posts <> [] ->
  let r := processInfluencer getRecentPosts clock inf existingPosts in
  success r = true /\
  averageViews r = Some None /\
  Forall (fun q => dom q = normalizedKeys /\ q !! "views" = None)
         (normalizePosts clock posts (username inf) (platform inf)) /\
  calculateAverageViews
    (filterLast10Posts (normalizePosts clock posts (username inf) (platform inf)) (Some 10))
  = None.
Proof.
  intros Hsc Hfetch Hne r. subst r.
  rewrite (processInfluencer_fetched _ clock inf existingPosts sc posts Hsc Hfetch Hne).
  cbn [success averageViews].
  rewrite average_of_normalized_null.
  split; [reflexivity |]. split; [reflexivity |]. split; [| reflexivity].
  apply Forall_forall. intros q Hq.
  unfold normalizePosts in Hq.
  apply elem_of_lookup_imap in Hq. destruct Hq as (i & post & -> & _).
  split; [apply normalizePost_keys |].
  unfold normalizePost.
  rewrite !lookup_insert_ne by discriminate. apply lookup_empty.
Qed.

Lemma processInfluencer_average_is_null_witness :
  let r := processInfluencer (H := RefEngine.engine) fetchExample fixedClock bob [] in
  viewsOf tiktokRaw = VNum (of_Z 1200) /\
  success r = true /\ averageViews r = Some None.
Proof.
  pose proof (processInfluencer_average_is_null (H := RefEngine.engine)
                fetchExample fixedClock bob [] TikTokScraper [tiktokRaw]) as Hnull.
  destruct Hnull as (Hs & Ha & _); [reflexivity | reflexivity | discriminate |].
  cbv zeta. split; [vm_compute; reflexivity |]. split; assumption.
Defined.

Section RunFacts.
Context `{Engine}.

Lemma bind_lift_Ok {A B} (a : A) (k : A -> M B) : Eff.bind (lift (Ok a)) k = k a.
Proof.
  unfold Eff.bind, lift. destruct (k a). reflexivity.
Qed.


Lemma filter_partition_length {B} (f : B -> bool) l :
  (length (List.filter f l) + length (List.filter (fun x => negb (f x)) l))%nat = length l.
Proof.
  induction l as [|x l IH]; simpl; [reflexivity |].
  destruct (f x); simpl; lia.
Qed.

Lemma fold_postsCount_filter (l : list ScrapingJob.outcome) a :
  Forall (fun r => success r = false -> postsCount r = 0) l ->
  fold_left (fun sum r => sum + postsCount r) (List.filter success l) a
  = fold_left (fun sum r => sum + postsCount r) l a.
Proof.
  intros Hl. revert a. induction Hl as [|r l Hr _ IH]; intros a; simpl; [reflexivity |].
  destruct (success r) eqn:Es; simpl.
  - apply IH.
  - rewrite (Hr eq_refl), Z.add_0_r. apply IH.
Qed.

Lemma processAll_lookup fetchAt clockAt influencers existingPosts i inf :
  influencers !! i = Some inf ->
  processInfluencer (fetchAt i) (clockAt i) inf existingPosts
  ∈ processAll fetchAt clockAt influencers existingPosts.
Proof.
  intros Hi. unfold processAll. apply elem_of_lookup_imap. eauto.
Qed.

Lemma processAll_failure_shape fetchAt clockAt influencers existingPosts :
  Forall (fun r => success r = false -> postsCount r = 0)
         (processAll fetchAt clockAt influencers existingPosts).
Proof.
  apply Forall_forall. intros r Hr. unfold processAll in Hr.
  apply elem_of_lookup_imap in Hr. destruct Hr as (i & inf & -> & _).
  intros Hs. apply processInfluencer_failure_shape in Hs. tauto.
Qed.

(** The summary [run] builds from the per-identity results. *)
Lemma run_outcome reader writer fetchAt clockAt elapsed influencers existingPosts :
  readInfluencers reader = Ok influencers ->
  readExistingPosts reader = Ok existingPosts ->
  influencers <> [] ->
  (forall l, updateAverageViews writer l = Ok tt) ->
  (forall l, appendPosts writer l = Ok tt) ->
  (forall l, updateExistingPosts writer l = Ok tt) ->
  let results := processAll fetchAt clockAt influencers existingPosts in
  let ok := List.filter success results in
  let ko := List.filter (fun r => negb (success r)) results in
  Eff.outcome (run reader writer fetchAt clockAt elapsed) =
  Ok {| totalInfluencers := Z.of_nat (length influencers);
        successCount := Z.of_nat (length ok);
        failureCount := Z.of_nat (length ko);
        totalPosts := fold_left (fun sum r => sum + postsCount r) ok 0;
        newPosts := Z.of_nat (length (List.flat_map o_toAppend ok));
        updatedPosts := Z.of_nat (length (List.flat_map o_toUpdate ok));
        duration := (elapsed ++ "s")%string;
        errors := List.map (fun r => {| f_username := o_username r;
                                       f_platform := o_platform r;
                                       f_error := o_error r |}) ko |}.
Proof.
  intros Hr1 Hr2 Hne Hw1 Hw2 Hw3 results ok ko.
  unfold run. rewrite Hr1, Hr2, !bind_lift_Ok.
  destruct influencers as [|inf0 rest]; [congruence |].
  fold results. fold ok. fold ko.
  assert (Hwhen : forall b c, c = Ok tt -> when b c = Ok tt)
    by (intros [] c ->; reflexivity).
  rewrite (Hwhen _ _ (Hw1 _)), (Hwhen _ _ (Hw2 _)), (Hwhen _ _ (Hw3 _)).
  rewrite !bind_lift_Ok.
  match goal with
  | |- context [if ?b then _ else _] => destruct b
  end; reflexivity.
Qed.

End RunFacts.


(** ** Retrying requests *)

Section Traces.

Lemma bind_emit {B} ev (k : unit -> M B) :
  Eff.bind (emit ev) k = (ev :: trace (k tt), Eff.outcome (k tt)).
Proof.
  unfold Eff.bind, emit, trace, Eff.outcome. destruct (k tt). reflexivity.
Qed.

Lemma bind_log {B} l msg (k : unit -> M B) :
  Eff.bind (log l msg) k = (Log l msg :: trace (k tt), Eff.outcome (k tt)).
Proof.
  apply bind_emit.
Qed.

Lemma seq_shift_map {B} (f : nat -> B) n :
  List.map f (seq 1 n) = List.map (fun i => f (S i)) (seq 0 n).
Proof.
  rewrite <- seq_shift, List.map_map. reflexivity.
Qed.

Lemma requests_Request a t : requests (Request a :: t) = a :: requests t.
Proof. reflexivity. Qed.
Lemma requests_Log l m t : requests (Log l m :: t) = requests t.
Proof. reflexivity. Qed.
Lemma requests_Sleep d t : requests (Sleep d :: t) = requests t.
Proof. reflexivity. Qed.
Lemma sleeps_Request a t : sleeps (Request a :: t) = sleeps t.
Proof. reflexivity. Qed.
Lemma sleeps_Log l m t : sleeps (Log l m :: t) = sleeps t.
Proof. reflexivity. Qed.
Lemma sleeps_Sleep d t : sleeps (Sleep d :: t) = d :: sleeps t.
Proof. reflexivity. Qed.

End Traces.

Section RapidRetry.
Context {A : Type} (retryAttempts : Z) (platformName : string) (net : Z -> result A).

Lemma rapid_run fuel a :
  retryAttempts - a <= Z.of_nat fuel ->
  let c := RapidApiStrategy.makeRequest_fuel retryAttempts platformName net fuel a in
  exists n : nat,
    (forall j, a <= j < a + Z.of_nat n ->
               (exists e, net j = Throw e) /\ j < retryAttempts) /\
    ((exists d, net (a + Z.of_nat n) = Ok d) \/ retryAttempts <= a + Z.of_nat n) /\
    Eff.outcome c = net (a + Z.of_nat n) /\
    requests (trace c) = List.map (fun i => a + Z.of_nat i) (seq 0 (S n)) /\
    sleeps (trace c) = List.map (fun i => 1000 * 2 ^ (a + Z.of_nat i - 1)) (seq 0 n).
Proof.
  revert a. induction fuel as [|fuel IH]; intros a Hfuel c; subst c.
  - exists 0%nat. rewrite Z.add_0_r.
    cbn [RapidApiStrategy.makeRequest_fuel]. rewrite bind_emit.
    split; [intros j Hj; lia |].
    destruct (net a) as [d | e] eqn:Enet.
    + split; [left; eauto |]. repeat split; simpl; f_equal; lia.
    + split; [right; lia |].
      destruct (Z.leb_spec retryAttempts a); [| lia].
      rewrite bind_log. repeat split; simpl; f_equal; lia.
  - cbn [RapidApiStrategy.makeRequest_fuel]. rewrite bind_emit.
    destruct (net a) as [d | e] eqn:Enet.
    + exists 0%nat. rewrite Z.add_0_r.
      split; [intros j Hj; lia |]. split; [left; eauto |].
      rewrite Enet. repeat split; simpl; f_equal; lia.
    + destruct (Z.leb_spec retryAttempts a) as [Hlast | Hmore].
      * exists 0%nat. rewrite Z.add_0_r.
        split; [intros j Hj; lia |]. split; [right; lia |].
        rewrite Enet, bind_log. repeat split; simpl; f_equal; lia.
      * destruct (IH (a + 1)) as (n & Hprior & Hstop & Hout & Hreq & Hsl); [lia |].
        exists (S n).
        replace (a + Z.of_nat (S n)) with (a + 1 + Z.of_nat n) by lia.
        split.
        { intros j Hj. destruct (Z.eq_dec j a) as [-> | Hja]; [split; eauto |].
          apply Hprior. lia. }
        split; [exact Hstop |].
        rewrite bind_log, bind_emit.
        cbn [trace Eff.outcome fst snd].
        split; [exact Hout |]. split.
        { rewrite requests_Request, requests_Log, requests_Sleep, Hreq.
          change (seq 0 (S (S n))) with (0%nat :: seq 1 (S n)).
          cbn [List.map]. rewrite (seq_shift_map (fun i => a + Z.of_nat i) (S n)).
          f_equal; [lia |]. apply map_ext. intros i. lia. }
        { rewrite sleeps_Request, sleeps_Log, sleeps_Sleep, Hsl.
          change (seq 0 (S n)) with (0%nat :: seq 1 n).
          cbn [List.map].
          rewrite (seq_shift_map (fun i => 1000 * 2 ^ (a + Z.of_nat i - 1)) n).
          f_equal; [rewrite Z.add_0_r, Z.mul_comm; reflexivity |].
          apply map_ext. intros i. do 2 f_equal. lia. }
Qed.

End RapidRetry.

Section MetaRetry.
Context {A : Type} (platformName : string) (net : Z -> result A).

Lemma meta_run fuel a :
  MetaApiStrategy.maxRetries - a <= Z.of_nat fuel ->
  let c := MetaApiStrategy.makeRequest_fuel platformName net fuel a in
  exists n : nat,
    (forall j, a <= j < a + Z.of_nat n ->
               (exists e, net j = Throw e /\ retryable e = true)
               /\ j < MetaApiStrategy.maxRetries) /\
    requests (trace c) = List.map (fun i => a + Z.of_nat i) (seq 0 (S n)) /\
    sleeps (trace c) = List.map (fun i => 1000 * 2 ^ (a + Z.of_nat i - 1)) (seq 0 n) /\
    match net (a + Z.of_nat n) with
    | Ok d => Eff.outcome c = Ok d
    | Throw e =>
        (retryable e = false \/ MetaApiStrategy.maxRetries <= a + Z.of_nat n) /\
        exists e', Eff.outcome c = Throw e'
    end.
Proof.
  revert a. induction fuel as [|fuel IH]; intros a Hfuel c; subst c;
    cbn [MetaApiStrategy.makeRequest_fuel]; rewrite bind_log, bind_emit;
    cbn [trace Eff.outcome fst snd];
    rewrite requests_Log, requests_Request, sleeps_Log, sleeps_Request;
    (destruct (net a) as [d | e] eqn:Enet;
     [ exists 0%nat; rewrite Z.add_0_r, Enet;
       split; [intros j Hj; lia |]; repeat split; simpl; f_equal; lia
     | ]);
    unfold MetaApiStrategy.handleError; rewrite bind_log;
    cbn [trace Eff.outcome fst snd]; rewrite requests_Log, sleeps_Log;
    destruct (MetaApiStrategy.isTokenExpired e) eqn:Ete;
    try (exists 0%nat; rewrite Z.add_0_r, Enet;
         split; [intros j Hj; lia |];
         split; [simpl; f_equal; lia |]; split; [reflexivity |];
         split; [left; unfold retryable; rewrite Ete; reflexivity
                | eexists; reflexivity]);
    destruct (MetaApiStrategy.isInvalidParam e) eqn:Eip;
    try (exists 0%nat; rewrite Z.add_0_r, Enet;
         split; [intros j Hj; lia |];
         split; [simpl; f_equal; lia |]; split; [reflexivity |];
         split; [left; unfold retryable; rewrite Ete, Eip; reflexivity
                | eexists; reflexivity]);
    destruct (MetaApiStrategy.isPermissionError e) eqn:Epe;
    try (exists 0%nat; rewrite Z.add_0_r, Enet;
         split; [intros j Hj; lia |];
         split; [simpl; f_equal; lia |]; split; [reflexivity |];
         split; [left; unfold retryable; rewrite Ete, Eip, Epe; reflexivity
                | eexists; reflexivity]);
    destruct (Z.ltb_spec a MetaApiStrategy.maxRetries) as [Hmore | Hlast];
    cbn [andb];
    try (exists 0%nat; rewrite Z.add_0_r, Enet;
         split; [intros j Hj; lia |];
         split; [simpl; f_equal; lia |]; split; [reflexivity |];
         split; [right; lia | eexists; reflexivity]);
    destruct (MetaApiStrategy.isRateLimited e || MetaApiStrategy.isTimeout e) eqn:Ert;
    try (exists 0%nat; rewrite Z.add_0_r, Enet;
         split; [intros j Hj; lia |];
         split; [simpl; f_equal; lia |]; split; [reflexivity |];
         split; [left; unfold retryable; rewrite Ete, Eip, Epe, Ert; reflexivity
                | eexists; reflexivity]).
  - lia.
  - destruct (IH (a + 1)) as (n & Hprior & Hreq & Hsl & Hstop); [lia |].
    exists (S n).
    replace (a + Z.of_nat (S n)) with (a + 1 + Z.of_nat n) by lia.
    rewrite bind_log, bind_emit. cbn [trace Eff.outcome fst snd].
    rewrite requests_Log, requests_Sleep, sleeps_Log, sleeps_Sleep, Hreq, Hsl.
    split.
    { intros j Hj. destruct (Z.eq_dec j a) as [-> | Hja].
      - split; [| exact Hmore]. exists e. split; [exact Enet |].
        unfold retryable. rewrite Ete, Eip, Epe, Ert. reflexivity.
      - apply Hprior. lia. }
    split.
    { change (seq 0 (S (S n))) with (0%nat :: seq 1 (S n)).
      cbn [List.map]. rewrite (seq_shift_map (fun i => a + Z.of_nat i) (S n)).
      f_equal; [lia |]. apply map_ext. intros i. lia. }
    split; [| exact Hstop].
    change (seq 0 (S n)) with (0%nat :: seq 1 n).
    cbn [List.map].
    rewrite (seq_shift_map (fun i => 1000 * 2 ^ (a + Z.of_nat i - 1)) n).
    f_equal; [rewrite Z.add_0_r; reflexivity |].
    apply map_ext. intros i. do 2 f_equal. lia.
Qed.

End MetaRetry.

Lemma backoff_from_one n :
  List.map (fun i => 1000 * 2 ^ (1 + Z.of_nat i - 1)) (seq 0 n) = backoff n.
Proof.
  unfold backoff. apply map_ext. intros i. do 2 f_equal. lia.
Qed.

(** C5 (as amended).  Starting at attempt 1, [RapidApiStrategy.makeRequest]
    makes attempts 1, ..., k, with k at most the configured retry count (and
    at least one attempt), waits 1000, 2000, 4000, ... milliseconds between
    them, stops at the first success or at the last allowed attempt, and
    ends as that attempt ends: every failure before it is retried, whatever
    its kind.  [MetaApiStrategy.makeRequest] makes at most three attempts
    with the same waits, retries only failures that are rate limits (codes 4
    and 17) or timeouts, and stops at the first other failure. *)
Theorem makeRequest_retry_policy :
  (forall (A : Type) (retryAttempts : Z) (platformName : string) (net : Z -> result A),
      let c := RapidApiStrategy.makeRequest retryAttempts platformName net 1 in
      exists k : nat,
        (1 <= k)%nat /\ Z.of_nat k <= Z.max 1 retryAttempts /\
        (forall j : nat, (1 <= j < k)%nat -> exists e, net (Z.of_nat j) = Throw e) /\
        ((exists d, net (Z.of_nat k) = Ok d) \/ retryAttempts <= Z.of_nat k) /\
        Eff.outcome c = net (Z.of_nat k) /\
        requests (trace c) = attempts k /\
        sleeps (trace c) = backoff (k - 1)) /\
  (forall (A : Type) (platformName : string) (net : Z -> result A),
      let c := MetaApiStrategy.makeRequest platformName net 1 in
      exists k : nat,
        (1 <= k <= 3)%nat /\
        (forall j : nat, (1 <= j < k)%nat ->
                         exists e, net (Z.of_nat j) = Throw e /\ retryable e = true) /\
        requests (trace c) = attempts k /\
        sleeps (trace c) = backoff (k - 1) /\
        match net (Z.of_nat k) with
        | Ok d => Eff.outcome c = Ok d
        | Throw e => (retryable e = false \/ k = 3%nat) /\
                     exists e', Eff.outcome c = Throw e'
        end).
Proof.
  split.
  - intros A retryAttempts platformName net c. subst c.
    unfold RapidApiStrategy.makeRequest.
    destruct (rapid_run retryAttempts platformName net
                        (Z.to_nat (retryAttempts - 1)) 1)
      as (n & Hprior & Hstop & Hout & Hreq & Hsl); [lia |].
    exists (S n).
    replace (Z.of_nat (S n)) with (1 + Z.of_nat n) by lia.
    split; [lia |]. split.
    { destruct n as [|n]; [lia |].
      specialize (Hprior (Z.of_nat (S n)) ltac:(lia)). lia. }
    split.
    { intros j Hj. apply (Hprior (Z.of_nat j)). lia. }
    split; [exact Hstop |]. split; [exact Hout |]. split; [exact Hreq |].
    rewrite Hsl, backoff_from_one. f_equal. lia.
  - intros A platformName net c. subst c.
    unfold MetaApiStrategy.makeRequest.
    destruct (meta_run platformName net (Z.to_nat (MetaApiStrategy.maxRetries - 1)) 1)
      as (n & Hprior & Hreq & Hsl & Hstop); [unfold MetaApiStrategy.maxRetries; lia |].
    exists (S n).
    replace (Z.of_nat (S n)) with (1 + Z.of_nat n) by lia.
    unfold MetaApiStrategy.maxRetries in *.
    assert (Hk : (n <= 2)%nat).
    { destruct n as [|n]; [lia |].
      specialize (Hprior (Z.of_nat (S n)) ltac:(lia)). lia. }
    split; [lia |].
    split.
    { intros j Hj. apply (Hprior (Z.of_nat j)). lia. }
    split; [exact Hreq |].
    split; [rewrite Hsl, backoff_from_one; f_equal; lia |].
    destruct (net (1 + Z.of_nat n)); [exact Hstop |].
    destruct Hstop as [[Hr | Hl] He]; (split; [| exact He]); [left; exact Hr | right; lia].
Qed.

(** C5, the claim as worded fails: with three configured attempts the
    RapidAPI strategy retries a not-found failure twice, and the Graph API
    strategy, whose attempt count is fixed, does not retry a 5xx failure. *)
Lemma makeRequest_retries_not_found :
  terminal (httpError 404) = true /\
  (let c := RapidApiStrategy.makeRequest (A := unit) 3 "Instagram"
                                         (fun _ => Throw (httpError 404)) 1 in
   requests (trace c) = [1; 2; 3] /\ sleeps (trace c) = [1000; 2000]) /\
  transient (httpError 503) = true /\
  (let c := MetaApiStrategy.makeRequest (A := unit) "Instagram"
                                        (fun _ => Throw (httpError 503)) 1 in
   requests (trace c) = [1] /\ sleeps (trace c) = []).
Proof.
  repeat split; vm_compute; reflexivity.
Qed.

Lemma makeRequest_retry_policy_witness :
  let c := RapidApiStrategy.makeRequest 3 "Instagram" flakyNet 1 in
  Eff.outcome c = Ok tt /\ requests (trace c) = [1; 2] /\ sleeps (trace c) = [1000].
Proof.
  destruct (proj1 makeRequest_retry_policy unit 3 "Instagram"%string flakyNet)
    as (k & Hk & Hmax & Hprior & Hstop & Hout & Hreq & Hsl).
  cbv zeta. rewrite Hout, Hreq, Hsl.
  destruct k as [|[|[|[|k]]]].
  - lia.
  - destruct Hstop as [[d Hd] | Hlast]; [discriminate Hd | lia].
  - repeat split; reflexivity.
  - destruct (Hprior 2%nat) as [e He]; [lia | discriminate He].
  - lia.
Defined.

(** ** Fetching recent posts *)

Section Outcomes.

Lemma outcome_bind {A B} (c : M A) (k : A -> M B) :
  Eff.outcome (Eff.bind c k) =
  match Eff.outcome c with
  | Ok a => Eff.outcome (k a)
  | Throw e => Throw e
  end.
Proof.
  destruct c as [t [a | e]]; simpl; [destruct (k a) |]; reflexivity.
Qed.


Lemma outcome_try_catch {A} (c : M A) (h : JsError -> M A) :
  Eff.outcome (try_catch c h) =
  match Eff.outcome c with
  | Ok a => Ok a
  | Throw e => Eff.outcome (h e)
  end.
Proof.
  destruct c as [t [a | e]]; simpl; [| destruct (h e)]; reflexivity.
Qed.

Lemma trace_try_catch {A} (c : M A) (h : JsError -> M A) :
  trace (try_catch c h) =
  trace c ++ match Eff.outcome c with
             | Ok _ => []
             | Throw e => trace (h e)
             end.
Proof.
  destruct c as [t [a | e]]; simpl; [rewrite app_nil_r | destruct (h e)]; reflexivity.
Qed.

Lemma outcome_finally {A} (c : M A) (f : M unit) :
  Eff.outcome (finally c f) =
  match Eff.outcome f with
  | Ok _ => Eff.outcome c
  | Throw e => Throw e
  end.
Proof.
  destruct c as [t r], f as [t' [u | e]]; reflexivity.
Qed.


Lemma logged_app l t t' : logged l (t ++ t') = logged l t ++ logged l t'.
Proof.
  unfold logged. apply omap_app.
Qed.


Lemma scraping_handleError_ok platformName err username :
  exists i, Eff.outcome (ScrapingStrategy.handleError platformName err username) = Ok i.
Proof.
  unfold ScrapingStrategy.handleError.
  repeat match goal with
         | |- context [if ?b then _ else _] => destruct b
         end; rewrite bind_log; eexists; reflexivity.
Qed.

Lemma web_handleError_ok platformName err username :
  exists i, Eff.outcome (WebScraperStrategy.handleError platformName err username) = Ok i.
Proof.
  unfold WebScraperStrategy.handleError.
  repeat match goal with
         | |- context [if ?b then _ else _] => destruct b
         end; try apply scraping_handleError_ok;
    rewrite bind_log; eexists; reflexivity.
Qed.

Lemma web_cleanup_ok platformName br page :
  Eff.outcome (WebScraperStrategy.cleanup platformName br page) = Ok tt.
Proof.
  unfold WebScraperStrategy.cleanup.
  destruct page; [| reflexivity].
  rewrite outcome_try_catch, outcome_bind.
  destruct (WebScraperStrategy.connected br); simpl.
  - destruct (WebScraperStrategy.closePage br) as [[] | e]; simpl; [reflexivity |].
    destruct (_ && _); reflexivity.
  - reflexivity.
Qed.

End Outcomes.

Section FetchFacts.


Lemma base_body_throws st username count e :
  strategyThrows st username count e ->
  Eff.outcome (match BaseScraper.initialize st with
               | Some init => init
               | None => ret tt
               end ;;;
               posts <- BaseScraper.strategyPosts st username count ;;
               ret (default [] posts)) = Throw e.
Proof.
  intros [(init & Hi & He) | (Hinit & He)]; rewrite outcome_bind.
  - rewrite Hi, He. reflexivity.
  - destruct (BaseScraper.initialize st) as [init |].
    + rewrite (Hinit init eq_refl), outcome_bind, He. reflexivity.
    + simpl. rewrite outcome_bind, He. reflexivity.
Qed.

Lemma base_getRecentPosts_contains platformName st username count e :
  strategyThrows st username count e ->
  let c := BaseScraper.getRecentPosts platformName (Some st) username count in
  Eff.outcome c = Ok [] /\
  (platformName ++ ": Error getting posts for " ++ username ++ ": " ++ message e)%string
  ∈ logged LError (trace c).
Proof.
  intros Hthrow c. subst c.
  pose proof (base_body_throws st username count e Hthrow) as Hbody.
  unfold BaseScraper.getRecentPosts.
  rewrite outcome_try_catch, trace_try_catch, Hbody, bind_log.
  split; [reflexivity |].
  rewrite logged_app. apply elem_of_app. right.
  simpl. apply list_elem_of_here.
Qed.

Lemma web_initialize_outcome platformName br :
  Eff.outcome (WebScraperStrategy.initialize platformName br)
  = WebScraperStrategy.createPage br.
Proof.
  unfold WebScraperStrategy.initialize.
  rewrite outcome_try_catch, bind_log. cbn [Eff.outcome snd].
  rewrite outcome_bind. unfold lift at 1. cbn [Eff.outcome snd].
  destruct (WebScraperStrategy.createPage br) as [[] | e]; rewrite ?bind_log; reflexivity.
Qed.

Lemma web_navigateTo_outcome platformName br url :
  Eff.outcome (WebScraperStrategy.navigateTo platformName br true url)
  = WebScraperStrategy.goto br.
Proof.
  unfold WebScraperStrategy.navigateTo.
  rewrite outcome_bind. cbn [ret Eff.outcome snd].
  rewrite outcome_try_catch, bind_log. cbn [Eff.outcome snd lift].
  destruct (WebScraperStrategy.goto br) as [[] | e]; rewrite ?bind_log; reflexivity.
Qed.

Lemma tiktok_body_throws br e (k : M (list obj)) url :
  pageFails br e ->
  Eff.outcome ((if WebScraperStrategy.hasPage br then ret tt
                else WebScraperStrategy.initialize TikTokWebStrategy.platformName br) ;;;
               WebScraperStrategy.navigateTo TikTokWebStrategy.platformName br true url ;;;
               k) = Throw e.
Proof.
  intros Hfail. rewrite outcome_bind.
  destruct Hfail as [[Hp Hc] | [Hpage Hg]].
  - rewrite Hp, web_initialize_outcome, Hc. reflexivity.
  - assert (Hinit : Eff.outcome (if WebScraperStrategy.hasPage br then ret tt
                                 else WebScraperStrategy.initialize
                                        TikTokWebStrategy.platformName br) = Ok tt).
    { destruct (WebScraperStrategy.hasPage br); [reflexivity |].
      rewrite web_initialize_outcome. destruct Hpage; [discriminate | assumption]. }
    rewrite Hinit, outcome_bind, web_navigateTo_outcome, Hg. reflexivity.
Qed.






End FetchFacts.



(** ** Failures within a batch *)

Section BatchFacts.
Context `{Engine}.

Lemma processInfluencer_empty getRecentPosts clock inf existingPosts sc :
  getScraperForPlatform (platform inf) = Ok sc ->
  getRecentPosts sc (username inf) postsToFetch = Ok None \/
  getRecentPosts sc (username inf) postsToFetch = Ok (Some []) ->
  processInfluencer getRecentPosts clock inf existingPosts =
  failed (username inf) (platform inf) "No posts found".
Proof.
  intros Hsc Hfetch. unfold processInfluencer.
  rewrite Hsc. cbn [andThen].
  destruct Hfetch as [-> | ->]; reflexivity.
Qed.

(** A strategy error never reaches the job: the scraper answers with no
    posts. *)
Lemma scraper_contains_strategy_error platformName st name e :
  strategyThrows st name postsToFetch e ->
  fmapResult Some
    (Eff.outcome (BaseScraper.getRecentPosts platformName (Some st) name postsToFetch))
  = Ok (Some []).
Proof.
  intros Hthrow.
  destruct (base_getRecentPosts_contains platformName st name postsToFetch e Hthrow)
    as [-> _].
  reflexivity.
Qed.

Lemma errors_lookup fetchAt clockAt influencers existingPosts i inf msg :
  influencers !! i = Some inf ->
  processInfluencer (fetchAt i) (clockAt i) inf existingPosts
  = failed (username inf) (platform inf) msg ->
  failureOf inf msg
  ∈ List.map (fun r => {| f_username := o_username r; f_platform := o_platform r;
                          f_error := o_error r |})
             (List.filter (fun r => negb (success r))
                          (processAll fetchAt clockAt influencers existingPosts)).
Proof.
  intros Hi Hfailed.
  pose proof (processAll_lookup fetchAt clockAt influencers existingPosts i inf Hi) as Hin.
  rewrite Hfailed in Hin.
  apply list_elem_of_In, in_map_iff.
  exists (failed (username inf) (platform inf) msg). split; [reflexivity |].
  apply filter_In. split; [apply list_elem_of_In; exact Hin | reflexivity].
Qed.

Lemma errors_members fetchAt clockAt influencers existingPosts (f : failure) :
  f ∈ List.map (fun r => {| f_username := o_username r; f_platform := o_platform r;
                            f_error := o_error r |})
               (List.filter (fun r => negb (success r))
                            (processAll fetchAt clockAt influencers existingPosts))
  <-> exists (i : nat) (inf : influencer),
      influencers !! i = Some inf /\
      success (processInfluencer (fetchAt i) (clockAt i) inf existingPosts) = false /\
      f = {| f_username := username inf; f_platform := platform inf;
             f_error := o_error (processInfluencer (fetchAt i) (clockAt i) inf
                                                   existingPosts) |}.
Proof.
  assert (Hid : forall getRecentPosts clock inf,
             o_username (processInfluencer getRecentPosts clock inf existingPosts)
             = username inf /\
             o_platform (processInfluencer getRecentPosts clock inf existingPosts)
             = platform inf).
  { intros g clock inf. unfold processInfluencer.
    destruct (getScraperForPlatform (platform inf)) as [sc | e]; cbn [andThen];
      [| split; reflexivity].
    destruct (g sc (username inf) postsToFetch) as [[[|q posts] |] | e];
      cbn [andThen]; split; reflexivity. }
  rewrite list_elem_of_In, in_map_iff. split.
  - intros (r & <- & Hr). apply filter_In in Hr. destruct Hr as [Hr Hs].
    apply list_elem_of_In in Hr. unfold processAll in Hr.
    apply elem_of_lookup_imap in Hr. destruct Hr as (i & inf & -> & Hi).
    exists i, inf. split; [exact Hi |].
    split; [apply negb_true_iff; exact Hs |].
    destruct (Hid (fetchAt i) (clockAt i) inf) as [-> ->]. reflexivity.
  - intros (i & inf & Hi & Hs & ->).
    exists (processInfluencer (fetchAt i) (clockAt i) inf existingPosts). split.
    + destruct (Hid (fetchAt i) (clockAt i) inf) as [-> ->]. reflexivity.
    + apply filter_In. split.
      * apply list_elem_of_In.
        apply (processAll_lookup fetchAt clockAt influencers existingPosts i inf Hi).
      * rewrite Hs. reflexivity.
Qed.

End BatchFacts.

(** C7.  With the storage collaborators answering, [run] returns a summary
    for every non-empty batch, whatever the per-identity outcomes, and every
    identity is counted as a success or as a failure.  An identity fails in
    two ways.  When its processing raises an error (no scraper serves the
    platform, or the scraper's call throws), the result is the failure record
    with zero posts and the error's message.  When its scraper answers with
    no posts, the record says "No posts found"; this is where an error of a
    strategy ends up, because [BaseScraper.getRecentPosts] turns it into an
    empty answer.  In both cases the record is in the summary's [errors],
    which lists the failed identities and no others.  An identity whose
    scraper delivers posts is a success with those posts counted, whatever
    happens to the other identities, and [totalPosts] is the sum over all
    identities. *)
Theorem run_isolates_failures `{Engine}
        (reader : Reader) (writer : Writer)
        (fetchAt : nat -> scraperId -> jsval -> Z -> result (option (list obj)))
        (clockAt : nat -> nat -> string) (elapsed : string)
        (influencers : list influencer) (existingPosts : list obj) :
  readInfluencers reader = Ok influencers ->
  readExistingPosts reader = Ok existingPosts ->
  influencers <> [] ->
  (forall l, updateAverageViews writer l = Ok tt) ->
  (forall l, appendPosts writer l = Ok tt) ->
  (forall l, updateExistingPosts writer l = Ok tt) ->
  exists s : summary,
    Eff.outcome (run reader writer fetchAt clockAt elapsed) = Ok s /\
    totalInfluencers s = Z.of_nat (length influencers) /\
    successCount s + failureCount s = totalInfluencers s /\
    totalPosts s = fold_left (fun sum r => sum + postsCount r)
                             (processAll fetchAt clockAt influencers existingPosts) 0 /\
    (forall (i : nat) (inf : influencer) (msg : string),
        influencers !! i = Some inf ->
        raises (fetchAt i) inf msg ->
        processInfluencer (fetchAt i) (clockAt i) inf existingPosts
        = failed (username inf) (platform inf) msg /\
        postsCount (processInfluencer (fetchAt i) (clockAt i) inf existingPosts) = 0 /\
        {| f_username := username inf; f_platform := platform inf;
           f_error := Some msg |} ∈ errors s) /\
    (forall (i : nat) (inf : influencer) (sc : scraperId),
        influencers !! i = Some inf ->
        getScraperForPlatform (platform inf) = Ok sc ->
        fetchAt i sc (username inf) postsToFetch = Ok None \/
        fetchAt i sc (username inf) postsToFetch = Ok (Some []) ->
        processInfluencer (fetchAt i) (clockAt i) inf existingPosts
        = failed (username inf) (platform inf) "No posts found" /\
        postsCount (processInfluencer (fetchAt i) (clockAt i) inf existingPosts) = 0 /\
        failureOf inf "No posts found" ∈ errors s) /\
    (forall (i : nat) (inf : influencer) (sc : scraperId) (name platformName : string)
            (st : BaseScraper.Strategy) (e : JsError),
        influencers !! i = Some inf ->
        username inf = VStr name ->
        getScraperForPlatform (platform inf) = Ok sc ->
        fetchAt i sc (VStr name) postsToFetch
        = fmapResult Some
            (Eff.outcome (BaseScraper.getRecentPosts platformName (Some st) name
                                                     postsToFetch)) ->
        strategyThrows st name postsToFetch e ->
        processInfluencer (fetchAt i) (clockAt i) inf existingPosts
        = failed (username inf) (platform inf) "No posts found" /\
        failureOf inf "No posts found" ∈ errors s) /\
    (forall f : failure,
        f ∈ errors s <->
        exists (i : nat) (inf : influencer),
          influencers !! i = Some inf /\
          success (processInfluencer (fetchAt i) (clockAt i) inf existingPosts) = false /\
          f = {| f_username := username inf; f_platform := platform inf;
                 f_error := o_error (processInfluencer (fetchAt i) (clockAt i) inf
                                                       existingPosts) |}) /\
    (forall (j : nat) (inf : influencer) (sc : scraperId) (posts : list obj),
        influencers !! j = Some inf ->
        getScraperForPlatform (platform inf) = Ok sc ->
        fetchAt j sc (username inf) postsToFetch = Ok (Some posts) ->
        posts <> [] ->
        success (processInfluencer (fetchAt j) (clockAt j) inf existingPosts) = true /\
        postsCount (processInfluencer (fetchAt j) (clockAt j) inf existingPosts)
        = Z.of_nat (length posts)).
Proof.
  intros Hr1 Hr2 Hne Hw1 Hw2 Hw3.
  eexists. split.
  { apply (run_outcome reader writer fetchAt clockAt elapsed influencers existingPosts);
      assumption. }
  cbn [totalInfluencers successCount failureCount totalPosts errors].
  split; [reflexivity |].
  split.
  { rewrite <- Nat2Z.inj_add, filter_partition_length.
    unfold processAll. rewrite length_imap. reflexivity. }
  split.
  { apply fold_postsCount_filter, processAll_failure_shape. }
  split.
  { intros i inf msg Hi Hraise.
    pose proof (processInfluencer_raises (fetchAt i) (clockAt i) inf existingPosts msg Hraise)
      as Hfailed.
    split; [exact Hfailed |]. split; [rewrite Hfailed; reflexivity |].
    apply (errors_lookup fetchAt clockAt influencers existingPosts i inf msg Hi Hfailed). }
  split.
  { intros i inf sc Hi Hsc Hempty.
    pose proof (processInfluencer_empty (fetchAt i) (clockAt i) inf existingPosts sc
                                        Hsc Hempty) as Hfailed.
    split; [exact Hfailed |]. split; [rewrite Hfailed; reflexivity |].
    apply (errors_lookup fetchAt clockAt influencers existingPosts i inf _ Hi Hfailed). }
  split.
  { intros i inf sc name platformName st e Hi Hname Hsc Hfetch Hthrow.
    rewrite (scraper_contains_strategy_error platformName st name e Hthrow) in Hfetch.
    rewrite <- Hname in Hfetch.
    pose proof (processInfluencer_empty (fetchAt i) (clockAt i) inf existingPosts sc
                                        Hsc (or_intror Hfetch)) as Hfailed.
    split; [exact Hfailed |].
    apply (errors_lookup fetchAt clockAt influencers existingPosts i inf _ Hi Hfailed). }
  split.
  { intros f. apply errors_members. }
  intros j inf sc posts Hj Hsc Hfetch Hposts.
  rewrite (processInfluencer_fetched (fetchAt j) (clockAt j) inf existingPosts sc posts
                                     Hsc Hfetch Hposts).
  split; reflexivity.
Qed.

Lemma run_isolates_failures_witness :
  exists s : summary,
    Eff.outcome (run (H := RefEngine.engine) readerExample writerExample
                     (fun _ => fetchScrapers) (fun _ => fixedClock) "1.50") = Ok s /\
    totalInfluencers s = 3 /\ successCount s = 1 /\ failureCount s = 2 /\
    totalPosts s = 1 /\
    failureOf eve "No posts found" ∈ errors s /\
    failureOf mallory "Unsupported platform: vine" ∈ errors s.
Proof.
  destruct (run_isolates_failures (H := RefEngine.engine) readerExample writerExample
              (fun _ => fetchScrapers) (fun _ => fixedClock) "1.50"
              [bob; eve; mallory] [])
    as (s & Hs & _ & _ & _ & Hraise & _ & Hstrategy & _); try reflexivity; [discriminate |].
  exists s. split; [exact Hs |].
  assert (Heve : failureOf eve "No posts found" ∈ errors s).
  { apply (Hstrategy 1%nat eve InstagramScraper "eve" "Instagram"
                     (metaStrategy limitedNet (fun _ _ => Ok VUndef) "17841400000000000")
                     (mkError ("Instagram Meta API request failed after 3 attempts. "
                               ++ "Error: Application request limit reached")));
      try reflexivity.
    right. split.
    - intros init Hinit. injection Hinit as <-. reflexivity.
    - vm_compute. reflexivity. }
  assert (Hmallory : failureOf mallory "Unsupported platform: vine" ∈ errors s).
  { apply (Hraise 2%nat mallory "Unsupported platform: vine"); [reflexivity |].
    left. eexists. split; reflexivity. }
  vm_compute in Hs. injection Hs as <-.
  repeat split; try reflexivity; assumption.
Defined.

(** ** The numeric normalizer *)

Section Characters.

Lemma digit_facts c :
  isDigit c = true ->
  is_ws c = false /\ lower_char c = c /\
  digit_of 10 c = Some (Z.of_nat (nat_of_ascii c) - 48) /\
  Ascii.eqb c ","%char = false /\ Ascii.eqb c "."%char = false /\
  Ascii.eqb c "+"%char = false /\ Ascii.eqb c "-"%char = false /\
  Ascii.eqb "I"%char c = false /\
  Ascii.eqb c "k"%char = false /\ Ascii.eqb c "m"%char = false /\
  Ascii.eqb c "b"%char = false.
Proof.
  destruct c as [[] [] [] [] [] [] [] []]; intros Hd; try discriminate Hd;
    vm_compute; repeat split; reflexivity.
Qed.

Lemma suffix_facts c mult :
  multiplier c = Some mult ->
  let l := lower_char c in
  is_ws c = false /\ is_ws l = false /\ digit_of 10 l = None /\
  is_exp_mark l = false /\ Ascii.eqb l "."%char = false /\
  ((l = "k"%char /\ mult = 1000) \/ (l = "m"%char /\ mult = 1000000)
   \/ (l = "b"%char /\ mult = 1000000000)).
Proof.
  destruct c as [[] [] [] [] [] [] [] []]; vm_compute; intros Hm; try discriminate Hm;
    injection Hm as <-; repeat split; auto.
Qed.

Lemma chars_str cs : chars (str cs) = cs.
Proof.
  apply list_ascii_of_string_of_list_ascii.
Qed.

Lemma trim_start_head c cs : is_ws c = false -> trim_start (c :: cs) = c :: cs.
Proof.
  intros Hc. simpl. rewrite Hc. reflexivity.
Qed.



Lemma take_digits_run ds rest acc cnt :
  forallb isDigit ds = true ->
  match rest with
  | [] => True
  | c :: _ => digit_of 10 c = None
  end ->
  take_digits 10 (ds ++ rest) acc cnt
  = (fold_left (fun a c => 10 * a + (Z.of_nat (nat_of_ascii c) - 48)) ds acc,
     (cnt + length ds)%nat, rest).
Proof.
  revert acc cnt. induction ds as [|d ds IH]; intros acc cnt Hds Hrest.
  - simpl. rewrite Nat.add_0_r. destruct rest as [|c rest]; [reflexivity |].
    simpl. rewrite Hrest. reflexivity.
  - simpl in Hds. apply andb_true_iff in Hds. destruct Hds as [Hd Hds].
    destruct (digit_facts d Hd) as (_ & _ & Hdig & _).
    simpl. rewrite Hdig, (IH _ _ Hds Hrest). f_equal. f_equal. lia.
Qed.


Lemma trim_chars_nows cs :
  Forall (fun c => is_ws c = false) cs -> trim_chars cs = cs.
Proof.
  intros Hcs.
  assert (Hstart : forall l, Forall (fun c => is_ws c = false) l -> trim_start l = l).
  { intros [|c l] Hl; [reflexivity |].
    apply Forall_cons in Hl. destruct Hl as [Hc _]. simpl. rewrite Hc. reflexivity. }
  unfold trim_chars. rewrite (Hstart cs Hcs).
  rewrite (Hstart (rev cs)); [apply rev_involutive |].
  apply Forall_rev. exact Hcs.
Qed.

Lemma endsWith_other cs x :
  Forall (fun c => Ascii.eqb c x = false) cs -> endsWith (str cs) x = false.
Proof.
  intros Hcs. unfold endsWith. rewrite chars_str.
  apply Forall_rev in Hcs. destruct (rev cs) as [|c l]; [reflexivity |].
  apply Forall_cons in Hcs. tauto.
Qed.

Lemma endsWith_last body c x : endsWith (str (body ++ [c])) x = Ascii.eqb c x.
Proof.
  unfold endsWith. rewrite chars_str, rev_app_distr. reflexivity.
Qed.

Lemma digits_Forall (P : ascii -> Prop) ds :
  (forall c, isDigit c = true -> P c) -> forallb isDigit ds = true -> Forall P ds.
Proof.
  intros HP Hds. rewrite forallb_forall in Hds.
  apply Forall_forall. intros c Hc. apply HP, Hds, list_elem_of_In, Hc.
Qed.

Lemma map_lower_digits ds :
  forallb isDigit ds = true -> List.map lower_char ds = ds.
Proof.
  induction ds as [|d ds IH]; simpl; [reflexivity |].
  intros Hds. apply andb_true_iff in Hds. destruct Hds as [Hd Hds].
  destruct (digit_facts d Hd) as (_ & -> & _). rewrite (IH Hds). reflexivity.
Qed.

(** The decimal literal at the front of a printed count. *)
Lemma parse_unsigned_decimal_count ip fp rest :
  ip <> [] -> forallb isDigit ip = true -> forallb isDigit fp = true ->
  match rest with
  | [] => True
  | c :: _ => digit_of 10 c = None /\ is_exp_mark c = false
              /\ Ascii.eqb c "."%char = false
  end ->
  parse_unsigned_decimal (ip ++ fractionText fp ++ rest)
  = Some ((decimalValue ip fp * pow10 0)%Q, rest).
Proof.
  intros Hne Hip Hfp Hrest.
  assert (Hexp : parse_exponent rest = (0, rest)).
  { destruct rest as [|c rest]; [reflexivity |].
    destruct Hrest as (_ & He & _). simpl. rewrite He. reflexivity. }
  assert (Hdig : match rest with [] => True | c :: _ => digit_of 10 c = None end).
  { destruct rest; [exact I | tauto]. }
  unfold parse_unsigned_decimal, decimalValue.
  destruct ip as [|d ip]; [congruence |].
  destruct fp as [|f fp].
  - cbn [fractionText app].
    change (d :: ip ++ rest) with ((d :: ip) ++ rest).
    rewrite (take_digits_run (d :: ip) rest 0 0 Hip Hdig).
    cbn [Nat.add length].
    assert (Hdot : match rest with
                   | c :: r =>
                       if Ascii.eqb c "."%char
                       then let '(f, nf, r') := take_digits 10 r 0 0 in
                            match S (length ip), nf with
                            | O, O => (0, O, rest)
                            | _, _ => (f, nf, r')
                            end
                       else (0, O, rest)
                   | [] => (0, O, rest)
                   end = (0, O, rest)).
    { destruct rest as [|c r]; [reflexivity |].
      destruct Hrest as (_ & _ & ->). reflexivity. }
    rewrite Hdot, Hexp. reflexivity.
  - cbn [fractionText].
    change (("."%char :: f :: fp) ++ rest) with ("."%char :: (f :: fp) ++ rest).
    rewrite (take_digits_run (d :: ip) ("."%char :: (f :: fp) ++ rest) 0 0 Hip);
      [| reflexivity].
    cbn [Nat.add length]. cbn [Ascii.eqb Bool.eqb].
    rewrite (take_digits_run (f :: fp) rest 0 0 Hfp Hdig).
    cbn [Nat.add length]. rewrite Hexp. reflexivity.
Qed.

Lemma parseFloat_count ip fp rest :
  ip <> [] -> forallb isDigit ip = true -> forallb isDigit fp = true ->
  match rest with
  | [] => True
  | c :: _ => digit_of 10 c = None /\ is_exp_mark c = false
              /\ Ascii.eqb c "."%char = false
  end ->
  parseFloat (str (ip ++ fractionText fp ++ rest)) = b64 (decimalValue ip fp).
Proof.
  intros Hne Hip Hfp Hrest.
  unfold parseFloat. rewrite chars_str.
  pose proof (parse_unsigned_decimal_count ip fp rest Hne Hip Hfp Hrest) as Hparse.
  destruct ip as [|d ip]; [congruence |].
  simpl in Hip. apply andb_true_iff in Hip. destruct Hip as [Hd Hip].
  destruct (digit_facts d Hd) as (Hws & _ & _ & _ & _ & Hplus & Hminus & HI & _).
  cbn [app] in Hparse |- *.
  rewrite (trim_start_head _ _ Hws).
  unfold take_sign. rewrite Hplus, Hminus.
  change (chars "Infinity") with ("I"%char :: chars "nfinity").
  cbn [starts_with]. rewrite HI, Hparse. unfold signed.
  apply b64_comp. change (pow10 0) with 1%Q. change (inject_Z 1) with 1%Q. ring.
Qed.

Lemma digitsValue_nonneg ds : forallb isDigit ds = true -> 0 <= digitsValue ds.
Proof.
  intros Hds. unfold digitsValue.
  assert (Hacc : forall acc, 0 <= acc ->
            0 <= fold_left (fun a c => 10 * a + (Z.of_nat (nat_of_ascii c) - 48)) ds acc).
  { induction ds as [|d ds IH]; intros acc Hacc; [exact Hacc |].
    simpl in Hds. apply andb_true_iff in Hds. destruct Hds as [Hd Hds].
    cbn [fold_left]. apply (IH Hds).
    unfold isDigit in Hd. cbv zeta in Hd. apply andb_true_iff in Hd.
    destruct Hd as [Hd _]. apply Nat.leb_le in Hd. lia. }
  apply Hacc. lia.
Qed.

Lemma decimalValue_nonneg ip fp :
  forallb isDigit ip = true -> forallb isDigit fp = true ->
  (0 <= decimalValue ip fp)%Q.
Proof.
  intros Hip Hfp. unfold decimalValue.
  pose proof (digitsValue_nonneg ip Hip) as H1.
  pose proof (digitsValue_nonneg fp Hfp) as H2.
  assert (H3 : 0 < 10 ^ Z.of_nat (length fp)) by (apply Z.pow_pos_nonneg; lia).
  apply Qle_shift_div_l.
  - rewrite <- (Zlt_Qlt 0). exact H3.
  - rewrite Qmult_0_l, <- (Zle_Qle 0). nia.
Qed.

End Characters.

Section Normalizer.

Lemma lowerValue_count ip fp sfx mult :
  forallb isDigit ip = true -> forallb isDigit fp = true ->
  multiplier sfx = Some mult ->
  trim (toLowerCase (countText ip fp sfx))
  = str (ip ++ fractionText fp ++ [lower_char sfx]).
Proof.
  intros Hip Hfp Hm.
  destruct (suffix_facts sfx mult Hm) as (_ & Hl & _).
  unfold trim, toLowerCase, countText. rewrite !chars_str. f_equal.
  assert (Hfrac : List.map lower_char (fractionText fp) = fractionText fp).
  { destruct fp as [|f fp]; [reflexivity |].
    unfold fractionText.
    change (List.map lower_char ("."%char :: f :: fp))
      with (lower_char "."%char :: List.map lower_char (f :: fp)).
    rewrite (map_lower_digits (f :: fp) Hfp). reflexivity. }
  rewrite !map_app, (map_lower_digits ip Hip), Hfrac. cbn [List.map].
  apply trim_chars_nows.
  apply Forall_app. split.
  { apply digits_Forall; [| exact Hip]. intros c Hc. apply (digit_facts c Hc). }
  apply Forall_app. split.
  - destruct fp as [|f fp]; [constructor |].
    unfold fractionText. constructor; [reflexivity |].
    apply digits_Forall; [| exact Hfp]. intros c Hc. apply (digit_facts c Hc).
  - constructor; [exact Hl | constructor].
Qed.

Lemma extractNumber_count ip fp sfx mult :
  ip <> [] -> forallb isDigit ip = true -> forallb isDigit fp = true ->
  multiplier sfx = Some mult ->
  ScrapingStrategy.extractNumber (VStr (countText ip fp sfx))
  = Math_round (mul64 (b64 (decimalValue ip fp)) (of_Z mult)).
Proof.
  intros Hne Hip Hfp Hm.
  destruct (suffix_facts sfx mult Hm) as (_ & _ & Hdig & Hexp & Hdot & Hwhich).
  unfold ScrapingStrategy.extractNumber.
  rewrite (lowerValue_count ip fp sfx mult Hip Hfp Hm).
  assert (Hends : forall x, endsWith (str (ip ++ fractionText fp ++ [lower_char sfx])) x
                            = Ascii.eqb (lower_char sfx) x).
  { intros x. rewrite app_assoc. apply endsWith_last. }
  rewrite !Hends.
  rewrite (parseFloat_count ip fp [lower_char sfx] Hne Hip Hfp (conj Hdig (conj Hexp Hdot))).
  destruct Hwhich as [[-> ->] | [[-> ->] | [-> ->]]]; cbn [Ascii.eqb Bool.eqb];
    reflexivity.
Qed.

Lemma multiplier_range sfx mult : multiplier sfx = Some mult -> 1 <= mult <= 2 ^ 30.
Proof.
  intros Hm. destruct (suffix_facts sfx mult Hm) as (_ & _ & _ & _ & _ & Hwhich).
  change (2 ^ 30) with 1073741824.
  destruct Hwhich as [[_ ->] | [[_ ->] | [_ ->]]]; lia.
Qed.

Lemma extractNumber_count_near ip fp sfx mult :
  ip <> [] -> forallb isDigit ip = true -> forallb isDigit fp = true ->
  multiplier sfx = Some mult ->
  (decimalValue ip fp * inject_Z mult <= pow2 1000)%Q ->
  exists k : Z,
    ScrapingStrategy.extractNumber (VStr (countText ip fp sfx)) = of_Z k /\
    (inject_Z k - decimalValue ip fp * inject_Z mult
     <= (1 # 2) + decimalValue ip fp * inject_Z mult * pow2 (-51))%Q /\
    (decimalValue ip fp * inject_Z mult - inject_Z k
     <= (1 # 2) + decimalValue ip fp * inject_Z mult * pow2 (-51))%Q.
Proof.
  intros Hne Hip Hfp Hm Hx.
  rewrite (extractNumber_count ip fp sfx mult Hne Hip Hfp Hm).
  destruct (round_mul64_near (decimalValue ip fp) mult
              (decimalValue_nonneg ip fp Hip Hfp) (multiplier_range sfx mult Hm) Hx)
    as (d & k & Hd & Hk & H1 & H2).
  exists k. rewrite Hd. auto.
Qed.

Lemma extractNumber_count_exact ip fp sfx mult N :
  ip <> [] -> forallb isDigit ip = true -> forallb isDigit fp = true ->
  multiplier sfx = Some mult ->
  0 <= N < 2 ^ 50 ->
  (decimalValue ip fp * inject_Z mult == inject_Z N)%Q ->
  ScrapingStrategy.extractNumber (VStr (countText ip fp sfx)) = of_Z N.
Proof.
  intros Hne Hip Hfp Hm HN Hx.
  assert (HN50 : (inject_Z N < pow2 50)%Q).
  { rewrite (pow2_Z 50) by lia. rewrite <- Zlt_Qlt. lia. }
  assert (H50 : (pow2 50 <= pow2 1000)%Q) by (apply pow2_le; lia).
  destruct (extractNumber_count_near ip fp sfx mult Hne Hip Hfp Hm)
    as (k & Hk & H1 & H2).
  { rewrite Hx. lra. }
  rewrite Hk. f_equal.
  rewrite Hx in H1, H2.
  assert (E50 : (pow2 50 == 1125899906842624)%Q) by reflexivity.
  rewrite pow2_m51 in H1, H2. rewrite E50 in HN50.
  assert (Hlt1 : (inject_Z k < inject_Z (N + 1))%Q).
  { rewrite inject_Z_plus. change (inject_Z 1) with 1%Q. lra. }
  assert (Hlt2 : (inject_Z N < inject_Z (k + 1))%Q).
  { rewrite inject_Z_plus. change (inject_Z 1) with 1%Q. lra. }
  rewrite <- Zlt_Qlt in Hlt1, Hlt2. lia.
Qed.

Lemma extractNumber_commas cs :
  forallb (fun c => isDigit c || Ascii.eqb c ","%char) cs = true ->
  existsb isDigit cs = true ->
  ScrapingStrategy.extractNumber (VStr (str cs))
  = b64 (inject_Z (digitsValue (List.filter isDigit cs))).
Proof.
  intros Hcs Hsome.
  assert (Hall : forall P : ascii -> Prop,
             (forall c, isDigit c = true -> P c) -> P ","%char -> Forall P cs).
  { intros P Hd Hc. rewrite forallb_forall in Hcs.
    apply Forall_forall. intros c Hin. apply list_elem_of_In, Hcs in Hin.
    apply orb_true_iff in Hin. destruct Hin as [Hin | Hin]; [apply Hd, Hin |].
    apply Ascii.eqb_eq in Hin. subst c. exact Hc. }
  assert (Hlower : trim (toLowerCase (str cs)) = str cs).
  { unfold trim, toLowerCase. rewrite !chars_str. f_equal.
    replace (List.map lower_char cs) with cs.
    - apply trim_chars_nows, Hall; [| reflexivity].
      intros c Hc. apply (digit_facts c Hc).
    - symmetry. rewrite <- (map_id cs) at 2. apply map_ext_Forall, Hall; [| reflexivity].
      intros c Hc. apply (digit_facts c Hc). }
  assert (Hcommas : remove_commas (str cs) = str (List.filter isDigit cs)).
  { unfold remove_commas. rewrite chars_str. f_equal.
    apply filter_ext_in. intros c Hin.
    rewrite forallb_forall in Hcs. specialize (Hcs c Hin).
    apply orb_true_iff in Hcs. destruct Hcs as [Hd | Hc].
    - rewrite Hd. destruct (digit_facts c Hd) as (_ & _ & _ & -> & _). reflexivity.
    - rewrite Hc. apply Ascii.eqb_eq in Hc. subst c. reflexivity. }
  assert (Hdigits : forallb isDigit (List.filter isDigit cs) = true).
  { apply forallb_forall. intros c Hin. apply filter_In in Hin. tauto. }
  assert (Hne : List.filter isDigit cs <> []).
  { apply existsb_exists in Hsome. destruct Hsome as (c & Hin & Hd).
    intros Hnil. assert (Hc : In c (List.filter isDigit cs)) by (apply filter_In; tauto).
    rewrite Hnil in Hc. exact Hc. }
  unfold ScrapingStrategy.extractNumber. rewrite Hlower.
  rewrite !endsWith_other
    by (apply Hall; [intros c Hc; apply (digit_facts c Hc) | reflexivity]).
  rewrite Hcommas.
  pose proof (parseFloat_count (List.filter isDigit cs) [] [] Hne Hdigits eq_refl I)
    as Hparse.
  cbn [fractionText] in Hparse. rewrite !app_nil_r in Hparse. rewrite Hparse.
  assert (Hval : (decimalValue (List.filter isDigit cs) []
                  == inject_Z (digitsValue (List.filter isDigit cs)))%Q).
  { unfold decimalValue.
    change (Z.of_nat (length (@nil ascii))) with 0.
    change (digitsValue []) with 0. change (10 ^ 0) with 1.
    rewrite Z.mul_1_r, Z.add_0_r.
    change (inject_Z 1) with 1%Q. field. }
  rewrite (b64_comp _ _ Hval).
  destruct (b64 (inject_Z (digitsValue (List.filter isDigit cs)))) eqn:E;
    try reflexivity.
  exfalso. exact (b64_not_NaN _ E).
Qed.

Lemma extractNumber_commas_exact cs :
  forallb (fun c => isDigit c || Ascii.eqb c ","%char) cs = true ->
  existsb isDigit cs = true ->
  digitsValue (List.filter isDigit cs) < 2 ^ 53 ->
  ScrapingStrategy.extractNumber (VStr (str cs))
  = of_Z (digitsValue (List.filter isDigit cs)).
Proof.
  intros Hcs Hsome Hsize.
  rewrite (extractNumber_commas cs Hcs Hsome).
  apply b64_int.
  assert (Hdigits : forallb isDigit (List.filter isDigit cs) = true).
  { apply forallb_forall. intros c Hin. apply filter_In in Hin. tauto. }
  pose proof (digitsValue_nonneg _ Hdigits). lia.
Qed.

End Normalizer.

(** C10.  [extractNumber] turns printed counts into numbers: "1.2K" gives
    1200 and "3.5M" gives 3500000.  Digits with an optional fraction and a
    K, M or B suffix (in either case) are read as a binary64 number, scaled
    by a thousand, a million or a billion and rounded: the result is an
    integer no farther from the scaled value than a half plus the value times
    2^-51, and the scaled value itself when that is an integer below 2^50
    ("0.5005k", whose scaled value 500.5 lies between two integers, gives
    500).  A number is returned as it is; a string without such a suffix is
    read after its commas are dropped, so digits grouped by commas give the
    binary64 number nearest to the integer the digits spell, which below
    2^53 is that integer.  The scraper's copy of the function agrees with
    the strategy's. *)
Theorem extractNumber_normalizes :
  ScrapingStrategy.extractNumber (VStr "1.2K") = of_Z 1200 /\
  ScrapingStrategy.extractNumber (VStr "3.5M") = of_Z 3500000 /\
  (forall v : jsval, BaseScraper.extractNumber v = ScrapingStrategy.extractNumber v) /\
  (forall n : jsnum, ScrapingStrategy.extractNumber (VNum n) = n) /\
  (forall (ip fp : list ascii) (sfx : ascii) (mult : Z),
      ip <> [] -> forallb isDigit ip = true -> forallb isDigit fp = true ->
      multiplier sfx = Some mult ->
      ScrapingStrategy.extractNumber (VStr (countText ip fp sfx))
      = Math_round (mul64 (b64 (decimalValue ip fp)) (of_Z mult)) /\
      ((decimalValue ip fp * inject_Z mult <= pow2 1000)%Q ->
       exists k : Z,
         ScrapingStrategy.extractNumber (VStr (countText ip fp sfx)) = of_Z k /\
         (inject_Z k - decimalValue ip fp * inject_Z mult
          <= (1 # 2) + decimalValue ip fp * inject_Z mult * pow2 (-51))%Q /\
         (decimalValue ip fp * inject_Z mult - inject_Z k
          <= (1 # 2) + decimalValue ip fp * inject_Z mult * pow2 (-51))%Q) /\
      (forall N : Z,
          0 <= N < 2 ^ 50 ->
          (decimalValue ip fp * inject_Z mult == inject_Z N)%Q ->
          ScrapingStrategy.extractNumber (VStr (countText ip fp sfx)) = of_Z N)) /\
  ScrapingStrategy.extractNumber (VStr "0.5005k") = of_Z 500 /\
  (forall cs : list ascii,
      forallb (fun c => isDigit c || Ascii.eqb c ","%char) cs = true ->
      existsb isDigit cs = true ->
      ScrapingStrategy.extractNumber (VStr (str cs))
      = b64 (inject_Z (digitsValue (List.filter isDigit cs))) /\
      (digitsValue (List.filter isDigit cs) < 2 ^ 53 ->
       ScrapingStrategy.extractNumber (VStr (str cs))
       = of_Z (digitsValue (List.filter isDigit cs)))) /\
  (forall s : string,
      let lowerValue := trim (toLowerCase s) in
      endsWith lowerValue "k" = false -> endsWith lowerValue "m" = false ->
      endsWith lowerValue "b" = false ->
      ScrapingStrategy.extractNumber (VStr s)
      = (let parsed := parseFloat (remove_commas lowerValue) in
         if isNaN parsed then Fin 0 else parsed)).
Proof.
  split; [vm_compute; reflexivity |].
  split; [vm_compute; reflexivity |].
  split; [reflexivity |].
  split; [reflexivity |].
  split.
  { intros ip fp sfx mult Hne Hip Hfp Hm.
    split; [apply extractNumber_count; assumption |].
    split; [apply extractNumber_count_near; assumption |].
    intros N. apply extractNumber_count_exact; assumption. }
  split; [vm_compute; reflexivity |].
  split.
  { intros cs Hcs Hsome.
    split; [apply extractNumber_commas; assumption |].
    apply extractNumber_commas_exact; assumption. }
  intros s lowerValue Hk Hm Hb. subst lowerValue.
  unfold ScrapingStrategy.extractNumber. rewrite Hk, Hm, Hb. reflexivity.
Qed.

Lemma extractNumber_normalizes_witness :
  ScrapingStrategy.extractNumber (VStr "12.75k") = of_Z 12750 /\
  ScrapingStrategy.extractNumber (VStr "1,234,567") = of_Z 1234567.
Proof.
  pose proof extractNumber_normalizes as (_ & _ & _ & _ & Hcount & _ & Hcommas & _).
  split.
  - change "12.75k" with (countText (chars "12") (chars "75") "k"%char).
    destruct (Hcount (chars "12") (chars "75") "k"%char 1000) as (_ & _ & Hexact);
      [discriminate | reflexivity | reflexivity | reflexivity |].
    apply Hexact; [vm_compute; split; [discriminate | reflexivity] |].
    vm_compute. reflexivity.
  - change "1,234,567" with (str (chars "1,234,567")).
    destruct (Hcommas (chars "1,234,567")) as (_ & Hexact); [reflexivity | reflexivity |].
    rewrite Hexact; [vm_compute; reflexivity | vm_compute; reflexivity].
Defined.

(** * Further properties *)

(** ** The data processor *)

Section AverageOrder.

Lemma filter_perm {A} (f : A -> bool) l l' :
  Permutation l l' -> Permutation (List.filter f l) (List.filter f l').
Proof.
  induction 1 as [| x l l' _ IH | x y l | l l' l'' _ IH1 _ IH2]; simpl.
  - constructor.
  - destruct (f x); [constructor |]; exact IH.
  - destruct (f x), (f y); try reflexivity. apply perm_swap.
  - etransitivity; eassumption.
Qed.

Lemma Zsum_perm l l' : Permutation l l' -> Zsum l = Zsum l'.
Proof.
  unfold Zsum.
  induction 1 as [| x l l' _ IH | x y l | l l' l'' _ IH1 _ IH2];
    cbn [fold_right]; lia.
Qed.

Lemma calculateAverageViews_perm posts posts' zs :
  Permutation posts posts' ->
  List.map (fun p => Number (viewsOf p)) (List.filter (fun p => passes (viewsOf p)) posts)
  = List.map of_Z zs ->
  Zsum zs < 2 ^ 53 ->
  calculateAverageViews posts = calculateAverageViews posts'.
Proof.
  intros Hp Hmap Hsize.
  pose proof (filter_perm (fun p => passes (viewsOf p)) _ _ Hp) as Hf.
  pose proof (Permutation_map (fun p => Number (viewsOf p)) Hf) as Hvals.
  rewrite Hmap in Hvals. apply Permutation_sym in Hvals.
  destruct (Permutation_map_inv _ _ Hvals) as (zs' & Hmap' & Hzs).
  pose proof (Zsum_perm _ _ Hzs) as Hsum.
  pose proof (Permutation_length Hzs) as Hlen.
  rewrite (calculateAverageViews_total posts zs Hmap Hsize).
  rewrite (calculateAverageViews_total posts' zs' Hmap') by lia.
  rewrite <- Hsum, <- Hlen.
  destruct zs, zs'; try discriminate Hlen; reflexivity.
Qed.

End AverageOrder.

(** X1.  When the values that count are integers whose sum stays below
    2^53, the average does not depend on the order of the posts.  In general
    it does, since the sum is rounded at every step: the views 9.7, 9.7 and
    9.1 average to 10, and to 9 when 9.1 comes first. *)
Theorem calculateAverageViews_order_free :
  (forall (posts posts' : list obj) (zs : list Z),
      Permutation posts posts' ->
      List.map (fun p => Number (viewsOf p))
               (List.filter (fun p => passes (viewsOf p)) posts) = List.map of_Z zs ->
      Zsum zs < 2 ^ 53 ->
      calculateAverageViews posts = calculateAverageViews posts') /\
  Permutation [viewsText "9.7"; viewsText "9.7"; viewsText "9.1"]
              [viewsText "9.1"; viewsText "9.7"; viewsText "9.7"] /\
  calculateAverageViews [viewsText "9.7"; viewsText "9.7"; viewsText "9.1"]
  <> calculateAverageViews [viewsText "9.1"; viewsText "9.7"; viewsText "9.7"].
Proof.
  split; [exact calculateAverageViews_perm |].
  split.
  - symmetry.
    apply (Permutation_cons_append [viewsText "9.7"; viewsText "9.7"] (viewsText "9.1")).
  - vm_compute. discriminate.
Qed.

Lemma calculateAverageViews_order_free_witness :
  calculateAverageViews [post100; postBad; post201]
  = calculateAverageViews [post201; post100; postBad].
Proof.
  apply (proj1 calculateAverageViews_order_free _ _ [100; 201]).
  - symmetry. apply (Permutation_cons_append [post100; postBad] post201).
  - vm_compute. reflexivity.
  - vm_compute. reflexivity.
Defined.

Section AverageBounds.

Lemma fold_left_add64_range (lo hi : Z) qs :
  0 <= lo ->
  Forall (fun q => (inject_Z lo <= q)%Q /\ (q <= inject_Z hi)%Q) qs ->
  forall (i : Z) (r0 : Q),
    0 <= i ->
    (inject_Z (i * lo) <= r0)%Q -> (r0 <= inject_Z (i * hi))%Q ->
    (i + Z.of_nat (length qs)) * hi < 2 ^ 53 ->
    exists r, fold_left add64 (List.map Fin qs) (Fin r0) = Fin r /\
              (inject_Z ((i + Z.of_nat (length qs)) * lo) <= r)%Q /\
              (r <= inject_Z ((i + Z.of_nat (length qs)) * hi))%Q.
Proof.
  intros Hlo Hall. induction Hall as [|q qs [Hq1 Hq2] _ IH]; intros i r0 Hi H1 H2 Hsize.
  - cbn [length List.map fold_left Z.of_nat]. rewrite Z.add_0_r.
    exists r0. auto.
  - cbn [List.map fold_left]. rewrite length_cons, Nat2Z.inj_succ in *.
    assert (Hhi : lo <= hi).
    { rewrite Zle_Qle. lra. }
    assert (E1 : (inject_Z ((i + 1) * lo) == inject_Z (i * lo) + inject_Z lo)%Q).
    { rewrite <- inject_Z_plus. apply inject_Z_injective. lia. }
    assert (E2 : (inject_Z ((i + 1) * hi) == inject_Z (i * hi) + inject_Z hi)%Q).
    { rewrite <- inject_Z_plus. apply inject_Z_injective. lia. }
    destruct (b64_between (r0 + q) ((i + 1) * lo) ((i + 1) * hi)) as (r1 & Hr1 & Ha & Hb).
    + nia.
    + nia.
    + rewrite E1. lra.
    + rewrite E2. lra.
    + unfold add64. rewrite Hr1.
      destruct (IH (i + 1) r1 ltac:(lia) Ha Hb) as (r & Hr & Hra & Hrb).
      { replace (i + 1 + Z.of_nat (length qs)) with (i + Z.succ (Z.of_nat (length qs)))
          by lia. exact Hsize. }
      exists r. split; [exact Hr |].
      replace (i + Z.succ (Z.of_nat (length qs))) with (i + 1 + Z.of_nat (length qs))
        by lia.
      auto.
Qed.

End AverageBounds.

(** X2.  When the values that count all lie between two integers, and the
    upper one times the number of values is below 2^53, so does the average:
    neither the binary64 operations nor the final rounding take it outside
    the range of the values. *)
Theorem calculateAverageViews_within_range (posts : list obj) (qs : list Q) (lo hi : Z) :
  List.map (fun p => Number (viewsOf p)) (List.filter (fun p => passes (viewsOf p)) posts)
  = List.map Fin qs ->
  qs <> [] ->
  Forall (fun q => (inject_Z lo <= q)%Q /\ (q <= inject_Z hi)%Q) qs ->
  hi * Z.of_nat (length qs) < 2 ^ 53 ->
  exists k : Z, calculateAverageViews posts = Some (of_Z k) /\ lo <= k <= hi.
Proof.
  intros Hmap Hne Hall Hsize.
  pose proof (counted_values posts qs Hmap) as Hpos.
  set (lo' := Z.max lo 0).
  assert (Hall' : Forall (fun q => (inject_Z lo' <= q)%Q /\ (q <= inject_Z hi)%Q) qs).
  { rewrite List.Forall_forall in Hall, Hpos. apply List.Forall_forall. intros q Hq.
    destruct (Hall q Hq) as [H1 H2]. specialize (Hpos q Hq). split; [| exact H2].
    unfold lo'. destruct (Z.max_spec lo 0) as [[_ ->] | [_ ->]]; [exact Hpos | exact H1]. }
  assert (Hn : 1 <= Z.of_nat (length qs)) by (destruct qs; [congruence | simpl; lia]).
  assert (Hlohi : lo' <= hi).
  { destruct qs as [|q qs]; [congruence |].
    apply Forall_cons in Hall'. destruct Hall' as [[H1 H2] _].
    rewrite Zle_Qle. lra. }
  assert (Hlo0 : 0 <= lo') by (unfold lo'; lia).
  rewrite calculateAverageViews_unfold.
  assert (Hlen : length (List.filter (fun p => passes (viewsOf p)) posts) = length qs).
  { rewrite <- (length_map (fun p => Number (viewsOf p))), Hmap. apply length_map. }
  destruct (List.filter _ posts) as [|v vs] eqn:Ef.
  { destruct qs; [congruence | discriminate]. }
  cbv zeta. rewrite (fold_left_map add64 (fun p => Number (viewsOf p))), Hmap, Hlen.
  set (n := Z.of_nat (length qs)) in *.
  destruct (fold_left_add64_range lo' hi qs Hlo0 Hall' 0 0%Q) as (r & -> & Hr1 & Hr2);
    [lia | rewrite Z.mul_0_l; apply Qle_refl | rewrite Z.mul_0_l; apply Qle_refl
     | fold n; lia |].
  fold n in Hr1, Hr2. rewrite Z.add_0_l in Hr1, Hr2.
  unfold div64, of_Z.
  assert (Hn0 : (0 < inject_Z n)%Q).
  { rewrite <- (Zlt_Qlt 0). lia. }
  assert (Hnz : Qeq_bool (inject_Z n) 0 = false).
  { apply not_true_is_false. intros Heq. apply Qeq_bool_eq in Heq. lra. }
  rewrite Hnz.
  rewrite inject_Z_mult in Hr1, Hr2.
  destruct (b64_between (r / inject_Z n) lo' hi Hlo0) as (m & -> & Hm1 & Hm2).
  - nia.
  - apply Qle_shift_div_l; [exact Hn0 |]. lra.
  - apply Qle_shift_div_r; [exact Hn0 |]. lra.
  - exists (Qfloor (m + (1 # 2))). split; [reflexivity |].
    pose proof (Qfloor_le (m + (1 # 2))) as Hf1.
    pose proof (Qlt_floor (m + (1 # 2))) as Hf2.
    assert (Hk1 : (inject_Z lo' < inject_Z (Qfloor (m + (1 # 2)) + 1))%Q) by lra.
    assert (Hk2 : (inject_Z (Qfloor (m + (1 # 2))) < inject_Z (hi + 1))%Q).
    { rewrite (inject_Z_plus hi). change (inject_Z 1) with 1%Q. lra. }
    rewrite <- Zlt_Qlt in Hk1, Hk2. unfold lo' in Hk1. lia.
Qed.

Lemma calculateAverageViews_within_range_witness :
  exists k : Z,
    calculateAverageViews [post100; postBad; post201] = Some (of_Z k) /\ 100 <= k <= 201.
Proof.
  apply (calculateAverageViews_within_range [post100; postBad; post201] [100; 201]%Q).
  - vm_compute. reflexivity.
  - discriminate.
  - repeat constructor; unfold Qle; simpl; lia.
  - vm_compute. reflexivity.
Defined.

Section Selection.
Context `{Engine}.

Lemma slice0_length {B} (l : list B) n :
  Z.of_nat (length (slice0 l n))
  = if n <? 0 then Z.max (Z.of_nat (length l) + n) 0
    else Z.min n (Z.of_nat (length l)).
Proof.
  unfold slice0. rewrite length_firstn.
  destruct (Z.ltb_spec n 0); lia.
Qed.

Lemma StronglySorted_firstn {B} (R : B -> B -> Prop) n l :
  StronglySorted R l -> StronglySorted R (firstn n l).
Proof.
  intros Hs. revert n. induction Hs as [|x l Hs IH Hx]; intros [|n]; simpl;
    try constructor.
  - apply IH.
  - apply List.Forall_forall. intros y Hy.
    rewrite List.Forall_forall in Hx. apply Hx.
    rewrite <- (firstn_skipn n l). apply in_or_app. left. exact Hy.
Qed.

(** Sorting a list that is already in descending date order changes
    nothing. *)
Lemma Array_sort_sorted_id l :
  Forall dated l -> StronglySorted notOlder l -> Array_sort byDateDesc l = l.
Proof.
  intros Hd Hs. induction Hs as [|x l Hs IH Hx]; [reflexivity |].
  apply Forall_cons in Hd. destruct Hd as [Hdx Hd].
  cbn [Array_sort]. rewrite (IH Hd).
  destruct l as [|y l]; [reflexivity |].
  cbn [sort_insert].
  apply Forall_cons in Hd. destruct Hd as [Hdy _].
  rewrite (byDateDesc_dated _ _ Hdx Hdy).
  apply List.Forall_inv in Hx. unfold notOlder in Hx.
  destruct (Z.ltb_spec (stamp x) (stamp y)); [lia | reflexivity].
Qed.

Lemma Forall_firstn_stdpp {B} (P : B -> Prop) n (l : list B) :
  Forall P l -> Forall P (firstn n l).
Proof.
  intros Hl. apply Forall_forall. intros y Hy.
  rewrite Forall_forall in Hl. apply Hl.
  apply list_elem_of_In. apply list_elem_of_In in Hy.
  rewrite <- (firstn_skipn n l). apply in_or_app. left. exact Hy.
Qed.

End Selection.

(** X3.  [filterLast10Posts] returns posts of its input only, and as many as
    [slice(0, count)] keeps of that many posts: [min(count, n)] of [n] posts
    for a count of 0 or more, and for a negative count all but the last
    [|count|] of the rearranged posts. *)
Theorem filterLast10Posts_size `{Engine} (posts : list obj) (count : option Z) :
  let n := Z.of_nat (length posts) in
  let c := default 10 count in
  Z.of_nat (length (filterLast10Posts posts count))
  = (if c <? 0 then Z.max (n + c) 0 else Z.min c n) /\
  (forall q : obj, In q (filterLast10Posts posts count) -> In q posts) /\
  (n <= c -> Permutation (filterLast10Posts posts count) posts).
Proof.
  cbv zeta. rewrite filterLast10Posts_unfold. split; [| split].
  - rewrite slice0_length.
    rewrite (Permutation_length (Array_sort_perm byDateDesc posts)). reflexivity.
  - intros q Hq. apply In_slice0 in Hq.
    eapply Permutation_in; [apply Array_sort_perm | exact Hq].
  - intros Hle. rewrite slice0_firstn by lia.
    rewrite firstn_all2.
    + apply Array_sort_perm.
    + rewrite (Permutation_length (Array_sort_perm byDateDesc posts)). lia.
Qed.

(** X4.  On posts that all carry a valid date and for a count of 0 or more,
    selecting twice is selecting once: the selection is already in
    descending date order and within the count. *)
Theorem filterLast10Posts_idempotent `{Engine} (posts : list obj) (count : option Z) :
  Forall dated posts -> 0 <= default 10 count ->
  filterLast10Posts (filterLast10Posts posts count) count
  = filterLast10Posts posts count.
Proof.
  intros Hd Hc. rewrite !filterLast10Posts_unfold.
  rewrite !slice0_firstn by exact Hc.
  set (sorted := Array_sort byDateDesc posts).
  assert (Hs : StronglySorted notOlder sorted) by (apply Array_sort_sorted; exact Hd).
  assert (Hds : Forall dated sorted)
    by (unfold sorted; rewrite (Array_sort_perm byDateDesc posts); exact Hd).
  rewrite Array_sort_sorted_id.
  - rewrite firstn_firstn. f_equal. lia.
  - apply Forall_firstn_stdpp. exact Hds.
  - apply StronglySorted_firstn. exact Hs.
Qed.

Lemma filterLast10Posts_idempotent_witness :
  filterLast10Posts (H := RefEngine.engine)
    (filterLast10Posts (H := RefEngine.engine) [postJan; postMar; postFeb] (Some 2)) (Some 2)
  = filterLast10Posts (H := RefEngine.engine) [postJan; postMar; postFeb] (Some 2).
Proof.
  apply (filterLast10Posts_idempotent (H := RefEngine.engine)).
  - repeat constructor; eexists; vm_compute; reflexivity.
  - simpl. lia.
Defined.

Section Reconciliation.
Context `{Engine}.

Lemma existingKeys_app e k : existingKeys (e ++ k) = existingKeys e ++ existingKeys k.
Proof. apply map_app. Qed.

Lemma isKnown_ext e1 e2 :
  (forall k, k ∈ existingKeys e1 <-> k ∈ existingKeys e2) ->
  forall p, isKnown e1 p = isKnown e2 p.
Proof.
  intros Hk p. unfold isKnown. apply bool_decide_ext. apply Hk.
Qed.

Lemma dedup_eq (d d' : dedup) :
  toAppend d = toAppend d' -> toUpdate d = toUpdate d' -> d = d'.
Proof.
  destruct d, d'. simpl. intros -> ->. reflexivity.
Qed.

Lemma hasLink_normalizePost now post u p :
  truthy (get post "postLink") = false -> truthy (get post "url") = false ->
  hasLink (normalizePost now post u p) = false.
Proof.
  intros Hl Hu. unfold hasLink, postLinkOf, get, normalizePost.
  rewrite !lookup_insert_ne by discriminate. rewrite lookup_insert_eq.
  fold (get post "postLink") (get post "url").
  unfold or. rewrite Hl, Hu. reflexivity.
Qed.

End Reconciliation.

(** X5.  Reconciling the same fresh posts again, once the posts to append
    have joined the existing ones, appends nothing: every fresh post with a
    resolvable link is then an update. *)
Theorem deduplicatePosts_settles `{Engine} (existing fresh : list obj) :
  let d := deduplicatePosts existing fresh in
  let d' := deduplicatePosts (existing ++ toAppend d) fresh in
  toAppend d' = [] /\ toUpdate d' = List.filter hasLink fresh.
Proof.
  cbv zeta.
  destruct (deduplicatePosts_filters (existing ++ toAppend (deduplicatePosts existing fresh))
                                     fresh) as [HA HU].
  destruct (deduplicatePosts_members existing fresh) as (Happ & _ & _).
  assert (Hknown : forall p, In p fresh -> hasLink p = true ->
             isKnown (existing ++ toAppend (deduplicatePosts existing fresh)) p = true).
  { intros p Hin Hl. unfold isKnown. apply bool_decide_eq_true.
    rewrite existingKeys_app, elem_of_app.
    destruct (decide (postLinkOf p ∈ existingKeys existing)) as [Hk | Hk]; [left; exact Hk |].
    right. unfold existingKeys.
    apply list_elem_of_In, in_map, list_elem_of_In, Happ.
    split; [apply list_elem_of_In; exact Hin | split; assumption]. }
  split.
  - rewrite HA. apply filter_nil_Forall, Forall_forall. intros p Hp.
    apply list_elem_of_In in Hp.
    destruct (hasLink p) eqn:Hl; [| reflexivity].
    rewrite (Hknown p Hp Hl). reflexivity.
  - rewrite HU. apply filter_ext_in. intros p Hp.
    destruct (hasLink p) eqn:Hl; [| reflexivity].
    rewrite (Hknown p Hp Hl). reflexivity.
Qed.

(** X6.  Of the existing posts only the set of their links matters to
    [deduplicatePosts]: their number, their order and their other fields
    play no part. *)
Theorem deduplicatePosts_by_links `{Engine} (existing existing' fresh : list obj) :
  (forall k, k ∈ existingKeys existing <-> k ∈ existingKeys existing') ->
  deduplicatePosts existing fresh = deduplicatePosts existing' fresh.
Proof.
  intros Hk.
  destruct (deduplicatePosts_filters existing fresh) as [HA HU].
  destruct (deduplicatePosts_filters existing' fresh) as [HA' HU'].
  apply dedup_eq.
  - rewrite HA, HA'. apply filter_ext. intros p.
    rewrite (isKnown_ext _ _ Hk p). reflexivity.
  - rewrite HU, HU'. apply filter_ext. intros p.
    rewrite (isKnown_ext _ _ Hk p). reflexivity.
Qed.

Lemma deduplicatePosts_by_links_witness :
  deduplicatePosts (H := RefEngine.engine) [linkA; linkB] [linkA'; linkB; noLinkPost]
  = deduplicatePosts (H := RefEngine.engine) [linkB; linkA'; linkA] [linkA'; linkB; noLinkPost].
Proof.
  apply (deduplicatePosts_by_links (H := RefEngine.engine)).
  intros k. vm_compute existingKeys.
  rewrite !elem_of_cons, !elem_of_nil. tauto.
Defined.

(** X7.  Each fresh post is classified on its own: reconciling two batches
    in one call gives the two results one after the other. *)
Theorem deduplicatePosts_batches `{Engine} (existing fresh fresh' : list obj) :
  let d := deduplicatePosts existing fresh in
  let d' := deduplicatePosts existing fresh' in
  deduplicatePosts existing (fresh ++ fresh')
  = {| toAppend := toAppend d ++ toAppend d'; toUpdate := toUpdate d ++ toUpdate d' |}.
Proof.
  cbv zeta.
  destruct (deduplicatePosts_filters existing fresh) as [HA HU].
  destruct (deduplicatePosts_filters existing fresh') as [HA' HU'].
  destruct (deduplicatePosts_filters existing (fresh ++ fresh')) as [HA2 HU2].
  apply dedup_eq; cbn [toAppend toUpdate].
  - rewrite HA, HA', HA2. apply List.filter_app.
  - rewrite HU, HU', HU2. apply List.filter_app.
Qed.

(** X8.  A normalized post is a fixed point of [normalizePost] for the same
    identity: its fields are already in the normalized form, and the clock
    is not consulted again as long as the first time stamp is not empty. *)
Theorem normalizePost_idempotent (now now' : string) (post : obj) (username platform : jsval) :
  now <> "" ->
  normalizePost now' (normalizePost now post username platform) username platform
  = normalizePost now post username platform.
Proof.
  intros Hnow.
  set (q := normalizePost now post username platform).
  assert (Eplat : get q "platform" = or (or platform (get post "platform")) (VStr "")).
  { unfold q, get, normalizePost. rewrite lookup_insert_ne by discriminate.
    rewrite lookup_insert_eq. reflexivity. }
  assert (Elink : get q "postLink" = or (or (get post "postLink") (get post "url")) (VStr "")).
  { unfold q, get, normalizePost. rewrite !lookup_insert_ne by discriminate.
    rewrite lookup_insert_eq. reflexivity. }
  assert (Eurl : get q "url" = VUndef).
  { unfold q, get, normalizePost. rewrite !lookup_insert_ne by discriminate.
    rewrite lookup_empty. reflexivity. }
  assert (Edate : get q "postedDate"
                  = or (or (get post "postedDate") (get post "date")) (VStr now)).
  { unfold q, get, normalizePost. rewrite !lookup_insert_ne by discriminate.
    rewrite lookup_insert_eq. reflexivity. }
  assert (Edate' : get q "date" = VUndef).
  { unfold q, get, normalizePost. rewrite !lookup_insert_ne by discriminate.
    rewrite lookup_empty. reflexivity. }
  assert (Ecomm : get q "comments"
                  = numberOr (get post "comments")
                             (numberOr (get post "share") (VNum (Fin 0)))).
  { unfold q, get, normalizePost. rewrite !lookup_insert_ne by discriminate.
    rewrite lookup_insert_eq. reflexivity. }
  assert (Elikes : get q "likes" = numberOr (get post "likes") (VNum (Fin 0))).
  { unfold q, get, normalizePost. rewrite !lookup_insert_ne by discriminate.
    rewrite lookup_insert_eq. reflexivity. }
  unfold normalizePost at 1.
  rewrite Eplat, Elink, Eurl, Edate, Edate', Ecomm, Elikes.
  unfold q, normalizePost.
  assert (Hnow' : truthy (VStr now) = true).
  { simpl. destruct (String.eqb_spec now ""); [congruence | reflexivity]. }
  assert (H1 : or (or platform (or (or platform (get post "platform")) (VStr ""))) (VStr "")
               = or (or platform (get post "platform")) (VStr "")).
  { unfold or. destruct (truthy platform) eqn:E1; rewrite ?E1; [reflexivity |].
    destruct (truthy (get post "platform")) eqn:E2; rewrite ?E1, ?E2; reflexivity. }
  assert (H2 : or (or (or (or (get post "postLink") (get post "url")) (VStr "")) VUndef)
                  (VStr "")
               = or (or (get post "postLink") (get post "url")) (VStr "")).
  { unfold or. destruct (truthy (get post "postLink")) eqn:E1; rewrite ?E1; [reflexivity |].
    destruct (truthy (get post "url")) eqn:E2; rewrite ?E2; reflexivity. }
  assert (H3 : or (or (or (or (get post "postedDate") (get post "date")) (VStr now)) VUndef)
                  (VStr now')
               = or (or (get post "postedDate") (get post "date")) (VStr now)).
  { unfold or. destruct (truthy (get post "postedDate")) eqn:E1; rewrite ?E1; [reflexivity |].
    destruct (truthy (get post "date")) eqn:E2; rewrite ?E2, ?Hnow'; reflexivity. }
  assert (H4 : forall x y z, numberOr (numberOr x (numberOr y (VNum (Fin 0)))) z
                             = numberOr x (numberOr y (VNum (Fin 0)))).
  { intros x y z. destruct x; try reflexivity. destruct y; reflexivity. }
  assert (H5 : forall x z, numberOr (numberOr x (VNum (Fin 0))) z
                           = numberOr x (VNum (Fin 0))).
  { intros x z. destruct x; reflexivity. }
  rewrite H1, H2, H3, H4, H5. reflexivity.
Qed.

Lemma normalizePost_idempotent_witness :
  normalizePost "2025-01-01T00:00:00.000Z"
    (normalizePost "2024-03-01T00:00:00.000Z" noLinkPost (VStr "bob") (VStr "tiktok"))
    (VStr "bob") (VStr "tiktok")
  = normalizePost "2024-03-01T00:00:00.000Z" noLinkPost (VStr "bob") (VStr "tiktok").
Proof.
  apply normalizePost_idempotent. discriminate.
Defined.

(** X9.  A raw post with neither a usable [postLink] nor a usable [url] is
    normalized to a post with an empty link, and reconciliation then puts it
    in neither list: it is never written. *)
Theorem normalized_linkless_post_dropped `{Engine} (now : string) (post : obj)
        (username platform : jsval) (existing fresh : list obj) :
  truthy (get post "postLink") = false ->
  truthy (get post "url") = false ->
  let q := normalizePost now post username platform in
  get q "postLink" = VStr "" /\
  ~ In q (toAppend (deduplicatePosts existing fresh)) /\
  ~ In q (toUpdate (deduplicatePosts existing fresh)).
Proof.
  intros Hl Hu q.
  pose proof (hasLink_normalizePost now post username platform Hl Hu) as Hno.
  destruct (deduplicatePosts_members existing fresh) as (Happ & Hupd & _).
  split; [| split].
  - unfold q, get, normalizePost. rewrite !lookup_insert_ne by discriminate.
    rewrite lookup_insert_eq. fold (get post "postLink") (get post "url").
    unfold or. rewrite Hl, Hu. reflexivity.
  - intros Hin. apply list_elem_of_In, Happ in Hin. destruct Hin as (_ & Hh & _).
    fold q in Hno. congruence.
  - intros Hin. apply list_elem_of_In, Hupd in Hin. destruct Hin as (_ & Hh & _).
    fold q in Hno. congruence.
Qed.

Lemma normalized_linkless_post_dropped_witness :
  let q := normalizePost "2024-03-01T00:00:00.000Z" noLinkPost (VStr "bob") (VStr "tiktok") in
  get q "postLink" = VStr "" /\
  ~ In q (toAppend (deduplicatePosts (H := RefEngine.engine) [linkA] [q; linkB])) /\
  ~ In q (toUpdate (deduplicatePosts (H := RefEngine.engine) [linkA] [q; linkB])).
Proof.
  apply (normalized_linkless_post_dropped (H := RefEngine.engine)); reflexivity.
Defined.

(** ** The strategies *)

Section StrategyFacts.

Lemma tiktok_body_ok br (k : M (list obj)) url :
  opens br && loads br = true ->
  Eff.outcome ((if WebScraperStrategy.hasPage br then ret tt
                else WebScraperStrategy.initialize TikTokWebStrategy.platformName br) ;;;
               WebScraperStrategy.navigateTo TikTokWebStrategy.platformName br true url ;;;
               k) = Eff.outcome k.
Proof.
  unfold opens, loads. intros Hok. apply andb_true_iff in Hok. destruct Hok as [Ho Hl].
  rewrite outcome_bind.
  assert (Hinit : Eff.outcome (if WebScraperStrategy.hasPage br then ret tt
                               else WebScraperStrategy.initialize
                                      TikTokWebStrategy.platformName br) = Ok tt).
  { destruct (WebScraperStrategy.hasPage br); [reflexivity |].
    rewrite web_initialize_outcome.
    destruct (WebScraperStrategy.createPage br) as [[] | e]; [reflexivity | discriminate]. }
  rewrite Hinit, outcome_bind, web_navigateTo_outcome.
  destruct (WebScraperStrategy.goto br) as [[] | e]; [reflexivity | discriminate].
Qed.

Lemma pageFails_when_not_ready br :
  opens br && loads br = false -> exists e, pageFails br e.
Proof.
  unfold opens, loads, pageFails. intros Hno.
  destruct (WebScraperStrategy.hasPage br) eqn:Hp;
    destruct (WebScraperStrategy.createPage br) as [[] | e] eqn:Hc;
    destruct (WebScraperStrategy.goto br) as [[] | e'] eqn:Hg;
    try discriminate; eauto 6.
Qed.

Lemma Zsum_backoff n : Zsum (backoff n) = 1000 * (2 ^ Z.of_nat n - 1).
Proof.
  unfold backoff, Zsum. induction n as [|n IH]; [reflexivity |].
  rewrite seq_S, map_app, fold_right_app. cbn [List.map fold_right Nat.add].
  rewrite Z.add_0_r.
  assert (Hacc : forall l a, fold_right Z.add a l = fold_right Z.add 0 l + a).
  { induction l as [|x l IHl]; intros a; simpl; [lia | rewrite IHl; lia]. }
  rewrite Hacc, IH, Nat2Z.inj_succ, Z.pow_succ_r by lia. lia.
Qed.

Lemma mapM_outcome {A B} (f : A -> M B) (g : A -> B) l :
  (forall x, Eff.outcome (f x) = Ok (g x)) ->
  Eff.outcome (mapM f l) = Ok (List.map g l).
Proof.
  intros Hf. induction l as [|x l IH]; [reflexivity |].
  cbn [mapM List.map]. rewrite outcome_bind, Hf, outcome_bind, IH. reflexivity.
Qed.

Lemma meta_transformPost_outcome insightsNet media :
  Eff.outcome (InstagramMetaStrategy.transformPost insightsNet media)
  = Ok (<[ "postLink" := or (get media "permalink") (VStr "") ]>
        (<[ "postedDate" := or (get media "timestamp") (VStr "") ]>
        (<[ "comments" := or (get media "comments_count") (VNum (Fin 0)) ]>
        (<[ "likes" := or (get media "like_count") (VNum (Fin 0)) ]> ∅)))).
Proof.
  unfold InstagramMetaStrategy.transformPost, InstagramMetaStrategy.fetchMediaInsights.
  rewrite outcome_bind, outcome_try_catch, outcome_bind.
  destruct (Eff.outcome (MetaApiStrategy.makeRequest _ _ _)) as [v | e].
  - reflexivity.
  - rewrite bind_log. reflexivity.
Qed.

Lemma meta_throws_fresh {A} platformName (net : Z -> result A) fuel a e :
  MetaApiStrategy.maxRetries - a <= Z.of_nat fuel ->
  Eff.outcome (MetaApiStrategy.makeRequest_fuel platformName net fuel a) = Throw e ->
  exists msg, e = mkError (platformName ++ " Meta API" ++ msg).
Proof.
  revert a. induction fuel as [|fuel IH]; intros a Hfuel;
    cbn [MetaApiStrategy.makeRequest_fuel]; rewrite bind_log, bind_emit;
    cbn [Eff.outcome snd];
    (destruct (net a) as [d | err]; [discriminate |]);
    unfold MetaApiStrategy.handleError; rewrite bind_log; cbn [Eff.outcome snd].
  - destruct (MetaApiStrategy.isTokenExpired err);
      [intros [= <-]; eexists; reflexivity |].
    destruct (MetaApiStrategy.isInvalidParam err);
      [intros [= <-]; eexists; reflexivity |].
    destruct (MetaApiStrategy.isPermissionError err);
      [intros [= <-]; eexists; reflexivity |].
    destruct (Z.ltb_spec a MetaApiStrategy.maxRetries); [lia |].
    cbn [andb]. intros [= <-]. eexists. reflexivity.
  - destruct (MetaApiStrategy.isTokenExpired err);
      [intros [= <-]; eexists; reflexivity |].
    destruct (MetaApiStrategy.isInvalidParam err);
      [intros [= <-]; eexists; reflexivity |].
    destruct (MetaApiStrategy.isPermissionError err);
      [intros [= <-]; eexists; reflexivity |].
    destruct ((a <? MetaApiStrategy.maxRetries)
              && (MetaApiStrategy.isRateLimited err || MetaApiStrategy.isTimeout err))
             eqn:Eretry.
    + rewrite bind_log, bind_emit. cbn [Eff.outcome snd].
      apply IH. lia.
    + intros [= <-]. eexists. reflexivity.
Qed.

End StrategyFacts.

(** X10.  The error handler of the web strategies never throws and makes no
    request: it writes one error line and returns one of seven kinds.  What
    the message says comes before the HTTP status: an error whose message
    mentions a timeout is a timeout whatever its status, and only an error
    with none of the three message patterns is classified by its status. *)
Theorem handleError_classifies (platformName : string) (err : JsError) (username : string) :
  let c := WebScraperStrategy.handleError platformName err username in
  exists (i : ScrapingStrategy.errorInfo) (line : string),
    c = ([Log LError line], Ok i) /\
    In (ScrapingStrategy.error i) errorKinds /\
    (includes (message err) "timeout" = true -> ScrapingStrategy.error i = "timeout") /\
    (includes (message err) "timeout" = false ->
     includes (message err) "Navigation timeout" = false ->
     includes (message err) "net::ERR_PROXY" = false ->
     includes (message err) "ERR_NAME_NOT_RESOLVED" = false ->
     c = ScrapingStrategy.handleError platformName err username /\
     (ScrapingStrategy.error i = "user_not_found" <-> status err = Some 404) /\
     (ScrapingStrategy.error i = "private_account" <-> status err = Some 403) /\
     (ScrapingStrategy.error i = "rate_limit" <-> status err = Some 429)).
Proof.
  cbv zeta. unfold WebScraperStrategy.handleError, ScrapingStrategy.handleError, errorKinds.
  destruct (includes (message err) "timeout") eqn:E1; cbn [orb].
  { rewrite bind_log. do 2 eexists. split; [reflexivity |].
    cbn. split; [tauto |]. split; [reflexivity | discriminate]. }
  destruct (includes (message err) "Navigation timeout") eqn:E2.
  { rewrite bind_log. do 2 eexists. split; [reflexivity |].
    cbn. split; [tauto |]. split; discriminate. }
  destruct (includes (message err) "net::ERR_PROXY") eqn:E3.
  { rewrite bind_log. do 2 eexists. split; [reflexivity |].
    cbn. split; [tauto |]. split; discriminate. }
  destruct (includes (message err) "ERR_NAME_NOT_RESOLVED") eqn:E4.
  { rewrite bind_log. do 2 eexists. split; [reflexivity |].
    cbn. split; [tauto |]. split; discriminate. }
  destruct (decide (status err = Some 404)) as [H404 | H404].
  { rewrite (bool_decide_eq_true_2 _ H404), bind_log. do 2 eexists.
    split; [reflexivity |]. cbn. split; [tauto |]. split; [discriminate |].
    intros _ _ _ _. split; [reflexivity |].
    rewrite H404. repeat split; intros; congruence. }
  rewrite (bool_decide_eq_false_2 _ H404).
  destruct (decide (status err = Some 403)) as [H403 | H403].
  { rewrite (bool_decide_eq_true_2 _ H403), bind_log. do 2 eexists.
    split; [reflexivity |]. cbn. split; [tauto |]. split; [discriminate |].
    intros _ _ _ _. split; [reflexivity |].
    rewrite H403. repeat split; intros; congruence. }
  rewrite (bool_decide_eq_false_2 _ H403).
  destruct (decide (status err = Some 429)) as [H429 | H429].
  { rewrite (bool_decide_eq_true_2 _ H429), bind_log. do 2 eexists.
    split; [reflexivity |]. cbn. split; [tauto |]. split; [discriminate |].
    intros _ _ _ _. split; [reflexivity |].
    rewrite H429. repeat split; intros; congruence. }
  rewrite (bool_decide_eq_false_2 _ H429), bind_log. do 2 eexists.
  split; [reflexivity |]. cbn. split; [tauto |]. split; [discriminate |].
  intros _ _ _ _. split; [reflexivity |].
  repeat split; intros; congruence.
Qed.

(** X11.  [TikTokWebStrategy.getRecentPosts] returns the extracted posts
    exactly when the page opens, the profile loads and posts are found, and
    the empty list otherwise; how closing the page ends plays no part. *)
Theorem tiktok_getRecentPosts_result (br : WebScraperStrategy.Browser) (postsFound : bool)
        (extracted : list obj) (username : string) (count : Z) :
  Eff.outcome (TikTokWebStrategy.getRecentPosts br postsFound extracted username count)
  = Ok (if opens br && loads br && postsFound then extracted else []).
Proof.
  unfold TikTokWebStrategy.getRecentPosts. cbv zeta.
  rewrite outcome_finally, web_cleanup_ok, outcome_try_catch.
  rewrite bind_log. cbn [Eff.outcome snd].
  destruct (opens br && loads br) eqn:Eready.
  - rewrite (tiktok_body_ok br _ _ Eready).
    destruct postsFound; cbn [negb andb]; rewrite bind_log; reflexivity.
  - destruct (pageFails_when_not_ready br Eready) as [e He].
    rewrite (tiktok_body_throws br e _ _ He).
    rewrite outcome_bind.
    destruct (web_handleError_ok TikTokWebStrategy.platformName e username) as [i ->].
    rewrite bind_log. reflexivity.
Qed.

(** X12.  The impressions [InstagramMetaStrategy] fetches for each media
    never reach the posts it returns: the result is the same whatever the
    insights calls answer, a failing insights call does not fail the fetch,
    and a returned post has the properties postLink, postedDate, comments
    and likes only. *)
Theorem instagramMeta_posts_ignore_insights
        (mediaNet : Z -> result (option (list obj)))
        (insightsNet insightsNet' : jsval -> Z -> result jsval)
        (userId username : string) (count : Z) :
  let fetch ins := Eff.outcome (InstagramMetaStrategy.getRecentPosts mediaNet ins userId
                                                                     username count) in
  fetch insightsNet = fetch insightsNet' /\
  (forall posts, fetch insightsNet = Ok posts ->
                 Forall (fun q => dom q = metaPostKeys) posts) /\
  (forall media,
      Eff.outcome (MetaApiStrategy.makeRequest InstagramMetaStrategy.platformName mediaNet 1)
      = Ok (Some media) ->
      exists posts, fetch insightsNet = Ok posts /\ length posts = length media).
Proof.
  cbv zeta.
  assert (Hshape : forall ins,
             Eff.outcome (InstagramMetaStrategy.getRecentPosts mediaNet ins userId
                                                               username count)
             = match Eff.outcome (MetaApiStrategy.makeRequest
                                    InstagramMetaStrategy.platformName mediaNet 1) with
               | Throw e => Throw e
               | Ok media =>
                   Ok (List.map
                         (fun m =>
                            <[ "postLink" := or (get m "permalink") (VStr "") ]>
                            (<[ "postedDate" := or (get m "timestamp") (VStr "") ]>
                            (<[ "comments" := or (get m "comments_count") (VNum (Fin 0)) ]>
                            (<[ "likes" := or (get m "like_count") (VNum (Fin 0)) ]>
                             (∅ : obj)))))
                         (default [] media))
               end).
  { intros ins. unfold InstagramMetaStrategy.getRecentPosts.
    rewrite outcome_try_catch, bind_log. cbn [Eff.outcome snd].
    rewrite outcome_bind.
    destruct (Eff.outcome (MetaApiStrategy.makeRequest _ _ _)) as [media | e].
    - destruct media as [[|m media] |]; try (rewrite bind_log; reflexivity).
      rewrite bind_log. cbn [Eff.outcome snd]. rewrite outcome_bind.
      rewrite (mapM_outcome _ _ _ (meta_transformPost_outcome ins)).
      rewrite bind_log. reflexivity.
    - rewrite bind_log. reflexivity. }
  split; [rewrite !Hshape; reflexivity |].
  split.
  - intros posts. rewrite Hshape.
    destruct (Eff.outcome (MetaApiStrategy.makeRequest _ _ _)) as [media | e];
      [| discriminate].
    intros [= <-]. apply Forall_forall. intros q Hq.
    apply list_elem_of_In, in_map_iff in Hq. destruct Hq as (m & <- & _).
    unfold metaPostKeys. rewrite !dom_insert_L, dom_empty_L. set_solver.
  - intros media Hmedia. rewrite Hshape, Hmedia. eexists. split; [reflexivity |].
    apply length_map.
Qed.

(** X13.  The waits of one [RapidApiStrategy.makeRequest] add up to
    [1000 * (2^(k-1) - 1)] milliseconds for [k] requests, which the
    configured retry count bounds; with a retry count of 1 or less there is
    one request, no wait, and the call ends as that request ends.  One
    [MetaApiStrategy.makeRequest] never waits more than 3000 milliseconds. *)
Theorem makeRequest_total_wait (A : Type) (retryAttempts : Z) (platformName : string)
        (net : Z -> result A) :
  let c := RapidApiStrategy.makeRequest retryAttempts platformName net 1 in
  let k := Z.of_nat (length (requests (trace c))) in
  Zsum (sleeps (trace c)) = 1000 * (2 ^ (k - 1) - 1) /\
  Zsum (sleeps (trace c)) <= 1000 * (2 ^ (Z.max 1 retryAttempts - 1) - 1) /\
  (retryAttempts <= 1 ->
   requests (trace c) = [1] /\ sleeps (trace c) = [] /\ Eff.outcome c = net 1) /\
  Zsum (sleeps (trace (MetaApiStrategy.makeRequest platformName net 1))) <= 3000.
Proof.
  cbv zeta. unfold RapidApiStrategy.makeRequest, MetaApiStrategy.makeRequest.
  destruct (rapid_run retryAttempts platformName net (Z.to_nat (retryAttempts - 1)) 1)
    as (n & Hprior & Hstop & Hout & Hreq & Hsl); [lia |].
  destruct (meta_run platformName net (Z.to_nat (MetaApiStrategy.maxRetries - 1)) 1)
    as (m & Hprior' & _ & Hsl' & _); [unfold MetaApiStrategy.maxRetries; lia |].
  rewrite Hreq, Hsl, Hsl', length_map, length_seq, !backoff_from_one, !Zsum_backoff.
  assert (Hn : 1 + Z.of_nat n <= Z.max 1 retryAttempts).
  { destruct n as [|n]; [lia |].
    specialize (Hprior (Z.of_nat (S n)) ltac:(lia)). lia. }
  assert (Hm : (m <= 2)%nat).
  { destruct m as [|m]; [lia |].
    specialize (Hprior' (Z.of_nat (S m)) ltac:(lia)).
    unfold MetaApiStrategy.maxRetries in Hprior'. lia. }
  split; [do 3 f_equal; lia |].
  split.
  { apply Z.mul_le_mono_nonneg_l; [lia |]. apply Z.sub_le_mono_r.
    apply Z.pow_le_mono_r; lia. }
  split.
  - intros Hone. assert (n = 0%nat) by lia. subst n.
    rewrite Hout. repeat split; reflexivity.
  - assert (2 ^ Z.of_nat m <= 2 ^ 2) by (apply Z.pow_le_mono_r; lia). lia.
Qed.

(** X14.  An error thrown by [MetaApiStrategy.makeRequest] is never the one
    the request failed with: it is a new error whose message starts with
    the platform name and [Meta API], and it carries neither the HTTP status
    nor the error codes. *)
Theorem meta_makeRequest_throws_fresh (A : Type) (platformName : string)
        (net : Z -> result A) (e : JsError) :
  Eff.outcome (MetaApiStrategy.makeRequest platformName net 1) = Throw e ->
  (exists msg, message e = (platformName ++ " Meta API" ++ msg)%string) /\
  status e = None /\ code e = None /\ apiCode e = None.
Proof.
  intros He. unfold MetaApiStrategy.makeRequest in He.
  apply meta_throws_fresh in He; [| lia].
  destruct He as [msg ->]. split; [exists msg; reflexivity |].
  repeat split; reflexivity.
Qed.

Lemma meta_makeRequest_throws_fresh_witness :
  exists e,
    Eff.outcome (MetaApiStrategy.makeRequest "Instagram" expiredNet 1) = Throw e /\
    status e = None /\ apiCode e = None.
Proof.
  destruct (Eff.outcome (MetaApiStrategy.makeRequest "Instagram" expiredNet 1))
    as [d | e] eqn:He; [vm_compute in He; discriminate He |].
  exists e. split; [reflexivity |].
  destruct (meta_makeRequest_throws_fresh _ "Instagram" expiredNet e He)
    as (_ & Hs & _ & Ha).
  split; assumption.
Defined.

(** X15.  [BaseScraper.getRecentPosts] adds nothing to a fetch that
    succeeds: it returns the strategy's posts, or the empty list for
    [undefined], and writes no line of its own.  When [initialize] throws,
    the strategy is not asked for posts: the call leaves the events of
    [initialize] and one error line. *)
Theorem base_getRecentPosts_delegates (platformName : string) (st : BaseScraper.Strategy)
        (username : string) (count : Z) :
  let init := default (ret tt) (BaseScraper.initialize st) in
  let fetch := BaseScraper.strategyPosts st username count in
  let c := BaseScraper.getRecentPosts platformName (Some st) username count in
  let line e := Log LError (platformName ++ ": Error getting posts for " ++ username ++ ": "
                            ++ message e) in
  match Eff.outcome init, Eff.outcome fetch with
  | Ok _, Ok posts => c = (trace init ++ trace fetch, Ok (default [] posts))
  | Ok _, Throw e => c = (trace init ++ trace fetch ++ [line e], Ok [])
  | Throw e, _ => c = (trace init ++ [line e], Ok [])
  end.
Proof.
  cbv zeta. unfold BaseScraper.getRecentPosts.
  destruct (BaseScraper.initialize st) as [[ti [[] | ei]] |]; cbn [default];
    destruct (BaseScraper.strategyPosts st username count) as [tf [posts | ef]];
    cbn [Eff.outcome trace fst snd];
    unfold try_catch, Eff.bind, ret, log, emit;
    rewrite ?app_nil_r, ?app_nil_l, <- ?app_assoc; reflexivity.
Qed.

(** X16.  [extractNumber] returns NaN in two cases only: for the number NaN
    itself, and for a string that ends in k, m or b (after lower-casing and
    trimming) but does not start with a number; every other value gives a
    number. *)
Theorem extractNumber_NaN_cases (value : jsval) :
  ScrapingStrategy.extractNumber value = NaN <->
  match value with
  | VNum n => n = NaN
  | VStr s =>
      let lowerValue := trim (toLowerCase s) in
      endsWith lowerValue "k" || endsWith lowerValue "m" || endsWith lowerValue "b" = true /\
      parseFloat lowerValue = NaN
  | _ => False
  end.
Proof.
  assert (Hscaled : forall p z, 0 < z -> Math_round (mul64 p (of_Z z)) = NaN <-> p = NaN).
  { intros p z Hz. destruct p as [| | | q]; cbn [mul64 mul of_Z Math_round].
    - tauto.
    - unfold sign_of, sgn, inject_Z. cbn [Qnum]. destruct z; try lia.
      simpl. split; discriminate.
    - unfold sign_of, sgn, inject_Z. cbn [Qnum]. destruct z; try lia.
      simpl. split; discriminate.
    - destruct (b64 (q * inject_Z z)) eqn:E; cbn [Math_round of_Z];
        try (split; discriminate).
      exfalso. exact (b64_not_NaN _ E). }
  destruct value as [| | b | n | s]; cbn [ScrapingStrategy.extractNumber];
    try (split; [discriminate | tauto]); [tauto |].
  cbv zeta.
  destruct (endsWith (trim (toLowerCase s)) "k") eqn:Ek; cbn [orb].
  { rewrite Hscaled by lia. tauto. }
  destruct (endsWith (trim (toLowerCase s)) "m") eqn:Em; cbn [orb].
  { rewrite Hscaled by lia. tauto. }
  destruct (endsWith (trim (toLowerCase s)) "b") eqn:Eb.
  { rewrite Hscaled by lia. tauto. }
  destruct (parseFloat (remove_commas (trim (toLowerCase s)))); cbn [isNaN];
    split; try discriminate; intros [Hf _]; discriminate.
Qed.

(** ** The job *)

Section JobCounts.
Context `{Engine}.

Lemma processInfluencer_counts getRecentPosts clock inf existingPosts :
  let r := processInfluencer getRecentPosts clock inf existingPosts in
  Z.of_nat (length (o_toAppend r)) + Z.of_nat (length (o_toUpdate r)) <= postsCount r.
Proof.
  unfold processInfluencer.
  destruct (getScraperForPlatform (platform inf)) as [sc | e]; cbn [andThen];
    [| simpl; lia].
  destruct (getRecentPosts sc (username inf) postsToFetch) as [[[|q posts] |] | e];
    cbn [andThen]; try (simpl; lia).
  cbn [o_toAppend o_toUpdate postsCount].
  match goal with
  | |- context [deduplicatePosts ?ex ?fr] =>
      destruct (deduplicatePosts_members ex fr) as (_ & _ & Hperm);
      pose proof (Permutation_length Hperm) as Hlen;
      pose proof (filter_length_le hasLink fr) as Hle
  end.
  rewrite length_app in Hlen.
  assert (Hn : length (normalizePosts clock (q :: posts) (username inf) (platform inf))
               = length (q :: posts)) by apply length_imap.
  rewrite Hn in Hle. lia.
Qed.

Lemma fold_postsCount_acc (l : list ScrapingJob.outcome) a :
  fold_left (fun sum r => sum + postsCount r) l a
  = a + fold_left (fun sum r => sum + postsCount r) l 0.
Proof.
  revert a. induction l as [|r l IH]; intros a; cbn [fold_left]; [lia |].
  rewrite (IH (a + postsCount r)), (IH (0 + postsCount r)). lia.
Qed.

Lemma written_le_fetched (l : list ScrapingJob.outcome) :
  Forall (fun r => Z.of_nat (length (o_toAppend r)) + Z.of_nat (length (o_toUpdate r))
                   <= postsCount r) l ->
  Z.of_nat (length (List.flat_map o_toAppend l))
  + Z.of_nat (length (List.flat_map o_toUpdate l))
  <= fold_left (fun sum r => sum + postsCount r) l 0.
Proof.
  induction 1 as [|r l Hr _ IH]; cbn [flat_map fold_left]; [simpl; lia |].
  rewrite !length_app, fold_postsCount_acc. lia.
Qed.

Lemma failureRate_gt50 (f n : Z) :
  0 < n -> 0 <= f ->
  gt0 (sub (mul (div (of_Z f) (of_Z n)) (of_Z 100)) (of_Z 50)) = (n <? 2 * f).
Proof.
  intros Hn Hf. unfold of_Z, div.
  assert (Hnz : Qeq_bool (inject_Z n) 0 = false).
  { apply not_true_is_false. intros Heq. apply Qeq_bool_eq in Heq.
    unfold Qeq in Heq. simpl in Heq. lia. }
  rewrite Hnz. cbn [mul sub neg add gt0].
  set (q := Qred (Qred (Qred (inject_Z f / inject_Z n) * inject_Z 100)
                  + Qred (- inject_Z 50))).
  assert (Hq : (q == inject_Z f / inject_Z n * inject_Z 100 - inject_Z 50)%Q).
  { unfold q. rewrite !Qred_correct. reflexivity. }
  assert (Hiff : (q <= 0)%Q <-> 2 * f <= n).
  { rewrite Hq. destruct n as [|p|p]; try lia.
    unfold Qle, Qminus, Qplus, Qopp, Qmult, Qdiv, Qinv, inject_Z. simpl.
    rewrite ?Pos.mul_1_r. lia. }
  destruct (Z.ltb_spec n (2 * f)) as [Hlt | Hge].
  - destruct (Qle_bool q 0) eqn:E; [| reflexivity].
    apply Qle_bool_iff, Hiff in E. lia.
  - destruct (Qle_bool q 0) eqn:E; [reflexivity |].
    assert (Qle_bool q 0 = true) by (apply Qle_bool_iff, Hiff; lia). congruence.
Qed.

(** On array lengths the binary64 operations decide the failure-rate alert
    as the exact ones do. *)
Lemma failureRate_binary64 (f n : Z) :
  0 < n < 2 ^ 32 -> 0 <= f <= n ->
  gt0 (sub (mul64 (div64 (of_Z f) (of_Z n)) (of_Z 100)) (of_Z 50)) = (n <? 2 * f).
Proof.
  intros Hn Hf. unfold div64, of_Z.
  assert (Hn0 : (0 < inject_Z n)%Q) by (rewrite <- (Zlt_Qlt 0); lia).
  assert (Hnz : Qeq_bool (inject_Z n) 0 = false).
  { apply not_true_is_false. intros Heq. apply Qeq_bool_eq in Heq. lra. }
  rewrite Hnz.
  assert (Hq0 : (0 <= inject_Z f / inject_Z n)%Q).
  { apply Qle_shift_div_l; [exact Hn0 |]. rewrite Qmult_0_l, <- (Zle_Qle 0). lia. }
  assert (Hq1 : (inject_Z f / inject_Z n <= pow2 0)%Q).
  { rewrite pow2_0. apply Qle_shift_div_r; [exact Hn0 |].
    rewrite Qmult_1_l, <- Zle_Qle. lia. }
  destruct (b64_finite _ 0 Hq0 ltac:(lia) Hq1) as (r & Hr & Hr0 & Hr1).
  rewrite Hr. unfold mul64. rewrite pow2_0 in Hr1.
  change (inject_Z 100) with 100%Q.
  assert (Hy1 : (r * 100 <= pow2 7)%Q).
  { assert (E : (pow2 7 == 128)%Q) by reflexivity. rewrite E. lra. }
  destruct (b64_finite (r * 100) 7 ltac:(lra) ltac:(lia) Hy1) as (m & Hm & Hm0 & Hm1).
  rewrite Hm. cbn [sub neg add gt0].
  assert (Hcmp : (Qred (m + Qred (- inject_Z 50)) == m - 50)%Q).
  { rewrite !Qred_correct. change (inject_Z 50) with 50%Q. ring. }
  destruct (Z.ltb_spec n (2 * f)) as [Hlt | Hge].
  - (* more than half failed *)
    assert (Hgrid : (inject_Z (2 ^ 32 + 1) * pow2 (-33) <= inject_Z f / inject_Z n)%Q).
    { rewrite (grid_fraction (2 ^ 32 + 1) 33) by lia.
      apply Qdiv_cross_le; [apply Z.pow_pos_nonneg; lia | lia |].
      change (2 ^ 33) with (2 * 2 ^ 32). nia. }
    assert (Hrlow : (inject_Z (2 ^ 32 + 1) * pow2 (-33) <= r)%Q).
    { apply (b64_above _ r (2 ^ 32 + 1) (-33) Hr); [| lia | exact Hgrid].
      split; [lia |]. change (2 ^ 53) with (2 ^ 32 * 2 ^ 21). lia. }
    assert (E33 : (inject_Z (2 ^ 32 + 1) * pow2 (-33) == (1 # 2) + (1 # 8589934592))%Q)
      by reflexivity.
    rewrite E33 in Hrlow.
    assert (Hgrid2 : (inject_Z (50 * 2 ^ 27 + 1) * pow2 (-27) <= r * 100)%Q).
    { assert (E27 : (inject_Z (50 * 2 ^ 27 + 1) * pow2 (-27) == 50 + (1 # 134217728))%Q)
        by reflexivity.
      rewrite E27. lra. }
    assert (Hmlow : (inject_Z (50 * 2 ^ 27 + 1) * pow2 (-27) <= m)%Q).
    { apply (b64_above _ m (50 * 2 ^ 27 + 1) (-27) Hm); [| lia | exact Hgrid2].
      vm_compute. split; reflexivity. }
    assert (E27 : (inject_Z (50 * 2 ^ 27 + 1) * pow2 (-27) == 50 + (1 # 134217728))%Q)
      by reflexivity.
    rewrite E27 in Hmlow.
    destruct (Qle_bool (Qred (m + Qred (- inject_Z 50))) 0) eqn:E; [| reflexivity].
    apply Qle_bool_iff in E. rewrite Hcmp in E. lra.
  - (* at most half failed *)
    assert (Hhalf : (inject_Z f / inject_Z n <= inject_Z 1 * pow2 (-1))%Q).
    { rewrite (grid_fraction 1 1) by lia.
      apply Qdiv_cross_le; [lia | lia |]. change (2 ^ 1) with 2. lia. }
    assert (Hrup : (r <= 1 # 2)%Q).
    { destruct (Qlt_le_dec 0 (inject_Z f / inject_Z n)) as [Hpos | Hz].
      - destruct (b64_below _ 1 (-1) Hpos ltac:(lia) ltac:(lia) Hhalf)
          as (r' & Hr' & _ & Hle).
        { apply grid_finite; lia. }
        rewrite Hr in Hr'. injection Hr' as <-.
        assert (E : (inject_Z 1 * pow2 (-1) == 1 # 2)%Q) by reflexivity.
        rewrite E in Hle. exact Hle.
      - rewrite b64_zero in Hr by lra. injection Hr as <-. lra. }
    assert (Hmup : (m <= 50)%Q).
    { destruct (Qlt_le_dec 0 (r * 100)) as [Hpos | Hz].
      - destruct (b64_below (r * 100) 50 0 Hpos ltac:(lia) ltac:(lia))
          as (m' & Hm' & _ & Hle).
        { rewrite pow2_0. change (inject_Z 50) with 50%Q. lra. }
        { apply grid_finite; lia. }
        rewrite Hm in Hm'. injection Hm' as <-.
        rewrite pow2_0 in Hle. change (inject_Z 50) with 50%Q in Hle. lra.
      - rewrite b64_zero in Hm by lra. injection Hm as <-. lra. }
    destruct (Qle_bool (Qred (m + Qred (- inject_Z 50))) 0) eqn:E; [reflexivity |].
    assert (Qle_bool (Qred (m + Qred (- inject_Z 50))) 0 = true).
    { apply Qle_bool_iff. rewrite Hcmp. lra. }
    congruence.
Qed.

End JobCounts.


(** X18.  When writing the averages fails, [run] fails with the writer's
    error although identities were processed: no summary is returned. *)
Theorem run_writer_failure `{Engine} (reader : Reader) (writer : Writer)
        (fetchAt : nat -> scraperId -> jsval -> Z -> result (option (list obj)))
        (clockAt : nat -> nat -> string) (elapsed : string)
        (influencers : list influencer) (existingPosts : list obj) (e : JsError) :
  readInfluencers reader = Ok influencers ->
  readExistingPosts reader = Ok existingPosts ->
  List.filter success (processAll fetchAt clockAt influencers existingPosts) <> [] ->
  (forall l, updateAverageViews writer l = Throw e) ->
  Eff.outcome (run reader writer fetchAt clockAt elapsed) = Throw e.
Proof.
  intros Hr1 Hr2 Hok Hw. unfold run. rewrite Hr1, Hr2, !bind_lift_Ok.
  destruct influencers as [|inf0 rest]; [exfalso; apply Hok; reflexivity |].
  destruct (List.filter success (processAll fetchAt clockAt (inf0 :: rest) existingPosts))
    as [|r ok]; [congruence |].
  cbn [List.map nonEmpty when]. rewrite Hw. reflexivity.
Qed.

Lemma run_writer_failure_witness :
  Eff.outcome (run (H := RefEngine.engine) readerExample brokenWriter
                   (fun _ => fetchExample) (fun _ => fixedClock) "1.50")
  = Throw (mkError "EACCES: permission denied").
Proof.
  apply (run_writer_failure (H := RefEngine.engine) readerExample brokenWriter
           (fun _ => fetchExample) (fun _ => fixedClock) "1.50" [bob; eve; mallory] []).
  - reflexivity.
  - reflexivity.
  - vm_compute. discriminate.
  - intros l. reflexivity.
Defined.

(** X19.  In the summary of a run the posts written never outnumber the
    posts fetched: [newPosts + updatedPosts <= totalPosts], and the alert
    for a high failure rate is raised exactly when more than half of the
    identities failed. *)
Theorem run_summary_counts `{Engine} (reader : Reader) (writer : Writer)
        (fetchAt : nat -> scraperId -> jsval -> Z -> result (option (list obj)))
        (clockAt : nat -> nat -> string) (elapsed : string)
        (influencers : list influencer) (existingPosts : list obj) :
  readInfluencers reader = Ok influencers ->
  readExistingPosts reader = Ok existingPosts ->
  influencers <> [] ->
  (forall l, updateAverageViews writer l = Ok tt) ->
  (forall l, appendPosts writer l = Ok tt) ->
  (forall l, updateExistingPosts writer l = Ok tt) ->
  let c := run reader writer fetchAt clockAt elapsed in
  exists s : summary,
    Eff.outcome c = Ok s /\
    0 <= newPosts s /\ 0 <= updatedPosts s /\
    newPosts s + updatedPosts s <= totalPosts s /\
    (In alert (trace c) <-> totalInfluencers s < 2 * failureCount s).
Proof.
  intros Hr1 Hr2 Hne Hw1 Hw2 Hw3 c.
  pose proof (run_outcome reader writer fetchAt clockAt elapsed influencers existingPosts
                          Hr1 Hr2 Hne Hw1 Hw2 Hw3) as Hout.
  cbv zeta in Hout. eexists. split; [exact Hout |].
  cbn [newPosts updatedPosts totalPosts totalInfluencers failureCount].
  split; [lia |]. split; [lia |]. split.
  - apply written_le_fetched. apply List.Forall_forall. intros r Hr.
    apply filter_In in Hr. destruct Hr as [Hr _].
    apply list_elem_of_In in Hr. unfold processAll in Hr.
    apply elem_of_lookup_imap in Hr. destruct Hr as (i & inf & -> & _).
    apply processInfluencer_counts.
  - subst c. unfold run. rewrite Hr1, Hr2, !bind_lift_Ok.
    destruct influencers as [|inf0 rest]; [congruence |].
    assert (Hwhen : forall b w, w = Ok tt -> when b w = Ok tt)
      by (intros [] w ->; reflexivity).
    rewrite (Hwhen _ _ (Hw1 _)), (Hwhen _ _ (Hw2 _)), (Hwhen _ _ (Hw3 _)).
    rewrite !bind_lift_Ok.
    rewrite failureRate_gt50 by (cbn [length]; lia).
    destruct (Z.ltb_spec (Z.of_nat (length (inf0 :: rest)))
                         (2 * Z.of_nat (length (List.filter (fun r => negb (success r))
                            (processAll fetchAt clockAt (inf0 :: rest) existingPosts)))))
      as [Hlt | Hge]; cbn [trace fst Eff.bind log emit ret app].
    + split; [intros _; exact Hlt | intros _; left; reflexivity].
    + split; [intros [] | lia].
Qed.

Lemma run_summary_counts_witness :
  let c := run (H := RefEngine.engine) readerExample writerExample
               (fun _ => fetchExample) (fun _ => fixedClock) "1.50" in
  exists s : summary,
    Eff.outcome c = Ok s /\ newPosts s + updatedPosts s <= totalPosts s /\
    In alert (trace c).
Proof.
  destruct (run_summary_counts (H := RefEngine.engine) readerExample writerExample
              (fun _ => fetchExample) (fun _ => fixedClock) "1.50"
              [bob; eve; mallory] [])
    as (s & Hs & _ & _ & Hle & Halert); try reflexivity; [discriminate |].
  cbv zeta. exists s. split; [exact Hs |]. split; [exact Hle |].
  apply Halert. vm_compute in Hs. injection Hs as <-. reflexivity.
Defined.

(** ** Strategies, methods and the proxy *)

Section StartupFacts.

Lemma create_outcome platform method :
  Eff.outcome (ScraperStrategyFactory.create platform method)
  = let platformLower := toLowerCase platform in
    let methodLower := toLowerCase method in
    if String.eqb platformLower "tiktok" then
      if String.eqb methodLower "web" then Ok ScraperStrategyFactory.TikTokWebStrategy
      else Throw (mkError ("TikTok only supports web scraping. "
                           ++ "Please set TIKTOK_SCRAPING_METHOD=web"
                           ++ ScraperStrategyFactory.newline
                           ++ "Current method: " ++ method))
    else if String.eqb platformLower "instagram" then
      if String.eqb methodLower "web" then Ok ScraperStrategyFactory.InstagramWebStrategy
      else if String.eqb methodLower "meta"
           then Ok ScraperStrategyFactory.InstagramMetaStrategy
      else if String.eqb methodLower "rapidapi"
           then Ok ScraperStrategyFactory.InstagramRapidApiStrategy
      else Throw (mkError ("Unknown Instagram scraping method: " ++ method))
    else Throw (mkError ("Unknown platform: " ++ platform)).
Proof.
  unfold ScraperStrategyFactory.create. cbv zeta. rewrite bind_log.
  cbn [Eff.outcome snd].
  repeat match goal with
         | |- context [if ?b then _ else _] => destruct b
         end; reflexivity.
Qed.

Lemma formatProxyArgs_outcome s :
  Eff.outcome (ProxyConfig.formatProxyArgs s)
  = Ok (if proxyInUse s
        then Some {| ProxyConfig.proxyServer := ProxyConfig.hostPort s;
                     ProxyConfig.proxyUrl :=
                       if ProxyConfig.nonEmpty (ProxyConfig.username s)
                          && ProxyConfig.nonEmpty (ProxyConfig.password s)
                       then ("http://" ++ ProxyConfig.username s ++ ":"
                             ++ ProxyConfig.password s ++ "@" ++ ProxyConfig.hostPort s)%string
                       else ("http://" ++ ProxyConfig.hostPort s)%string;
                     ProxyConfig.args := [proxyFlag s] |}
        else None).
Proof.
  unfold ProxyConfig.formatProxyArgs, proxyInUse, proxyFlag.
  destruct (ProxyConfig.enabled s); cbn [negb orb andb]; [| rewrite bind_log; reflexivity].
  destruct (ProxyConfig.nonEmpty (ProxyConfig.host s)); cbn [negb];
    [| rewrite bind_log; reflexivity].
  destruct (ProxyConfig.nonEmpty (ProxyConfig.username s)
            && ProxyConfig.nonEmpty (ProxyConfig.password s)); reflexivity.
Qed.

Lemma formatProxyArgs_no_error_line s :
  logged LError (trace (ProxyConfig.formatProxyArgs s)) = [].
Proof.
  unfold ProxyConfig.formatProxyArgs.
  destruct (ProxyConfig.enabled s); cbn [negb orb]; [| reflexivity].
  destruct (ProxyConfig.nonEmpty (ProxyConfig.host s)); cbn [negb]; [| reflexivity].
  destruct (ProxyConfig.nonEmpty (ProxyConfig.username s)
            && ProxyConfig.nonEmpty (ProxyConfig.password s)); reflexivity.
Qed.

Lemma lower_web_not_api m :
  toLowerCase m = "web" -> m <> "rapidapi" /\ m <> "meta".
Proof.
  intros Hm. split; intros ->; vm_compute in Hm; discriminate Hm.
Qed.

End StartupFacts.

(** X20.  [ScraperStrategyFactory.create] returns a strategy for four
    combinations of platform and method only, compared without regard to
    case, and throws for every other one: there is no fallback. *)
Theorem create_supported_only (platform method : string) :
  let c := ScraperStrategyFactory.create platform method in
  (forall s, Eff.outcome c = Ok s <->
             In (toLowerCase platform, toLowerCase method, s) supported) /\
  ((forall s, ~ In (toLowerCase platform, toLowerCase method, s) supported) ->
   exists e, Eff.outcome c = Throw e).
Proof.
  cbv zeta. rewrite create_outcome. cbv zeta. unfold supported.
  assert (Hpair : forall (a b a' b' : string) (s s' : ScraperStrategyFactory.strategy),
             (a, b, s) = (a', b', s') <-> a = a' /\ b = b' /\ s = s').
  { intros. split; [intros [= -> -> ->]; auto | intros (-> & -> & ->); reflexivity]. }
  destruct (String.eqb_spec (toLowerCase platform) "tiktok") as [Hp | Hp].
  - rewrite Hp.
    destruct (String.eqb_spec (toLowerCase method) "web") as [Hm | Hm].
    + rewrite Hm. split.
      * intros s. cbn [In]. rewrite !Hpair. split.
        -- intros [= <-]. left. auto.
        -- intros [(_ & _ & <-) | [(Hc & _) | [(Hc & _) | [(Hc & _) | []]]]];
             try discriminate Hc. reflexivity.
      * intros Hno. exfalso. apply (Hno ScraperStrategyFactory.TikTokWebStrategy).
        left. reflexivity.
    + split.
      * intros s. cbn [In]. rewrite !Hpair. split; [discriminate |].
        intros [(_ & Hc & _) | [(Hc & _) | [(Hc & _) | [(Hc & _) | []]]]];
          try discriminate Hc. congruence.
      * intros _. eexists. reflexivity.
  - destruct (String.eqb_spec (toLowerCase platform) "instagram") as [Hi | Hi].
    + rewrite Hi.
      destruct (String.eqb_spec (toLowerCase method) "web") as [Hw | Hw];
        [| destruct (String.eqb_spec (toLowerCase method) "meta") as [Hm | Hm];
           [| destruct (String.eqb_spec (toLowerCase method) "rapidapi") as [Hr | Hr]]].
      * rewrite Hw. split.
        -- intros s. cbn [In]. rewrite !Hpair. split.
           ++ intros [= <-]. right. left. auto.
           ++ intros [(Hc & _) | [(_ & _ & <-) | [(_ & Hc & _) | [(_ & Hc & _) | []]]]];
                try discriminate Hc. reflexivity.
        -- intros Hno. exfalso. apply (Hno ScraperStrategyFactory.InstagramWebStrategy).
           right. left. reflexivity.
      * rewrite Hm. split.
        -- intros s. cbn [In]. rewrite !Hpair. split.
           ++ intros [= <-]. right. right. left. auto.
           ++ intros [(Hc & _) | [(_ & Hc & _) | [(_ & _ & <-) | [(_ & Hc & _) | []]]]];
                try discriminate Hc. reflexivity.
        -- intros Hno. exfalso. apply (Hno ScraperStrategyFactory.InstagramMetaStrategy).
           right. right. left. reflexivity.
      * rewrite Hr. split.
        -- intros s. cbn [In]. rewrite !Hpair. split.
           ++ intros [= <-]. right. right. right. left. auto.
           ++ intros [(Hc & _) | [(_ & Hc & _) | [(_ & Hc & _) | [(_ & _ & <-) | []]]]];
                try discriminate Hc. reflexivity.
        -- intros Hno. exfalso.
           apply (Hno ScraperStrategyFactory.InstagramRapidApiStrategy).
           right. right. right. left. reflexivity.
      * split.
        -- intros s. cbn [In]. rewrite !Hpair. split; [discriminate |].
           intros [(Hc & _) | [(_ & Hc & _) | [(_ & Hc & _) | [(_ & Hc & _) | []]]]];
             try discriminate Hc; congruence.
        -- intros _. eexists. reflexivity.
    + split.
      * intros s. cbn [In]. rewrite !Hpair. split; [discriminate |].
        intros [(Hc & _) | [(Hc & _) | [(Hc & _) | [(Hc & _) | []]]]]; congruence.
      * intros _. eexists. reflexivity.
Qed.

(** X21.  The configuration refuses only the exact method name [rapidapi]
    for TikTok; any other method that is not [web] (in whatever case) loads
    and then makes the construction of [TikTokScraper] throw, naming the
    method. *)
Theorem config_admits_unsupported_tiktok_method (env : Config.Env) (ms : Config.methods) :
  Config.load env = Ok ms ->
  toLowerCase (Config.tiktok_method ms) <> "web" ->
  Config.tiktok_method ms = Config.tiktokMethod env /\
  Config.tiktok_method ms <> "rapidapi" /\
  Eff.outcome (Scrapers.newTikTokScraper (Config.tiktok_method ms))
  = Throw (mkError ("TikTok only supports web scraping. "
                    ++ "Please set TIKTOK_SCRAPING_METHOD=web" ++ ScraperStrategyFactory.newline
                    ++ "Current method: " ++ Config.tiktok_method ms)).
Proof.
  intros Hload Hweb. unfold Config.load in Hload. cbv zeta in Hload.
  destruct (String.eqb (Config.instagramMethod env) "rapidapi"
            && Config.unset (Config.RAPIDAPI_KEY env)); [discriminate |].
  destruct (String.eqb (Config.instagramMethod env) "meta" && _); [discriminate |].
  destruct (String.eqb_spec (Config.tiktokMethod env) "rapidapi") as [Hr | Hr];
    [discriminate |].
  injection Hload as <-. cbn [Config.tiktok_method] in *.
  fold (Config.tiktokMethod env) in *.
  split; [reflexivity |]. split; [exact Hr |].
  unfold Scrapers.newTikTokScraper. rewrite outcome_bind, create_outcome. cbv zeta.
  change (toLowerCase "tiktok") with "tiktok"%string. cbn [String.eqb Ascii.eqb Bool.eqb].
  destruct (String.eqb_spec (toLowerCase (Config.tiktokMethod env)) "web"); [contradiction |].
  reflexivity.
Qed.

Lemma config_admits_unsupported_tiktok_method_witness :
  exists ms e,
    Config.load metaEverywhere = Ok ms /\
    Eff.outcome (Scrapers.newTikTokScraper (Config.tiktok_method ms)) = Throw e.
Proof.
  exists {| Config.tiktok_method := "meta"; Config.instagram_method := "meta" |}.
  eexists. split; [reflexivity |].
  apply (config_admits_unsupported_tiktok_method metaEverywhere); [reflexivity |].
  vm_compute. discriminate.
Defined.

(** X22.  When only [SCRAPING_METHOD] chooses the methods, the
    configuration loads and both scrapers can be built exactly when its
    value is [web], in whatever case. *)
Theorem shared_method_must_be_web (env : Config.Env) (m : string) :
  Config.INSTAGRAM_SCRAPING_METHOD env = None ->
  Config.TIKTOK_SCRAPING_METHOD env = None ->
  Config.SCRAPING_METHOD env = Some m ->
  m <> "" ->
  (exists ms t i,
      Config.load env = Ok ms /\
      Eff.outcome (Scrapers.newTikTokScraper (Config.tiktok_method ms)) = Ok t /\
      Eff.outcome (Scrapers.newInstagramScraper (Config.instagram_method ms)) = Ok i)
  <-> toLowerCase m = "web".
Proof.
  intros Hig Htt Hsm Hne.
  assert (Hne' : String.eqb m "" = false) by (apply String.eqb_neq; exact Hne).
  assert (Him : Config.instagramMethod env = m).
  { unfold Config.instagramMethod. rewrite Hig, Hsm. cbn [Config.envOr]. rewrite Hne'.
    reflexivity. }
  assert (Htm : Config.tiktokMethod env = m).
  { unfold Config.tiktokMethod. rewrite Htt, Hsm. cbn [Config.envOr]. rewrite Hne'.
    reflexivity. }
  split.
  - intros (ms & t & i & Hload & Ht & _).
    unfold Config.load in Hload. cbv zeta in Hload.
    destruct (String.eqb (Config.instagramMethod env) "rapidapi" && _); [discriminate |].
    destruct (String.eqb (Config.instagramMethod env) "meta" && _); [discriminate |].
    destruct (String.eqb (Config.tiktokMethod env) "rapidapi"); [discriminate |].
    injection Hload as <-. cbn [Config.tiktok_method] in Ht.
    fold (Config.tiktokMethod env) in Ht. rewrite Htm in Ht.
    unfold Scrapers.newTikTokScraper in Ht. rewrite outcome_bind, create_outcome in Ht.
    cbv zeta in Ht. change (toLowerCase "tiktok") with "tiktok"%string in Ht.
    cbn [String.eqb Ascii.eqb Bool.eqb] in Ht.
    destruct (String.eqb_spec (toLowerCase m) "web"); [assumption | discriminate].
  - intros Hweb. destruct (lower_web_not_api m Hweb) as [Hr Hm].
    exists {| Config.tiktok_method := m; Config.instagram_method := m |}.
    exists ("TikTok"%string, ScraperStrategyFactory.TikTokWebStrategy).
    exists ("Instagram"%string, ScraperStrategyFactory.InstagramWebStrategy).
    split; [| split].
    + unfold Config.load. cbv zeta. rewrite Him, Htm.
      apply String.eqb_neq in Hr, Hm. rewrite Hr, Hm. cbn [andb].
      fold (Config.tiktokMethod env). fold (Config.instagramMethod env).
      rewrite Him, Htm. reflexivity.
    + cbn [Config.tiktok_method]. unfold Scrapers.newTikTokScraper.
      rewrite outcome_bind, create_outcome. cbv zeta. rewrite Hweb. reflexivity.
    + cbn [Config.instagram_method]. unfold Scrapers.newInstagramScraper.
      rewrite outcome_bind, create_outcome. cbv zeta. rewrite Hweb. reflexivity.
Qed.

Lemma shared_method_must_be_web_witness :
  exists ms t i,
    Config.load webEverywhere = Ok ms /\
    Eff.outcome (Scrapers.newTikTokScraper (Config.tiktok_method ms)) = Ok t /\
    Eff.outcome (Scrapers.newInstagramScraper (Config.instagram_method ms)) = Ok i.
Proof.
  apply (shared_method_must_be_web webEverywhere "Web"); try reflexivity.
  discriminate.
Defined.

(** X23.  [formatProxyArgs] never throws and never reports a failure: it
    returns [null] exactly when the proxy is switched off or has no host,
    and otherwise one browser argument made of host and port only; the
    credentials appear in [proxyUrl] alone.  It does not consult
    [validate]: a setting that [validate] rejects for its port is formatted
    all the same. *)
Theorem formatProxyArgs_cases (s : ProxyConfig.ProxySettings) :
  let c := ProxyConfig.formatProxyArgs s in
  (exists r, Eff.outcome c = Ok r) /\
  logged LError (trace c) = [] /\
  (Eff.outcome c = Ok None <->
   ProxyConfig.enabled s = false \/ ProxyConfig.host s = ""%string) /\
  (forall pa, Eff.outcome c = Ok (Some pa) ->
              ProxyConfig.args pa = [proxyFlag s] /\
              ProxyConfig.proxyServer pa = ProxyConfig.hostPort s) /\
  (proxyInUse s = true -> ProxyConfig.port s < 1 \/ 65535 < ProxyConfig.port s ->
   Eff.outcome (ProxyConfig.validate s) = Ok false /\
   exists pa, Eff.outcome c = Ok (Some pa)).
Proof.
  cbv zeta. rewrite formatProxyArgs_outcome.
  split; [eexists; reflexivity |].
  split; [apply formatProxyArgs_no_error_line |].
  unfold ProxyConfig.validate, proxyInUse, ProxyConfig.nonEmpty.
  destruct (ProxyConfig.enabled s); cbn [andb negb].
  - destruct (String.eqb_spec (ProxyConfig.host s) ""); cbn [negb].
    + split; [split; [auto | reflexivity] |]. split; discriminate.
    + split; [split; [discriminate | intros [Hc | Hc]; congruence] |].
      split; [intros pa [= <-]; split; reflexivity |].
      intros _ Hport. split; [| eexists; reflexivity].
      destruct (Z.eqb_spec (ProxyConfig.port s) 0);
        [cbn [orb]; rewrite bind_log; reflexivity |].
      destruct (Z.ltb_spec (ProxyConfig.port s) 1);
        [cbn [orb]; rewrite bind_log; reflexivity |].
      destruct (Z.ltb_spec 65535 (ProxyConfig.port s)); [| lia].
      cbn [orb]. rewrite bind_log. reflexivity.
  - split; [split; [auto | reflexivity] |]. split; discriminate.
Qed.

Lemma formatProxyArgs_cases_witness :
  Eff.outcome (ProxyConfig.validate oddProxy) = Ok false /\
  exists pa, Eff.outcome (ProxyConfig.formatProxyArgs oddProxy) = Ok (Some pa).
Proof.
  pose proof (formatProxyArgs_cases oddProxy) as Hp.
  cbv zeta in Hp. destruct Hp as (_ & _ & _ & _ & Hodd).
  apply Hodd; [reflexivity | right; vm_compute; reflexivity].
Defined.

(** X24.  The browser and the HTTP client use the proxy under the same
    condition, with the same host, port and credentials: the launch options
    carry the proxy argument exactly when [getProxyConfig] returns a
    configuration, and the page is given credentials exactly when that
    configuration has them. *)
Theorem proxy_paths_agree (browserConfig : BrowserManager.BrowserConfig)
        (s : ProxyConfig.ProxySettings) :
  let launch := BrowserManager.buildLaunchOptions browserConfig s in
  let axios := RapidApiProxy.getProxyConfig s in
  (exists opts, Eff.outcome launch = Ok opts /\
                (In (proxyFlag s) (BrowserManager.o_args opts) <-> proxyInUse s = true)) /\
  (is_Some axios <-> proxyInUse s = true) /\
  (forall ap, axios = Some ap ->
              RapidApiProxy.proxyHost ap = ProxyConfig.host s /\
              RapidApiProxy.proxyPort ap = ProxyConfig.port s /\
              RapidApiProxy.auth ap = BrowserManager.pageCredentials s) /\
  (axios = None -> BrowserManager.pageCredentials s = None).
Proof.
  cbv zeta.
  assert (Hbase : forall w h, ~ In (proxyFlag s)
             [ "--no-sandbox"; "--disable-setuid-sandbox"; "--disable-dev-shm-usage";
               "--disable-accelerated-2d-canvas"; "--disable-gpu";
               ("--window-size=" ++ w ++ "," ++ h)%string ]).
  { intros w h. unfold proxyFlag. cbn [In String.append].
    intros [Hc | [Hc | [Hc | [Hc | [Hc | [Hc | []]]]]]]; discriminate Hc. }
  split; [| split; [| split]].
  - unfold BrowserManager.buildLaunchOptions. cbv zeta. rewrite outcome_bind.
    fold (proxyInUse s).
    destruct (proxyInUse s) eqn:Euse.
    + rewrite outcome_bind, formatProxyArgs_outcome, Euse, bind_log.
      cbn [Eff.outcome snd ProxyConfig.args].
      eexists. split; [reflexivity |]. cbn [BrowserManager.o_args].
      split; [reflexivity |]. intros _. apply in_or_app. right. left. reflexivity.
    + rewrite bind_log. cbn [Eff.outcome snd].
      eexists. split; [reflexivity |]. cbn [BrowserManager.o_args].
      split; [| discriminate]. intros Hin. exfalso. exact (Hbase _ _ Hin).
  - unfold RapidApiProxy.getProxyConfig, proxyInUse.
    destruct (ProxyConfig.enabled s), (ProxyConfig.nonEmpty (ProxyConfig.host s));
      cbn [negb orb andb]; split; intros Hx;
      try reflexivity; try discriminate; try (eexists; reflexivity);
      destruct Hx as [x Hx]; discriminate.
  - intros ap. unfold RapidApiProxy.getProxyConfig, BrowserManager.pageCredentials,
                 ProxyConfig.getAuthCredentials.
    destruct (ProxyConfig.enabled s), (ProxyConfig.nonEmpty (ProxyConfig.host s));
      cbn [negb orb andb]; try discriminate.
    intros [= <-]. cbn [RapidApiProxy.proxyHost RapidApiProxy.proxyPort RapidApiProxy.auth].
    split; [reflexivity |]. split; [reflexivity |].
    destruct (ProxyConfig.nonEmpty (ProxyConfig.username s)),
             (ProxyConfig.nonEmpty (ProxyConfig.password s)); reflexivity.
  - unfold RapidApiProxy.getProxyConfig, BrowserManager.pageCredentials.
    destruct (ProxyConfig.enabled s), (ProxyConfig.nonEmpty (ProxyConfig.host s));
      cbn [negb orb andb]; try reflexivity. discriminate.
Qed.

(** X25.  The random delay lies between the configured bounds, both
    included, and every delay between them is the delay for some value of
    [Math.random()]. *)
Theorem getRandomDelay_range (min max : Z) :
  min <= max ->
  (forall random : Q, (0 <= random)%Q -> (random < 1)%Q ->
                      min <= BrowserManager.getRandomDelay min max random <= max) /\
  (forall d : Z, min <= d <= max ->
                 exists random : Q, (0 <= random)%Q /\ (random < 1)%Q /\
                                    BrowserManager.getRandomDelay min max random = d).
Proof.
  intros Hmm. unfold BrowserManager.getRandomDelay.
  assert (Hn : (0 < inject_Z (max - min + 1))%Q) by (unfold Qlt; simpl; lia).
  split.
  - intros random H0 H1.
    assert (Hlo : 0 <= Qfloor (random * inject_Z (max - min + 1))).
    { change 0 with (Qfloor 0). apply Qfloor_resp_le.
      apply Qmult_le_0_compat; [exact H0 | apply Qlt_le_weak; exact Hn]. }
    assert (Hhi : Qfloor (random * inject_Z (max - min + 1)) < max - min + 1).
    { rewrite Zlt_Qlt. eapply Qle_lt_trans; [apply Qfloor_le |].
      assert (E : (inject_Z (max - min + 1) == 1 * inject_Z (max - min + 1))%Q)
        by (symmetry; apply Qmult_1_l).
      rewrite E at 2. apply Qmult_lt_compat_r; assumption. }
    lia.
  - intros d Hd. exists (inject_Z (d - min) / inject_Z (max - min + 1))%Q.
    split; [| split].
    + apply Qle_shift_div_l; [exact Hn |]. unfold Qle. simpl. lia.
    + apply Qlt_shift_div_r; [exact Hn |]. unfold Qlt. simpl. lia.
    + assert (E : (inject_Z (d - min) / inject_Z (max - min + 1) * inject_Z (max - min + 1)
                   == inject_Z (d - min))%Q).
      { field. intros Hz. rewrite Hz in Hn. discriminate Hn. }
      rewrite E, Qfloor_Z. lia.
Qed.

Lemma getRandomDelay_range_witness :
  1000 <= BrowserManager.getRandomDelay 1000 3000 (1 # 3) <= 3000.
Proof.
  apply (getRandomDelay_range 1000 3000); [lia | |].
  - unfold Qle. simpl. lia.
  - unfold Qlt. simpl. lia.
Defined.

(** ** The CSV writer *)

Section CsvFacts.
Context `{Engine}.

Lemma map_lookup {A B} (f : A -> B) (l : list A) (i : nat) :
  List.map f l !! i = f <$> (l !! i).
Proof.
  revert i. induction l as [|x l IH]; intros [|i]; simpl; try reflexivity. apply IH.
Qed.





Lemma sameValueZero_str_l l v :
  CsvWriter.sameValueZero (VStr l) v = true -> v = VStr l.
Proof.
  destruct v as [| | b | [| | | q] | s]; simpl; try discriminate.
  intros Heq. apply String.eqb_eq in Heq. congruence.
Qed.

Lemma sameValueZero_str_r l v :
  CsvWriter.sameValueZero v (VStr l) = true -> v = VStr l.
Proof.
  destruct v as [| | b | [| | | q] | s]; simpl; try discriminate.
  intros Heq. apply String.eqb_eq in Heq. congruence.
Qed.

(** An entry of the update map for a string key holds a post with that
    link. *)
Lemma mapGet_mapSet_links (posts : list obj) (m : list (jsval * obj)) l update :
  (forall k v, In (k, v) m -> forall l', k = VStr l' -> get v "postLink" = VStr l') ->
  CsvWriter.mapGet (VStr l)
    (fold_left (fun m post => CsvWriter.mapSet (get post "postLink") post m) posts m)
  = Some update ->
  get update "postLink" = VStr l.
Proof.
  revert m. induction posts as [|p posts IH]; intros m Hinv; cbn [fold_left].
  - induction m as [|[k v] m IHm]; cbn [CsvWriter.mapGet]; [discriminate |].
    destruct (CsvWriter.sameValueZero k (VStr l)) eqn:Ek.
    + intros [= <-]. apply sameValueZero_str_r in Ek.
      apply (Hinv k v); [left; reflexivity | exact Ek].
    + apply IHm. intros k' v' Hin. apply Hinv. right. exact Hin.
  - apply IH. clear IH.
    induction m as [|[k v] m IHm]; cbn [CsvWriter.mapSet].
    + intros k' v' [[= <- <-] | []] l' Hl'. exact Hl'.
    + destruct (CsvWriter.sameValueZero k (get p "postLink")) eqn:Ek.
      * intros k' v' [[= <- <-] | Hin] l' Hl'.
        -- subst k. apply sameValueZero_str_l in Ek. exact Ek.
        -- apply (Hinv k' v'); [right; exact Hin | exact Hl'].
      * intros k' v' [[= <- <-] | Hin] l' Hl'.
        -- apply (Hinv k v); [left; reflexivity | exact Hl'].
        -- refine (IHm _ k' v' Hin l' Hl').
           intros k'' v'' Hin'. apply Hinv. right. exact Hin'.
Qed.

Lemma updateRow_keys m row : dom (CsvWriter.updateRow m row) = normalizedKeys.
Proof.
  unfold CsvWriter.updateRow, normalizedKeys. cbv zeta.
  destruct (CsvWriter.mapGet _ m); rewrite !dom_insert_L, dom_empty_L; set_solver.
Qed.

End CsvFacts.


(** X27.  [appendPosts] does nothing for an empty batch; otherwise it writes
    the rows it read, as they are, followed by the new posts, and ends as
    the write ends.  When the file cannot be read, for whatever reason, it
    warns and writes the new posts alone. *)
Theorem appendPosts_written (readRows : result (list obj))
        (writeCSV : list obj -> result unit) (posts : list obj) :
  let c := CsvWriter.appendPosts readRows writeCSV posts in
  (posts = [] -> c = ([], Ok tt)) /\
  (posts <> [] -> Eff.outcome c = writeCSV (rowsOrNone readRows ++ posts)) /\
  (posts <> [] ->
   (In (Log LWarn "Could not read existing posts CSV, creating new one") (trace c)
    <-> exists e, readRows = Throw e)).
Proof.
  cbv zeta. unfold CsvWriter.appendPosts. split; [| split].
  - intros ->. reflexivity.
  - intros Hne. destruct posts as [|p posts]; [congruence |].
    destruct readRows as [rows | e]; cbn [rowsOrNone]; run_eff;
      match goal with
      | |- context [writeCSV ?l] => destruct (writeCSV l) as [[] | e']
      end; reflexivity.
  - intros Hne. destruct posts as [|p posts]; [congruence |].
    destruct readRows as [rows | e]; run_eff;
      match goal with
      | |- context [writeCSV ?l] => destruct (writeCSV l) as [[] | e']
      end; cbn [In].
    + split; [intros [Hc | [Hc | []]]; discriminate Hc | intros [e Hc]; discriminate Hc].
    + split; [intros [Hc | [Hc | []]]; discriminate Hc | intros [e Hc]; discriminate Hc].
    + split; [eauto | intros _; right; left; reflexivity].
    + split; [eauto | intros _; right; left; reflexivity].
Qed.

(** X28.  [updateExistingPosts] rewrites the stored rows one for one and in
    their order: every written row has exactly the six properties of a post,
    a row stored under a string link keeps that link, and an update whose
    link no stored row has changes nothing.  It throws, and writes nothing,
    when the file cannot be read. *)
Theorem updateExistingPosts_written (readRows : result (list obj))
        (writeCSV : list obj -> result unit) (posts : list obj) :
  posts <> [] ->
  let c := CsvWriter.updateExistingPosts readRows writeCSV posts in
  (forall e, readRows = Throw e -> Eff.outcome c = Throw e) /\
  (forall rows, readRows = Ok rows ->
     exists written,
       Eff.outcome c = writeCSV written /\
       length written = length rows /\
       Forall (fun row' => dom row' = normalizedKeys) written /\
       (forall (i : nat) (row : obj) (l : string),
           rows !! i = Some row -> storedLink row = VStr l ->
           exists row', written !! i = Some row' /\ get row' "postLink" = VStr l) /\
       ((forall p row, In p posts -> In row rows ->
                       CsvWriter.sameValueZero (get p "postLink") (storedLink row) = false) ->
        written = List.map (CsvWriter.updateRow []) rows)).
Proof.
  intros Hne. cbv zeta. unfold CsvWriter.updateExistingPosts.
  destruct posts as [|p posts]; [congruence |]. clear Hne.
  split.
  - intros e ->. reflexivity.
  - intros rows ->.
    set (updateMap := fold_left (fun m post => CsvWriter.mapSet (get post "postLink") post m)
                                (p :: posts) []).
    exists (List.map (CsvWriter.updateRow updateMap) rows).
    split; [| split; [| split; [| split]]].
    + run_eff. fold updateMap.
      destruct (writeCSV (List.map (CsvWriter.updateRow updateMap) rows)) as [[] | e'];
        reflexivity.
    + apply length_map.
    + apply Forall_forall. intros row' Hin.
      apply list_elem_of_In, in_map_iff in Hin. destruct Hin as (row & <- & _).
      apply updateRow_keys.
    + intros i row l Hi Hl. rewrite map_lookup, Hi. cbn [fmap option_fmap option_map].
      eexists. split; [reflexivity |].
      unfold CsvWriter.updateRow. cbv zeta. fold (storedLink row). rewrite Hl.
      destruct (CsvWriter.mapGet (VStr l) updateMap) as [update |] eqn:Eget.
      * unfold get at 1. rewrite !lookup_insert_ne by discriminate.
        rewrite lookup_insert_eq. cbn [default].
        apply (mapGet_mapSet_links (p :: posts) [] l update); [intros k v [] | exact Eget].
      * unfold get at 1. rewrite !lookup_insert_ne by discriminate.
        rewrite lookup_insert_eq. reflexivity.
    + intros Hnone. apply map_ext_in. intros row Hrow.
      unfold CsvWriter.updateRow. cbv zeta. fold (storedLink row).
      assert (Hget : CsvWriter.mapGet (storedLink row) updateMap = None).
      { assert (Hkeys : forall k v, In (k, v) updateMap ->
                                    exists q, In q (p :: posts) /\ k = get q "postLink").
        { unfold updateMap. generalize (p :: posts) as ps.
          assert (Hgen : forall ps (m : list (jsval * obj)),
                     (forall k v, In (k, v) m -> exists q, In q ps /\ k = get q "postLink") ->
                     forall qs, (forall q, In q qs -> In q ps) ->
                     forall k v,
                       In (k, v) (fold_left (fun m post =>
                                               CsvWriter.mapSet (get post "postLink") post m)
                                            qs m) ->
                       exists q, In q ps /\ k = get q "postLink").
          { intros ps m Hm qs. revert m Hm.
            induction qs as [|q qs IHq]; intros m Hm Hsub k v; cbn [fold_left];
              [apply Hm |].
            apply IHq; [| intros q' Hq'; apply Hsub; right; exact Hq'].
            clear IHq k v. induction m as [|[k0 v0] m IHm]; cbn [CsvWriter.mapSet].
            - intros k v [[= <- <-] | []]. exists q. split; [apply Hsub; left |]; reflexivity.
            - destruct (CsvWriter.sameValueZero k0 (get q "postLink")).
              + intros k v [[= <- <-] | Hin].
                * apply (Hm k0 v0). left. reflexivity.
                * apply (Hm k v). right. exact Hin.
              + intros k v [[= <- <-] | Hin].
                * apply (Hm k0 v0). left. reflexivity.
                * refine (IHm _ k v Hin). intros k' v' Hin'. apply (Hm k' v').
                  right. exact Hin'. }
          intros ps. apply (Hgen ps [] (fun k v (Hin : In (k, v) []) => match Hin with end) ps).
          auto. }
        induction updateMap as [|[k v] m IHm]; cbn [CsvWriter.mapGet]; [reflexivity |].
        destruct (Hkeys k v (or_introl eq_refl)) as (q & Hq & ->).
        rewrite (Hnone q row Hq Hrow).
        apply IHm. intros k' v' Hin. apply (Hkeys k' v'). right. exact Hin. }
      rewrite Hget. reflexivity.
Qed.

Lemma updateExistingPosts_written_witness :
  exists written : list obj,
    Eff.outcome (CsvWriter.updateExistingPosts (Ok [storedRow]) (fun _ => Ok tt) [freshRow])
    = Ok tt /\
    length written = 1%nat /\
    Forall (fun row' => dom row' = normalizedKeys) written.
Proof.
  destruct (updateExistingPosts_written (Ok [storedRow]) (fun _ => Ok tt) [freshRow])
    as [_ Hrows]; [discriminate |].
  destruct (Hrows [storedRow] eq_refl) as (written & Hout & Hlen & Hkeys & _).
  exists written. split; [exact Hout |]. split; [exact Hlen | exact Hkeys].
Defined.

(** ** The CSV reader *)

Section ReaderFacts.

Lemma readExistingPosts_outcome path present records :
  Eff.outcome (CsvReader.readExistingPosts path present records)
  = if present then fmapResult (imap CsvReader.toPost) records else Ok [].
Proof.
  unfold CsvReader.readExistingPosts.
  destruct present; [| reflexivity].
  destruct records as [rs | e]; reflexivity.
Qed.

Lemma readInfluencers_outcome path present records :
  Eff.outcome (CsvReader.readInfluencers path present records)
  = if present then fmapResult (imap CsvReader.toInfluencer) records else Ok [].
Proof.
  unfold CsvReader.readInfluencers.
  destruct present; [| reflexivity].
  destruct records as [rs | e]; reflexivity.
Qed.

End ReaderFacts.

(** X29.  [readExistingPosts] answers a missing file with the empty list
    and a file that cannot be read or parsed with the error.  Otherwise it
    returns one post per record, in order: the post of record [i] carries
    row number [i + 2], has the seven properties of a stored post, takes its
    link from [postLink], [post link] or [url], in that order, and has
    numbers for comments and likes. *)
Theorem readExistingPosts_posts (postsPath : string) (present : bool)
        (records : result (list obj)) :
  let r := Eff.outcome (CsvReader.readExistingPosts postsPath present records) in
  (present = false -> r = Ok []) /\
  (forall e, present = true -> records = Throw e -> r = Throw e) /\
  (forall rs, present = true -> records = Ok rs ->
     exists posts,
       r = Ok posts /\ length posts = length rs /\
       forall (i : nat) (record : obj),
         rs !! i = Some record ->
         exists post,
           posts !! i = Some post /\
           dom post = readKeys /\
           get post "rowNumber" = VNum (of_Z (Z.of_nat i + 2)) /\
           get post "postLink" = or (or (get record "postLink") (get record "post link"))
                                    (get record "url") /\
           (exists c l, get post "comments" = VNum c /\ get post "likes" = VNum l)).
Proof.
  cbv zeta. rewrite readExistingPosts_outcome. split; [| split].
  - intros ->. reflexivity.
  - intros e -> ->. reflexivity.
  - intros rs -> ->. cbn [fmapResult]. eexists. split; [reflexivity |].
    split; [apply length_imap |].
    intros i record Hi. rewrite list_lookup_imap, Hi. cbn [fmap option_fmap option_map].
    eexists. split; [reflexivity |].
    split.
    { unfold CsvReader.toPost, readKeys. rewrite !dom_insert_L, dom_empty_L. set_solver. }
    unfold get at 1, CsvReader.toPost.
    rewrite !lookup_insert_ne by discriminate. rewrite lookup_insert_eq.
    split; [reflexivity |].
    split.
    { unfold get at 1. rewrite !lookup_insert_ne by discriminate.
      rewrite lookup_insert_eq. reflexivity. }
    do 2 eexists. split.
    + unfold get at 1. rewrite !lookup_insert_ne by discriminate.
      rewrite lookup_insert_eq. reflexivity.
    + unfold get at 1. rewrite !lookup_insert_ne by discriminate.
      rewrite lookup_insert_eq. reflexivity.
Qed.

(** X30.  With the CSV reader, a missing influencers file makes [run] throw
    its own error for an empty batch unless the posts file is there and
    cannot be read, in which case [run] throws that error; and a missing
    posts file is the same to [run] as a file without posts. *)
Theorem run_missing_files `{Engine} (writer : Writer)
        (fetchAt : nat -> scraperId -> jsval -> Z -> result (option (list obj)))
        (clockAt : nat -> nat -> string) (elapsed : string)
        (influencers posts : result (list obj)) :
  let job reader := run reader writer fetchAt clockAt elapsed in
  (forall present rs, posts = Ok rs ->
     Eff.outcome (job (csvReader (false, influencers) (present, posts)))
     = Throw (mkError "No influencers found in data file")) /\
  Eff.outcome (job (csvReader (false, influencers) (false, posts)))
  = Throw (mkError "No influencers found in data file") /\
  (forall e, posts = Throw e ->
             Eff.outcome (job (csvReader (false, influencers) (true, posts))) = Throw e) /\
  (forall present,
      job (csvReader (present, influencers) (false, posts))
      = job (csvReader (present, influencers) (true, Ok []))).
Proof.
  cbv zeta. split; [| split; [| split]].
  - intros present rs ->. unfold run, csvReader. cbn [readInfluencers readExistingPosts fst snd].
    rewrite readInfluencers_outcome, readExistingPosts_outcome.
    destruct present; reflexivity.
  - unfold run, csvReader. cbn [readInfluencers readExistingPosts fst snd].
    rewrite readInfluencers_outcome, readExistingPosts_outcome. reflexivity.
  - intros e ->. unfold run, csvReader. cbn [readInfluencers readExistingPosts fst snd].
    rewrite readInfluencers_outcome, readExistingPosts_outcome. reflexivity.
  - intros present. unfold run, csvReader. cbn [readInfluencers readExistingPosts fst snd].
    rewrite !readExistingPosts_outcome. reflexivity.
Qed.
